(** * G-Cloud proposal automation: document composition and artifact addressing

    A shallow embedding of
      - [app/azure/storage_paths.py]            (blob key construction),
      - [app/services/document_generator.py]    (composition, HTML rendering,
                                                 placeholder substitution),
      - [app/services/pricing_document_generator.py] (pricing title),
    together with the properties the specification states about them.

    Python [str] values are lists of characters.  A character is a code
    point in the range U+0000..U+00FF; the classification functions below
    follow CPython's tables on that range. *)

From Stdlib Require Import List Ascii String Bool Arith Lia DecimalString.

Set Warnings "-register-all".
Import ListNotations.

(* ================================================================== *)
(** * Python strings *)
(* ================================================================== *)

Module PyStr.

Definition pystr := list ascii.

(** A literal. *)
Definition str (s : string) : pystr := list_ascii_of_string s.

Definition code (c : ascii) : nat := nat_of_ascii c.

Definition in_range (lo hi : nat) (c : ascii) : bool :=
  (lo <=? code c) && (code c <=? hi).

(** [str.isspace] on one character (also the regex class [\s]). *)
Definition isspace (c : ascii) : bool :=
  in_range 9 13 c || in_range 28 32 c || (code c =? 133) || (code c =? 160).

(** [str.isalnum] on one character. *)
Definition isalnum (c : ascii) : bool :=
  in_range 48 57 c || in_range 65 90 c || in_range 97 122 c
  || (code c =? 170) || in_range 178 179 c || (code c =? 181)
  || in_range 185 186 c || in_range 188 190 c
  || in_range 192 214 c || in_range 216 246 c || in_range 248 255 c.

(** The regex class [\w]: alphanumeric or underscore. *)
Definition is_word (c : ascii) : bool := isalnum c || Ascii.eqb c "_".

(** [str.lower] on one character; on this range it works character by
    character. *)
Definition lower_char (c : ascii) : ascii :=
  if in_range 65 90 c || in_range 192 214 c || in_range 216 222 c
  then ascii_of_nat (code c + 32) else c.

Definition lower (s : pystr) : pystr := map lower_char s.

Fixpoint eqb (a b : pystr) : bool :=
  match a, b with
  | [], [] => true
  | x :: a', y :: b' => Ascii.eqb x y && eqb a' b'
  | _, _ => false
  end.

(** [s.startswith(p)] *)
Fixpoint startswith (p s : pystr) : bool :=
  match p, s with
  | [], _ => true
  | x :: p', y :: s' => Ascii.eqb x y && startswith p' s'
  | _ :: _, [] => false
  end.

(** [s.endswith(p)] *)
Definition endswith (p s : pystr) : bool := startswith (rev p) (rev s).

(** [old in s] *)
Fixpoint contains (old s : pystr) : bool :=
  startswith old s ||
  match s with
  | [] => false
  | _ :: s' => contains old s'
  end.

(** [s.replace(old, new)] for a non-empty [old]: the occurrences are found
    left to right and do not overlap.  [skip] counts the characters of a
    matched occurrence that are still to be passed over. *)
Fixpoint replace_from (old new : pystr) (skip : nat) (s : pystr) : pystr :=
  match s with
  | [] => []
  | c :: s' =>
      match skip with
      | S k => replace_from old new k s'
      | O => if startswith old s
             then new ++ replace_from old new (List.length old - 1) s'
             else c :: replace_from old new 0 s'
      end
  end.

(** [s.replace(old, new)]; with an empty [old] Python puts [new] before
    every character and at the end. *)
Definition replace (old new s : pystr) : pystr :=
  match old with
  | [] => flat_map (fun c => new ++ [c]) s ++ new
  | _ :: _ => replace_from old new 0 s
  end.

Fixpoint lstrip (s : pystr) : pystr :=
  match s with
  | [] => []
  | c :: s' => if isspace c then lstrip s' else s
  end.

Definition rstrip (s : pystr) : pystr := rev (lstrip (rev s)).

(** [s.strip()] *)
Definition strip (s : pystr) : pystr := rstrip (lstrip s).

(** [s.split(sep)] for a one-character separator. *)
Fixpoint split (sep : ascii) (s : pystr) : list pystr :=
  match s with
  | [] => [[]]
  | c :: s' =>
      if Ascii.eqb c sep then [] :: split sep s'
      else match split sep s' with
           | [] => [[c]]
           | h :: t => (c :: h) :: t
           end
  end.

(** [sep.join(parts)] *)
Fixpoint join (sep : pystr) (parts : list pystr) : pystr :=
  match parts with
  | [] => []
  | [p] => p
  | p :: rest => p ++ sep ++ join sep rest
  end.

(** [s.split()]: the maximal runs of non-whitespace characters.  [cur] is
    the run being read, kept in reverse. *)
Fixpoint words_from (cur : pystr) (s : pystr) : list pystr :=
  match s with
  | [] => match cur with [] => [] | _ => [rev cur] end
  | c :: s' =>
      if isspace c
      then match cur with
           | [] => words_from [] s'
           | _ => rev cur :: words_from [] s'
           end
      else words_from (c :: cur) s'
  end.

Definition words (s : pystr) : list pystr := words_from [] s.

(** [re.sub(cls, repl, s)] for a pattern that is one character class:
    every matching character is replaced by [repl]. *)
Fixpoint re_sub_class (cls : ascii -> bool) (repl s : pystr) : pystr :=
  match s with
  | [] => []
  | c :: s' => if cls c then repl ++ re_sub_class cls repl s'
               else c :: re_sub_class cls repl s'
  end.

(** [re.sub(cls+, repl, s)]: every maximal run of matching characters is
    replaced by one [repl].  [in_run] tells that the previous character
    belonged to the run being consumed. *)
Fixpoint re_sub_plus_from (cls : ascii -> bool) (repl : pystr)
         (in_run : bool) (s : pystr) : pystr :=
  match s with
  | [] => []
  | c :: s' =>
      if cls c
      then if in_run then re_sub_plus_from cls repl true s'
           else repl ++ re_sub_plus_from cls repl true s'
      else c :: re_sub_plus_from cls repl false s'
  end.

Definition re_sub_plus (cls : ascii -> bool) (repl s : pystr) : pystr :=
  re_sub_plus_from cls repl false s.

End PyStr.

Import PyStr.

(* ================================================================== *)
(** * pathlib.PurePosixPath *)
(* ================================================================== *)

Module PosixPath.

Definition slash : ascii := "/"%char.
Definition dot : ascii := "."%char.

(** [posixpath.join] of [a] and the segments [p] *)
Definition join_step (path b : pystr) : pystr :=
  if startswith [slash] b then b
  else if PyStr.eqb path [] || endswith [slash] path then path ++ b
  else path ++ [slash] ++ b.

Definition posixpath_join (a : pystr) (p : list pystr) : pystr :=
  fold_left join_step p a.

(** [posixpath.splitroot(p)], without the drive that POSIX never has:
    [p[:1] != sep], then [p[1:2] != sep or p[2:3] == sep]. *)
Definition splitroot (p : pystr) : pystr * pystr :=
  if negb (PyStr.eqb (firstn 1 p) [slash]) then ([], p)
  else if negb (PyStr.eqb (firstn 1 (skipn 1 p)) [slash])
          || PyStr.eqb (firstn 1 (skipn 2 p)) [slash]
  then ([slash], skipn 1 p)
  else (firstn 2 p, skipn 2 p).

(** A component that the parser keeps: neither empty nor ["."]. *)
Definition keeps (x : pystr) : bool :=
  negb (PyStr.eqb x []) && negb (PyStr.eqb x [dot]).

Definition components (rel : pystr) : list pystr :=
  filter keeps (split slash rel).

(** [str] of a [PurePosixPath] built from the segments *)
Definition pure_posix_path_str (segments : list pystr) : pystr :=
  let path := match segments with
              | [] => []
              | a :: p => posixpath_join a p
              end in
  let '(root, rel) := splitroot path in
  match root ++ join [slash] (components rel) with
  | [] => [dot]
  | s => s
  end.

End PosixPath.

Import PosixPath.

(* ================================================================== *)
(** * app/azure/storage_paths.py *)
(* ================================================================== *)

(** The class [[^\w\s\-]]. *)
Definition unsafe_char (c : ascii) : bool :=
  negb (is_word c || isspace c || Ascii.eqb c "-").

Definition _normalise_service_folder (service_name : pystr) : pystr :=
  let cleaned := strip (re_sub_class unsafe_char [] service_name) in
  let cleaned := re_sub_plus isspace (str " ") cleaned in
  replace (str " ") (str "_") cleaned.

(** The local [filename] of [build_service_blob_key]. *)
Definition blob_filename (service_name doc_type gcloud_version extension : pystr)
           (draft : bool) : pystr :=
  let filename := str "PA GC" ++ gcloud_version ++ str " " ++ doc_type
                  ++ str " " ++ service_name in
  let filename := if draft then filename ++ str "_draft" else filename in
  filename ++ str "." ++ extension.

Definition build_service_blob_key
           (service_name doc_type gcloud_version lot extension : pystr)
           (draft : bool) : pystr :=
  let service_folder := _normalise_service_folder service_name in
  let filename :=
    blob_filename service_name doc_type gcloud_version extension draft in
  pure_posix_path_str
    [ str "GCloud " ++ gcloud_version;
      str "PA Services";
      str "Cloud Support Services LOT " ++ lot;
      service_folder;
      filename ].

(* ================================================================== *)
(** * The document tree of python-docx *)
(* ================================================================== *)

(** The library keeps text in XML, and its XML layer refuses a text that
    holds a control character other than tab, newline and carriage return
    (a [ValueError]).  The embedding is about the texts it accepts. *)

Module Docx.

(** What a run holds: text ([w:t]), a tab ([w:tab]), a line break
    ([w:br]) or a picture. *)
Inductive run_item :=
| RText (s : pystr)
| RTab
| RBreak
| RPicture (data : list ascii).

Record run := mk_run {
  r_items : list run_item;
  r_bold : option bool;
  r_italic : option bool;
  r_color : option (nat * nat * nat);
  r_size : option nat }.

Record paragraph := mk_para {
  p_style : option pystr;        (* [None]: the default paragraph style *)
  p_runs : list run;
  p_space_after : option nat }.

Inductive block :=
| BPara (p : paragraph)
| BTable (cells : list (list pystr))
| BOther (tag : pystr).

Record document := mk_doc {
  default_style : pystr;         (* name of the default paragraph style *)
  body : list block }.

Definition tab : ascii := ascii_of_nat 9.
Definition newline : ascii := ascii_of_nat 10.
Definition carriage_return : ascii := ascii_of_nat 13.


(** [run.text]: a tab reads as a tab character, a line break as a
    newline. *)
Definition item_text (it : run_item) : pystr :=
  match it with
  | RText s => s
  | RTab => [tab]
  | RBreak => [newline]
  | RPicture _ => []
  end.

Definition run_text (r : run) : pystr := flat_map item_text (r_items r).

(** [paragraph.text] *)
Definition para_text (p : paragraph) : pystr := flat_map run_text (p_runs p).

(** [paragraph.style.name] *)
Definition style_name (d : document) (p : paragraph) : pystr :=
  match p_style p with Some n => n | None => default_style d end.

(** [doc.paragraphs]: the paragraphs that are children of the body. *)
Definition paragraphs (d : document) : list paragraph :=
  flat_map (fun b => match b with BPara p => [p] | _ => [] end) (body d).

Definition set_body (d : document) (bs : list block) : document :=
  mk_doc (default_style d) bs.


(** [flush] of the library's run content appender: the characters read
    since the last tab or break become one [w:t].  [bfr] holds them in
    reverse. *)
Definition flush (bfr : pystr) : list run_item :=
  match bfr with [] => [] | _ => [RText (rev bfr)] end.

(** The appender, character by character: a tab character becomes
    [w:tab], a newline or a carriage return becomes [w:br], any other
    character goes to the buffer. *)
Fixpoint append_from (bfr text : pystr) : list run_item :=
  match text with
  | [] => flush bfr
  | c :: rest =>
      if Ascii.eqb c tab
      then flush bfr ++ RTab :: append_from [] rest
      else if Ascii.eqb c carriage_return || Ascii.eqb c newline
      then flush bfr ++ RBreak :: append_from [] rest
      else append_from (c :: bfr) rest
  end.

(** [run.text = text], which [paragraph.add_run(text)] does for a text
    that is not empty: the content of the run after it. *)
Definition text_items (text : pystr) : list run_item := append_from [] text.

(** A text as it reads back once written with [text_items]: a carriage
    return has become a line break, which reads as a newline. *)
Definition as_read (text : pystr) : pystr :=
  map (fun c => if Ascii.eqb c carriage_return then newline else c) text.

Definition plain_run (text : pystr) : run :=
  mk_run (text_items text) None None None None.

(** A style is applied only when the name is given and not empty. *)
Definition given_style (style : option pystr) : option pystr :=
  match style with Some (c :: n) => Some (c :: n) | _ => None end.

Definition new_paragraph (text : pystr) (style : option pystr) : paragraph :=
  mk_para (given_style style)
          (match text with [] => [] | _ => [plain_run text] end)
          None.

Definition insert_at (i : nat) (b : block) (bs : list block) : list block :=
  firstn i bs ++ b :: skipn i bs.

(** Apply [f] to the paragraph at body index [i]. *)
Fixpoint update_para (i : nat) (f : paragraph -> paragraph)
         (bs : list block) {struct bs} : list block :=
  match bs with
  | [] => []
  | b :: rest =>
      match i with
      | O => match b with BPara p => BPara (f p) :: rest | _ => b :: rest end
      | S k => b :: update_para k f rest
      end
  end.

Definition add_run (r : run) (p : paragraph) : paragraph :=
  mk_para (p_style p) (p_runs p ++ [r]) (p_space_after p).

Definition set_style (n : pystr) (p : paragraph) : paragraph :=
  mk_para (Some n) (p_runs p) (p_space_after p).

Definition set_space (pt : nat) (p : paragraph) : paragraph :=
  mk_para (p_style p) (p_runs p) (Some pt).

Definition para_add_run (d : document) (i : nat) (r : run) : document :=
  set_body d (update_para i (add_run r) (body d)).

Definition para_set_style (d : document) (i : nat) (n : pystr) : document :=
  set_body d (update_para i (set_style n) (body d)).

Definition set_space_after (d : document) (i : nat) (pt : nat) : document :=
  set_body d (update_para i (set_space pt) (body d)).

(** [_insert_paragraph_after(paragraph, text, style_name)]: [i] is the body
    index of [paragraph]; the result is the document and the index of the
    new paragraph. *)
Definition _insert_paragraph_after (d : document) (i : nat) (text : pystr)
           (style : option pystr) : document * nat :=
  (set_body d (insert_at (S i) (BPara (new_paragraph text style)) (body d)), S i).

(** [doc.add_paragraph(text, style)]: appended at the end of the body. *)
Definition add_paragraph (d : document) (text : pystr) (style : option pystr)
  : document * nat :=
  (set_body d (body d ++ [BPara (new_paragraph text style)]), List.length (body d)).

(** [for i, x in enumerate(l)]: the index of the first [x] with [f x]. *)
Fixpoint find_from {A : Type} (f : A -> bool) (i : nat) (l : list A)
  : option nat :=
  match l with
  | [] => None
  | x :: l' => if f x then Some i else find_from f (S i) l'
  end.

Definition is_heading (d : document) (p : paragraph) : bool :=
  startswith (str "Heading") (style_name d p).

Definition _find_heading_index (d : document) (heading_text : pystr)
  : option nat :=
  find_from (fun p => is_heading d p && contains heading_text (para_text p))
            0 (paragraphs d).

(** [_find_heading_element]; of the pair it returns, the index. *)
Definition _find_heading_element (d : document) (heading_text : pystr)
  : option nat :=
  find_from (fun p => is_heading d p
                      && contains (lower heading_text) (lower (para_text p)))
            0 (paragraphs d).

End Docx.

Import Docx.

(* ================================================================== *)
(** * The parsed HTML of BeautifulSoup *)
(* ================================================================== *)

Module Soup.

(** The tree that [BeautifulSoup(html, 'html.parser')] builds.  A comment
    is a string too ([Comment] is a subclass of [NavigableString]), and
    so are the other strings that [get_text] leaves out (a doctype, a
    declaration, a processing instruction, the content of [script] and
    [style]): [Comment] stands for all of them. *)
Inductive node :=
| NavigableString (s : pystr)
| Comment (s : pystr)
| Tag (name : pystr) (attrs : list (pystr * pystr)) (children : list node).

(** [node.get_text()]: the strings below the node, comments left out. *)
Fixpoint get_text (n : node) : pystr :=
  match n with
  | NavigableString s => s
  | Comment _ => []
  | Tag _ _ children => flat_map get_text children
  end.

(** [tag.get(key)] *)
Fixpoint attr_get (key : pystr) (attrs : list (pystr * pystr)) : option pystr :=
  match attrs with
  | [] => None
  | (k, v) :: rest => if PyStr.eqb k key then Some v else attr_get key rest
  end.

Definition name_in (n : pystr) (names : list pystr) : bool :=
  existsb (PyStr.eqb n) names.

(** [el.find_all('li', recursive=False)] *)
Definition li_children (children : list node) : list node :=
  filter (fun c => match c with
                   | Tag n _ _ => PyStr.eqb n (str "li")
                   | _ => false
                   end) children.

End Soup.

Import Soup.

(* ================================================================== *)
(** * app/services/document_generator.py *)
(* ================================================================== *)

(** What the [try] block around an image does: the bytes are fetched or
    decoded and a picture is added, or the fetch or decode raises, or
    [add_picture] raises after the run was added. *)
Inductive image_result :=
| Loaded (data : list ascii)
| FetchError
| PictureError.

(** One entry of [service_definition].  [content] is what becomes of
    [block.get('content')]: [None] when the key is missing or the string
    is empty, else the parsed string, which can hold no node at all (as
    for [</p>]). *)
Record content_block := mk_block {
  subtitle : pystr;
  content : option (list node);
  images : list pystr;
  table : option (list (list pystr)) }.

Definition num_label (idx : nat) : pystr :=
  str (NilEmpty.string_of_uint (Nat.to_uint idx)) ++ str ". ".

(** The ordinal run: bold, [RGBColor(192, 0, 0)]. *)
Definition num_run (idx : nat) : run :=
  mk_run (text_items (num_label idx)) (Some true) None (Some (192, 0, 0)) None.

(** The item run: [RGBColor(0, 0, 0)]. *)
Definition item_run (item : pystr) : run :=
  mk_run (text_items item) None None (Some (0, 0, 0)) None.

(** [cur = self._insert_paragraph_after(cur, text, style) if cur
          else doc.add_paragraph(text, style)] *)
Definition after_or_append (d : document) (cur : option nat) (text : pystr)
           (style : option pystr) : document * nat :=
  match cur with
  | Some c => _insert_paragraph_after d c text style
  | None => add_paragraph d text style
  end.

(** The loop of [_insert_numbered_list_block], [idx] being the ordinal of
    the next item. *)
Fixpoint numbered_from (idx : nat) (d : document) (cur : option nat)
         (items : list pystr) : document * option nat :=
  match items with
  | [] => (d, cur)
  | item :: rest =>
      let '(d1, i) := after_or_append d cur [] None in
      let d2 := set_space_after d1 i 4 in
      let d3 := para_add_run d2 i (num_run idx) in
      let d4 := para_add_run d3 i (item_run item) in
      numbered_from (S idx) d4 (Some i) rest
  end.

Definition _insert_numbered_list_block (d : document) (after_para : option nat)
           (items : list pystr) : document * option nat :=
  numbered_from 1 d after_para items.

Section Renderer.

Variable load_image : pystr -> image_result.

(** [render_inline(p.add_run(''), child)]: the run it leaves behind.
    [run.add_text] adds one [w:t] that holds the text as it is. *)
Definition render_inline (name : pystr) (child : node) : run :=
  if name_in name [str "strong"; str "b"]
  then mk_run [RText (get_text child)] (Some true) None None None
  else if name_in name [str "em"; str "i"]
  then mk_run [RText (get_text child)] None (Some true) None None
  else if PyStr.eqb name (str "br")
  then mk_run [RBreak] None None None None
  else mk_run [RText (get_text child)] None None None None.

Definition picture_run (data : list ascii) : run :=
  mk_run [RPicture data] None None None None.

Definition image_placeholder (src : pystr) : pystr :=
  str "[image: " ++ src ++ str "]".

(** One turn of [for child in text_or_node.children]; [p] is the body index
    of the paragraph that receives the runs. *)
Definition add_child (st : document * nat) (child : node) : document * nat :=
  let '(d, p) := st in
  match child with
  | NavigableString s => (para_add_run d p (plain_run s), p)
  | Comment s => (para_add_run d p (plain_run s), p)
  | Tag name attrs _ =>
      if name_in name [str "strong"; str "b"; str "em"; str "i"; str "br"]
      then (para_add_run d p (render_inline name child), p)
      else if PyStr.eqb name (str "img")
      then match attr_get (str "src") attrs with
           | Some (c :: src') =>
               let src := c :: src' in
               let '(d1, p_img) := _insert_paragraph_after d p [] None in
               match load_image src with
               | Loaded data => (para_add_run d1 p_img (picture_run data), p_img)
               | FetchError =>
                   (para_add_run d1 p_img (plain_run (image_placeholder src)), p_img)
               | PictureError =>
                   let d2 := para_add_run d1 p_img (plain_run []) in
                   (para_add_run d2 p_img (plain_run (image_placeholder src)), p_img)
               end
           | _ => (d, p)
           end
      else (para_add_run d p (plain_run (get_text child)), p)
  end.

(** [add_paragraph_with_inlines(text_or_node, style_name)]; the paragraph is
    inserted after [after_para], the argument of [_insert_html]. *)
Definition add_paragraph_with_inlines (d : document) (after_para : nat)
           (text_or_node : pystr + list node) (style : option pystr)
  : document * nat :=
  let '(d1, p) := _insert_paragraph_after d after_para [] None in
  let d2 := match given_style style with
            | Some n => para_set_style d1 p n
            | None => d1
            end in
  match text_or_node with
  | inl s => (para_add_run d2 p (plain_run s), p)
  | inr children => fold_left add_child children (d2, p)
  end.

(** One turn of [for el in soup.contents]. *)
Definition html_step (after_para : nat) (st : document * nat) (el : node)
  : document * nat :=
  let '(d, last) := st in
  let top_string s :=
    match strip s with
    | [] => st
    | _ => add_paragraph_with_inlines d after_para (inl s) None
    end in
  match el with
  | NavigableString s => top_string s
  | Comment s => top_string s
  | Tag el_name _ children =>
      match el_name with
      | [] => st
      | _ =>
          let name := lower el_name in
          if PyStr.eqb name (str "h3")
          then add_paragraph_with_inlines d after_para (inr children)
                                          (Some (str "Heading 3"))
          else if PyStr.eqb name (str "p")
          then add_paragraph_with_inlines d after_para (inr children)
                                          (Some (str "Normal"))
          else if name_in name [str "ul"; str "ol"]
          then fold_left
                 (fun (s : document * nat) li =>
                    _insert_paragraph_after
                      (fst s) (snd s) (get_text li)
                      (Some (if PyStr.eqb name (str "ul")
                             then str "List Bullet" else str "List Number")))
                 (li_children children) (d, last)
          else if PyStr.eqb name (str "br")
          then _insert_paragraph_after d last [] None
          else add_paragraph_with_inlines d after_para (inr children)
                                          (Some (str "Normal"))
      end
  end.

(** [_insert_html(doc, after_para, html)], on the parsed [html]. *)
Definition _insert_html (d : document) (after_para : nat) (soup : list node)
  : document * nat :=
  fold_left (html_step after_para) soup (d, after_para).

(** [add_para] of [_insert_full_content_block]. *)
Definition add_para (st : document * option nat) (text : pystr)
           (style : option pystr) (space_after : nat) : document * nat :=
  let '(d1, i) := after_or_append (fst st) (snd st) text style in
  (set_space_after d1 i space_after, i).

(** One turn of [for block in service_definition]. *)
Definition definition_step (st : document * nat) (block : content_block)
  : document * nat :=
  let st1 := match subtitle block with
             | [] => st
             | _ => add_para (fst st, Some (snd st)) (subtitle block)
                             (Some (str "Heading 3")) 6
             end in
  match content block with
  | None => st1
  | Some soup =>
      let '(d2, last) := _insert_html (fst st1) (snd st1) soup in
      _insert_paragraph_after d2 last [] None
  end.

(** [_insert_full_content_block]; [None] stands for the [AttributeError]
    of [_insert_paragraph_after(None, '')]. *)
Definition _insert_full_content_block (d : document) (after_para : option nat)
           (service_title description : pystr) (features benefits : list pystr)
           (service_definition : list content_block)
  : option (document * nat) :=
  let '(d, cur) := add_para (d, after_para) service_title (Some (str "Heading 1")) 16 in
  let '(d, cur) := add_para (d, Some cur) (str "Short Service Description")
                            (Some (str "Heading 2")) 10 in
  let '(d, cur) := add_para (d, Some cur) description (Some (str "Normal")) 16 in
  let '(d, cur) := add_para (d, Some cur) (str "Key Service Features")
                            (Some (str "Heading 2")) 10 in
  match _insert_numbered_list_block d (Some cur) (firstn 10 features) with
  | (_, None) => None
  | (d, Some cur) =>
  let '(d, cur) := _insert_paragraph_after d cur [] None in
  let d := set_space_after d cur 14 in
  let '(d, cur) := add_para (d, Some cur) (str "Key Service Benefits")
                            (Some (str "Heading 2")) 8 in
  match _insert_numbered_list_block d (Some cur) (firstn 10 benefits) with
  | (_, None) => None
  | (d, Some cur) =>
  let '(d, cur) := _insert_paragraph_after d cur [] None in
  let d := set_space_after d cur 16 in
  match service_definition with
  | [] => Some (d, cur)
  | _ =>
      let st := add_para (d, Some cur) (str "Service Definition")
                         (Some (str "Heading 2")) 6 in
      Some (fold_left definition_step service_definition st)
  end
  end
  end.


End Renderer.

(* ------------------------------------------------------------------ *)
(** ** Clearing a section *)

(** The body index of paragraph number [k] of [doc.paragraphs]. *)
Fixpoint para_position (k : nat) (bs : list block) : option nat :=
  match bs with
  | [] => None
  | BPara _ :: rest =>
      match k with
      | O => Some 0
      | S k' => option_map S (para_position k' rest)
      end
  | _ :: rest => option_map S (para_position k rest)
  end.

(** The siblings from the next heading paragraph on. *)
Fixpoint from_next_heading (d : document) (bs : list block) : list block :=
  match bs with
  | [] => []
  | BPara p :: rest => if is_heading d p then bs else from_next_heading d rest
  | _ :: rest => from_next_heading d rest
  end.

(** [_clear_section_after_heading]; [None] is the [IndexError] of
    [doc.paragraphs[heading_idx]]. *)
Definition _clear_section_after_heading (d : document) (heading_idx : nat)
  : option document :=
  match para_position heading_idx (body d) with
  | None => None
  | Some i =>
      Some (set_body d (firstn (S i) (body d)
                        ++ from_next_heading d (skipn (S i) (body d))))
  end.

(* ------------------------------------------------------------------ *)
(** ** Placeholder substitution *)

(** [for old, new in mapping.items(): if old in text: text = text.replace(old, new)];
    a [dict] is walked in insertion order. *)
Definition apply_mapping (mapping : list (pystr * pystr)) (text : pystr) : pystr :=
  fold_left (fun replaced (kv : pystr * pystr) =>
               if contains (fst kv) replaced
               then replace (fst kv) (snd kv) replaced
               else replaced)
            mapping text.

(** The mapping both passes receive in [generate_service_description]. *)
Definition service_name_mapping (title : pystr) : list (pystr * pystr) :=
  [ (str "ENTER SERVICE NAME HERE", title);
    (str "Enter Service Name Here", title);
    (str "enter service name here", title);
    (str "Add Title", title);
    (str "{{SERVICE_NAME}}", title) ].

Module Xml.

(** An element of the body part: qualified tag, text, children. *)
Inductive element :=
| Element (tag : pystr) (text : option pystr) (children : list element).

End Xml.

Import Xml.

(** [if t.text: ... t.text = replaced] on one text node. *)
Definition patch_text (mapping : list (pystr * pystr)) (text : option pystr)
  : option pystr :=
  match text with
  | Some (c :: s) => Some (apply_mapping mapping (c :: s))
  | _ => text
  end.

(** The loop over [xpath('.//' + tag)], at and below [e]. *)
Fixpoint patch_tag (tag : pystr) (mapping : list (pystr * pystr)) (e : element)
  : element :=
  match e with
  | Element t text children =>
      Element t
              (if PyStr.eqb t tag then patch_text mapping text else text)
              (map (patch_tag tag mapping) children)
  end.

(** [.//tag] selects below the root only. *)
Definition patch_descendants (tag : pystr) (mapping : list (pystr * pystr))
           (root : element) : element :=
  match root with
  | Element t text children =>
      Element t text (map (patch_tag tag mapping) children)
  end.

(** [xpath(self, xpath_str)] of the library's [BaseOxmlElement] takes the
    path and no keyword argument: a call that passes one is a
    [TypeError]. *)
Definition xpath_accepts (keywords : list pystr) : bool :=
  match keywords with
  | [] => true
  | _ :: _ => false
  end.

(** [_replace_text_in_all_wt(doc, mapping)] on [doc._element].  The loop
    starts with [doc._element.xpath(xpath, namespaces=ns)]; the exception
    of that call ends the [try] block, and [except Exception: pass]
    returns with the tree as it was. *)
Definition _replace_text_in_all_wt (root : element)
           (mapping : list (pystr * pystr)) : element :=
  if xpath_accepts [str "namespaces"]
  then patch_descendants (str "a:t") mapping
         (patch_descendants (str "w:t") mapping root)
  else root.

Section SavedPackage.

(** [bytes.decode('utf-8')] ([None] when it raises) and
    [str.encode('utf-8')]. *)
Variable decode : list Byte.byte -> option pystr.
Variable encode : pystr -> list Byte.byte.

(** One turn of [for item in zin.infolist()]. *)
Definition patch_part (mapping : list (pystr * pystr))
           (item : pystr * list Byte.byte) : pystr * list Byte.byte :=
  let '(filename, data) := item in
  if startswith (str "word/") filename && endswith (str ".xml") filename
  then match decode data with
       | Some text => (filename, encode (apply_mapping mapping text))
       | None => (filename, data)
       end
  else (filename, data).

(** [_replace_in_saved_docx] on the archive members, in archive order. *)
Definition _replace_in_saved_docx (package : list (pystr * list Byte.byte))
           (mapping : list (pystr * pystr)) : list (pystr * list Byte.byte) :=
  map (patch_part mapping) package.

End SavedPackage.

(* ================================================================== *)
(** * app/services/pricing_document_generator.py *)
(* ================================================================== *)

Module Pricing.

(** [paragraph.text = text] and then, for its runs, size 24 and bold. *)
Definition titled (text : pystr) (p : paragraph) : paragraph :=
  mk_para (p_style p)
          [mk_run (text_items text) (Some true) None None (Some 24)]
          (p_space_after p).

(** The body of [if paragraph.style.name == 'Heading 1']. *)
Definition retitle (service_name : pystr) (p : paragraph) : paragraph :=
  let current_text := strip (para_text p) in
  if negb (contains service_name current_text)
  then titled (current_text ++ str " - " ++ service_name) p
  else titled current_text p.

(** The first loop of [_replace_title]; [None] when no paragraph has the
    style [Heading 1]. *)
Fixpoint retitle_first (d : document) (service_name : pystr)
         (bs : list block) : option (list block) :=
  match bs with
  | [] => None
  | BPara p :: rest =>
      if PyStr.eqb (style_name d p) (str "Heading 1")
      then Some (BPara (retitle service_name p) :: rest)
      else option_map (cons (BPara p)) (retitle_first d service_name rest)
  | b :: rest => option_map (cons b) (retitle_first d service_name rest)
  end.

Definition placeholders : list pystr :=
  [str "SERVICE TITLE"; str "SERVICE NAME"; str "{{SERVICE_NAME}}"].

(** [r.text = text] *)
Definition set_run_text (text : pystr) (r : run) : run :=
  mk_run (text_items text) (r_bold r) (r_italic r) (r_color r) (r_size r).

(** The fallback on one run: the first placeholder found in it is replaced. *)
Definition fallback_run (service_name : pystr) (r : run) : option run :=
  match find (fun ph => contains ph (run_text r)) placeholders with
  | Some ph => Some (set_run_text (replace ph service_name (run_text r)) r)
  | None => None
  end.

Fixpoint fallback_runs (service_name : pystr) (rs : list run)
  : option (list run) :=
  match rs with
  | [] => None
  | r :: rest =>
      match fallback_run service_name r with
      | Some r' => Some (r' :: rest)
      | None => option_map (cons r) (fallback_runs service_name rest)
      end
  end.

Fixpoint fallback_blocks (service_name : pystr) (bs : list block)
  : option (list block) :=
  match bs with
  | [] => None
  | BPara p :: rest =>
      match fallback_runs service_name (p_runs p) with
      | Some rs => Some (BPara (mk_para (p_style p) rs (p_space_after p)) :: rest)
      | None => option_map (cons (BPara p)) (fallback_blocks service_name rest)
      end
  | b :: rest => option_map (cons b) (fallback_blocks service_name rest)
  end.

Definition _replace_title (d : document) (service_name : pystr) : document :=
  match retitle_first d service_name (body d) with
  | Some bs => set_body d bs
  | None =>
      match fallback_blocks service_name (body d) with
      | Some bs => set_body d bs
      | None => d
      end
  end.

(** The text of the first [Heading 1] paragraph. *)
Definition heading1_text (d : document) : option pystr :=
  option_map para_text
    (find (fun p => PyStr.eqb (style_name d p) (str "Heading 1")) (paragraphs d)).

End Pricing.

(* ================================================================== *)
(** * Statements *)
(* ================================================================== *)

Section FirstMatch.

Variable A : Type.
Variable f : A -> bool.

(** What an [enumerate] search returns: the first position accepted by [f],
    or nothing when [f] accepts no element. *)
Definition first_match (l : list A) (r : option nat) : Prop :=
  match r with
  | Some i =>
      (exists x, nth_error l i = Some x /\ f x = true)
      /\ forall j y, j < i -> nth_error l j = Some y -> f y = false
  | None => forall x, In x l -> f x = false
  end.

End FirstMatch.

Arguments first_match {A} f l r.

(** The style tag begins with [Heading]. *)
Definition heading_styled (d : document) (p : paragraph) : Prop :=
  exists rest, style_name d p = str "Heading" ++ rest.

(** [needle] occurs in [text], character for character. *)
Definition occurs_in (needle text : pystr) : Prop :=
  exists a b, text = a ++ needle ++ b.

(** A locate operation for the match [accepts]: the index of the first
    accepted paragraph, nothing when no paragraph is accepted. *)
Definition locates (d : document) (accepts : paragraph -> Prop)
           (r : option nat) : Prop :=
  match r with
  | Some i =>
      (exists p, nth_error (paragraphs d) i = Some p /\ accepts p)
      /\ forall j q, j < i -> nth_error (paragraphs d) j = Some q -> ~ accepts q
  | None => forall p, In p (paragraphs d) -> ~ accepts p
  end.

Definition matches_exactly (d : document) (heading_text : pystr)
           (p : paragraph) : Prop :=
  heading_styled d p /\ occurs_in heading_text (para_text p).

Definition matches_ignoring_case (d : document) (heading_text : pystr)
           (p : paragraph) : Prop :=
  heading_styled d p /\ occurs_in (lower heading_text) (lower (para_text p)).

(** The document of one [Heading 1] paragraph reading [ABOUT PA]. *)
Definition shouting_doc : document :=
  mk_doc (str "Normal")
         [BPara (mk_para (Some (str "Heading 1")) [plain_run (str "ABOUT PA")] None)].


(* ------------------------------------------------------------------ *)
(** ** Placeholder substitution *)

(** No marker of [mapping] occurs in [text]. *)
Definition marker_free (mapping : list (pystr * pystr)) (text : pystr) : Prop :=
  forall kv, In kv mapping -> contains (fst kv) text = false.

(** One of the two texts begins with the other. *)
Definition meets (a b : pystr) : bool := startswith a b || startswith b a.

(** The ends of a text that are not empty, the text itself first. *)
Fixpoint suffixes (s : pystr) : list pystr :=
  match s with
  | [] => []
  | _ :: s' => s :: suffixes s'
  end.

(** No occurrence of [marker] can share a character with an occurrence of
    [title], whatever the text around them: no end of the marker begins
    the title or begins with it, and no end of the title begins the
    marker or begins with it. *)
Definition clear_of (marker title : pystr) : bool :=
  forallb (fun q => negb (meets q title)) (suffixes marker)
  && forallb (fun t => negb (meets t marker)) (suffixes title).

(** The markers of the mapping that the generator uses. *)
Definition service_name_markers : list pystr :=
  map fst (service_name_mapping []).

(** A title that no marker can overlap. *)
Definition inert (title : pystr) : bool :=
  forallb (fun marker => clear_of marker title) service_name_markers.

(** A codec for examples: one byte per character, which is UTF-8 on ASCII
    text. *)
Definition bytes_decode (data : list Byte.byte) : option pystr :=
  Some (map ascii_of_byte data).

Definition bytes_encode (text : pystr) : list Byte.byte :=
  map byte_of_ascii text.

(** A body whose only text node reads [text]. *)
Definition one_text_tree (text : pystr) : element :=
  Element (str "w:document") None
    [Element (str "w:body") None
       [Element (str "w:p") None
          [Element (str "w:r") None
             [Element (str "w:t") (Some text) []]]]].

Definition one_part_package (text : pystr) : list (pystr * list Byte.byte) :=
  [ (str "[Content_Types].xml", bytes_encode (str "<Types/>"));
    (str "word/document.xml", bytes_encode text) ].

(* ------------------------------------------------------------------ *)
(** ** The pricing title *)

Definition is_h1 (d : document) (p : paragraph) : bool :=
  PyStr.eqb (style_name d p) (str "Heading 1").

(** A pricing template whose [Heading 1] reads [heading]. *)
Definition pricing_doc (heading : pystr) : document :=
  mk_doc (str "Normal")
         [ BPara (mk_para None [plain_run (str "PA Consulting")] None);
           BPara (mk_para (Some (str "Heading 1")) [plain_run heading] None);
           BPara (mk_para None [plain_run (str "SERVICE TITLE")] None) ].

(* ------------------------------------------------------------------ *)
(** ** Blob keys *)

(** [draft_key] is [final_key] with [_draft] put before the dot that
    starts the extension, and nothing else changed. *)
Definition differs_by_draft_suffix (final_key draft_key : pystr) : Prop :=
  exists pre post,
    final_key = pre ++ str "." ++ post
    /\ draft_key = pre ++ str "_draft" ++ str "." ++ post.

(** [sep.join] around one part. *)
Definition join_left (sep : pystr) (parts : list pystr) : pystr :=
  flat_map (fun x => x ++ sep) parts.

Definition join_right (sep : pystr) (parts : list pystr) : pystr :=
  flat_map (fun y => sep ++ y) parts.

(** The extension as the key ends with it: the extension itself when it
    holds no separator, else its pieces between separators, those after
    the first that are empty or [.] left out. *)
Definition extension_in_key (extension : pystr) : pystr :=
  hd [] (split slash extension)
  ++ join_right [slash] (filter keeps (tl (split slash extension))).

(** [final_key] ends with the dot and the extension, and [draft_key] is
    [final_key] with [_draft] put before that dot. *)
Definition draft_before_extension (extension final_key draft_key : pystr)
  : Prop :=
  exists pre,
    final_key = pre ++ str "." ++ extension_in_key extension
    /\ draft_key = pre ++ str "_draft" ++ str "." ++ extension_in_key extension.

(** No path separator in [s]. *)
Definition slash_free (s : pystr) : Prop := ~ In slash s.

(** The characters that [_normalise_service_folder] keeps: word
    characters (letters, digits, underscore), whitespace and the hyphen. *)
Definition safe_char (c : ascii) : bool :=
  is_word c || isspace c || Ascii.eqb c "-".

(** The four segments before the file name. *)
Definition folder_parts (service_name gcloud_version lot : pystr) : list pystr :=
  components (str "GCloud " ++ gcloud_version)
  ++ components (str "PA Services")
  ++ components (str "Cloud Support Services LOT " ++ lot)
  ++ components (_normalise_service_folder service_name).

(** The folder name as the specification words it: the characters outside
    letters, digits, whitespace and hyphen stripped, whitespace collapsed
    to single spaces, spaces mapped to underscores. *)
Definition folder_as_specified (service_name : pystr) : pystr :=
  let kept := filter (fun c => isalnum c || isspace c || Ascii.eqb c "-")
                     service_name in
  replace (str " ") (str "_") (re_sub_plus isspace (str " ") kept).

(** What C9 says of a character [c] that the folder normalisation strips:
    it is gone from the folder name, the file name holds the raw service
    name, and [c] is still in the key. *)
Definition stripped_char_survives
           (service_name doc_type gcloud_version lot extension : pystr)
           (draft : bool) (c : ascii) : Prop :=
  ~ In c (_normalise_service_folder service_name)
  /\ occurs_in service_name
               (blob_filename service_name doc_type gcloud_version extension draft)
  /\ In c (build_service_blob_key service_name doc_type gcloud_version lot
                                  extension draft).

(** What the key holds in front of the file name: the folder segments,
    each with the separator that follows it. *)
Definition key_front (service_name gcloud_version lot : pystr) : pystr :=
  join_left [slash] (folder_parts service_name gcloud_version lot).

(** A file name as the key ends with it: its pieces between separators,
    the empty ones and the [.] ones left out. *)
Definition filename_in_key (filename : pystr) : pystr :=
  join [slash] (components filename).

(** No piece of the path between separators is empty or [.]: the path
    parser changes nothing in it. *)
Definition path_clean (p : pystr) : bool := forallb keeps (split slash p).

(** A space becomes an underscore. *)
Definition space_to_underscore (c : ascii) : ascii :=
  if Ascii.eqb " " c then "_"%char else c.

(** The scan of [re.sub(r"\s+", " ", s)] followed by the replacement of
    spaces, started inside a run or not. *)
Definition collapsed (in_run : bool) (s : pystr) : pystr :=
  map space_to_underscore (re_sub_plus_from isspace (str " ") in_run s).

(** The key when no argument holds a separator: five segments. *)
Definition key_layout (service_name doc_type gcloud_version lot extension : pystr)
           (draft : bool) : pystr :=
  str "GCloud " ++ gcloud_version
  ++ str "/PA Services/Cloud Support Services LOT " ++ lot
  ++ str "/" ++ _normalise_service_folder service_name
  ++ str "/" ++ blob_filename service_name doc_type gcloud_version extension draft.

(* ------------------------------------------------------------------ *)
(** ** Composition *)

(** The body [l'] is [l] with blocks put in at or after position [k]: the
    first [k] blocks are the same, the blocks from [k] on are all still
    there, and nothing is lost. *)
Definition grows_after (k : nat) (l l' : list block) : Prop :=
  firstn k l' = firstn k l
  /\ (forall x, In x (skipn k l) -> In x (skipn k l'))
  /\ List.length l <= List.length l'.

(** What every step keeps: the blocks up to [after_para], every block
    behind it, a valid cursor and the default style. *)
Definition step_keeps (after_para : nat) (d : document)
           (st' : document * nat) : Prop :=
  grows_after (S after_para) (body d) (body (fst st'))
  /\ after_para <= snd st'
  /\ snd st' < List.length (body (fst st'))
  /\ default_style (fst st') = default_style d.

(** The paragraph [add_paragraph_with_inlines] starts from. *)
Definition start_paragraph (style : option pystr) : paragraph :=
  match given_style style with
  | Some n => set_style n (new_paragraph [] None)
  | None => new_paragraph [] None
  end.

Section Inlines.

Variable load_image : pystr -> image_result.

(** [add_child] on the paragraphs themselves: [seg] are the paragraphs
    already left behind, [q] the one that receives the runs. *)
Definition child_step (st : list paragraph * paragraph) (child : node)
  : list paragraph * paragraph :=
  let '(seg, q) := st in
  match child with
  | NavigableString s => (seg, add_run (plain_run s) q)
  | Comment s => (seg, add_run (plain_run s) q)
  | Tag name attrs _ =>
      if name_in name [str "strong"; str "b"; str "em"; str "i"; str "br"]
      then (seg, add_run (render_inline name child) q)
      else if PyStr.eqb name (str "img")
      then match attr_get (str "src") attrs with
           | Some (c :: src') =>
               let src := c :: src' in
               let fresh := new_paragraph [] None in
               match load_image src with
               | Loaded data => (seg ++ [q], add_run (picture_run data) fresh)
               | FetchError =>
                   (seg ++ [q], add_run (plain_run (image_placeholder src)) fresh)
               | PictureError =>
                   (seg ++ [q],
                    add_run (plain_run (image_placeholder src))
                            (add_run (plain_run []) fresh))
               end
           | _ => (seg, q)
           end
      else (seg, add_run (plain_run (get_text child)) q)
  end.

(** The paragraphs that one paragraph-level element leaves in the body. *)
Definition inline_paragraphs (children : list node) (style : option pystr)
  : list paragraph * paragraph :=
  fold_left child_step children ([], start_paragraph style).

End Inlines.

(** The paragraph of a list item of [ul] or [ol]. *)
Definition li_paragraph (list_name : pystr) (li : node) : block :=
  BPara (new_paragraph (get_text li)
           (Some (if PyStr.eqb list_name (str "ul")
                  then str "List Bullet" else str "List Number"))).

(** The paragraph of item number [idx] of a numbered list: the ordinal
    run and the item run. *)
Definition item_paragraph (idx : nat) (item : pystr) : paragraph :=
  mk_para None [num_run idx; item_run item] (Some 4).

Fixpoint numbered_paragraphs (idx : nat) (items : list pystr) : list block :=
  match items with
  | [] => []
  | item :: rest =>
      BPara (item_paragraph idx item) :: numbered_paragraphs (S idx) rest
  end.

(** The paragraph that [add_para] makes. *)
Definition styled (text : pystr) (style : string) (space : nat) : block :=
  BPara (set_space space (new_paragraph text (Some (str style)))).

(** The empty paragraph that closes a list. *)
Definition spacer (space : nat) : block :=
  BPara (set_space space (new_paragraph [] None)).

(** The blocks from the title to the end of the benefits. *)
Definition composed_head (service_title description : pystr)
           (features benefits : list pystr) : list block :=
  [ styled service_title "Heading 1" 16;
    styled (str "Short Service Description") "Heading 2" 10;
    styled description "Normal" 16;
    styled (str "Key Service Features") "Heading 2" 10 ]
  ++ numbered_paragraphs 1 (firstn 10 features)
  ++ [ spacer 14;
       styled (str "Key Service Benefits") "Heading 2" 8 ]
  ++ numbered_paragraphs 1 (firstn 10 benefits)
  ++ [ spacer 16 ].

(** What a reader sees of a block: the style name and the text of a
    paragraph, nothing of a table or of another element. *)
Definition shown (d : document) (b : block) : option (pystr * pystr) :=
  match b with
  | BPara p => Some (style_name d p, para_text p)
  | _ => None
  end.





(** Where the composed blocks start. *)
Definition insertion_point (d : document) (after_para : option nat) : nat :=
  match after_para with
  | Some i => S i
  | None => List.length (body d)
  end.

(** A template of a title, a contents heading and a closing paragraph. *)
Definition small_template : document :=
  mk_doc (str "Normal")
         [ BPara (mk_para (Some (str "Heading 1")) [plain_run (str "Add Title")] None);
           BPara (mk_para (Some (str "Heading 1")) [plain_run (str "Contents")] None);
           BPara (mk_para None [plain_run (str "Closing words")] None) ].


Definition no_image (src : pystr) : image_result := FetchError.

(* ------------------------------------------------------------------ *)
(** ** Degradation *)



(** The element is rendered by [add_paragraph_with_inlines]: its name is
    not empty and is none of [ul], [ol], [br]. *)
Definition paragraph_level (name : pystr) : Prop :=
  name <> []
  /\ name_in (lower name) [str "ul"; str "ol"; str "br"] = false.




(** The style [_insert_html] gives to the paragraph of an element. *)
Definition element_style (name : pystr) : option pystr :=
  if PyStr.eqb (lower name) (str "h3")
  then Some (str "Heading 3") else Some (str "Normal").







(** [<xyz>hello</xyz>], parsed. *)
Definition unknown_tag : list node :=
  [Tag (str "xyz") [] [NavigableString (str "hello")]].




(* ------------------------------------------------------------------ *)
(** ** Images and tables of a subsection *)

(** The block without its images and its table. *)
Definition strip_media (b : content_block) : content_block :=
  mk_block (subtitle b) (content b) [] None.

Definition run_has_picture (r : run) : bool :=
  existsb (fun it => match it with RPicture _ => true | _ => false end)
          (r_items r).

(** Some paragraph of the body holds a picture. *)
Definition has_picture (d : document) : bool :=
  existsb (fun b => match b with
                    | BPara p => existsb run_has_picture (p_runs p)
                    | _ => false
                    end) (body d).

(** The body holds a table. *)
Definition has_table (d : document) : bool :=
  existsb (fun b => match b with BTable _ => true | _ => false end) (body d).

(** A subsection with a subtitle, a paragraph, an image and a table. *)
Definition media_block : content_block :=
  mk_block (str "Overview")
           (Some [Tag (str "p") [] [NavigableString (str "Text")]])
           [str "https://example.com/a.png"]
           (Some [[str "H1"; str "H2"]; [str "a"; str "b"]]).

(** Every image loads. *)
Definition any_image (src : pystr) : image_result := Loaded (str "PNG").

(* ------------------------------------------------------------------ *)
(** ** Reading a document back *)

(** Style name and text of every paragraph of the body, in order. *)
Definition outline (d : document) : list (pystr * pystr) :=
  map (fun p => (style_name d p, para_text p)) (paragraphs d).

(** [<p>A</p><p>B</p>], parsed. *)
Definition two_paragraphs : list node :=
  [ Tag (str "p") [] [NavigableString (str "A")];
    Tag (str "p") [] [NavigableString (str "B")] ].

(* ================================================================== *)
(** * More of app/services/document_generator.py *)
(* ================================================================== *)

(** Throughout, [body] lists the block children of the body element that
    stand in front of the section properties. *)

Module Generator.

(** The markers that [_replace_title] falls back to. *)
Definition placeholders : list pystr :=
  [ str "ENTER SERVICE NAME HERE"; str "Enter Service Name Here";
    str "enter service name here"; str "Add Title"; str "{{SERVICE_NAME}}" ].

(** The first loop of [_replace_title]: the first paragraph whose style is
    named [Heading 1] gets the new title as its only run, size 24 and
    bold; [None] when there is no such paragraph. *)
Fixpoint title_first (d : document) (new_title : pystr) (bs : list block)
  : option (list block) :=
  match bs with
  | [] => None
  | BPara p :: rest =>
      if PyStr.eqb (style_name d p) (str "Heading 1")
      then Some (BPara (Pricing.titled new_title p) :: rest)
      else option_map (cons (BPara p)) (title_first d new_title rest)
  | b :: rest => option_map (cons b) (title_first d new_title rest)
  end.

(** The fallback on one run: the first marker of the list found in it is
    replaced by the title. *)
Definition fallback_run (new_title : pystr) (r : run) : option run :=
  match find (fun ph => contains ph (run_text r)) placeholders with
  | Some ph => Some (Pricing.set_run_text (replace ph new_title (run_text r)) r)
  | None => None
  end.

Fixpoint fallback_runs (new_title : pystr) (rs : list run) : option (list run) :=
  match rs with
  | [] => None
  | r :: rest =>
      match fallback_run new_title r with
      | Some r' => Some (r' :: rest)
      | None => option_map (cons r) (fallback_runs new_title rest)
      end
  end.

Fixpoint fallback_blocks (new_title : pystr) (bs : list block)
  : option (list block) :=
  match bs with
  | [] => None
  | BPara p :: rest =>
      match fallback_runs new_title (p_runs p) with
      | Some rs => Some (BPara (mk_para (p_style p) rs (p_space_after p)) :: rest)
      | None => option_map (cons (BPara p)) (fallback_blocks new_title rest)
      end
  | b :: rest => option_map (cons b) (fallback_blocks new_title rest)
  end.

(** [DocumentGenerator._replace_title] *)
Definition _replace_title (d : document) (new_title : pystr) : document :=
  match title_first d new_title (body d) with
  | Some bs => set_body d bs
  | None =>
      match fallback_blocks new_title (body d) with
      | Some bs => set_body d bs
      | None => d
      end
  end.

(** The siblings in front of the next heading paragraph. *)
Fixpoint until_next_heading (d : document) (bs : list block) : list block :=
  match bs with
  | [] => []
  | BPara p :: rest =>
      if is_heading d p then [] else BPara p :: until_next_heading d rest
  | b :: rest => b :: until_next_heading d rest
  end.

(** [_remove_heading_block]: the heading paragraph goes, and its siblings
    up to the next heading paragraph; [None] is the [IndexError] of
    [doc.paragraphs[heading_idx]].  When no heading follows, the loop
    runs to the end of the body and takes the section properties with
    it; they are no block and stand outside [body]. *)
Definition _remove_heading_block (d : document) (heading_idx : nat)
  : option document :=
  match para_position heading_idx (body d) with
  | None => None
  | Some i =>
      Some (set_body d (firstn i (body d)
                        ++ from_next_heading d (skipn (S i) (body d))))
  end.

(** [_remove_sections] *)
Fixpoint _remove_sections (d : document) (headings : list pystr)
  : option document :=
  match headings with
  | [] => Some d
  | h :: rest =>
      match _find_heading_index d h with
      | None => _remove_sections d rest
      | Some idx =>
          match _remove_heading_block d idx with
          | None => None
          | Some d' => _remove_sections d' rest
          end
      end
  end.

(** [_extract_heading_block]: the detached blocks and the document
    without them.  When no heading follows, the section properties are
    detached as well; they are no block and are listed neither in [body]
    nor here. *)
Definition _extract_heading_block (d : document) (heading_text : pystr)
  : list block * document :=
  match _find_heading_element d heading_text with
  | None => ([], d)
  | Some idx =>
      match para_position idx (body d) with
      | None => ([], d)
      | Some i =>
          match skipn i (body d) with
          | [] => ([], d)
          | heading_el :: rest =>
              (heading_el :: until_next_heading d rest,
               set_body d (firstn i (body d) ++ from_next_heading d rest))
          end
      end
  end.




(** [safe_title] of [generate_service_description]:
    [[c for c in title if c.isalnum() or c in (' ', '-', '_')]], cut at 50. *)
Definition title_char (c : ascii) : bool :=
  isalnum c || Ascii.eqb c " " || Ascii.eqb c "-" || Ascii.eqb c "_".

Definition safe_title (title : pystr) : pystr :=
  firstn 50 (filter title_char title).

(** The name of a document saved without folder metadata:
    [f"{safe_title}_{doc_id}"] and the extension; [doc_id] is
    [str(uuid.uuid4())[:8]]. *)
Definition generated_filename (title doc_id : pystr) : pystr :=
  safe_title title ++ str "_" ++ doc_id ++ str ".docx".

(** [word_filename] of [generate_service_description]. *)
Definition word_filename (doc_type gcloud_version actual_folder_name : pystr)
           (save_as_draft : bool) : pystr :=
  let word_filename :=
    if PyStr.eqb doc_type (str "SERVICE DESC")
    then str "PA GC" ++ gcloud_version ++ str " SERVICE DESC "
         ++ actual_folder_name ++ str ".docx"
    else str "PA GC" ++ gcloud_version ++ str " Pricing Doc "
         ++ actual_folder_name ++ str ".docx" in
  if save_as_draft
  then replace (str ".docx") (str "_draft.docx") word_filename
  else word_filename.

(** [s.rstrip('/')] *)
Definition rstrip_slash (s : pystr) : pystr :=
  rev ((fix drop (r : pystr) : pystr :=
          match r with
          | [] => []
          | c :: r' => if Ascii.eqb c "/" then drop r' else r
          end) (rev s)).

(** The folder name read back from an Azure blob prefix: the last part of
    [folder_path.rstrip('/').split('/')] that is not empty, else the
    default. *)
Definition azure_folder_name (default folder_path : pystr) : pystr :=
  match find (fun part => negb (PyStr.eqb part []))
             (rev (split "/" (rstrip_slash folder_path))) with
  | Some part => part
  | None => default
  end.

(** The blob prefix that is built when no folder path is given. *)
Definition azure_folder_path (gcloud_version lot service_name : pystr) : pystr :=
  str "GCloud " ++ gcloud_version
  ++ str "/PA Services/Cloud Support Services LOT " ++ lot
  ++ str "/" ++ service_name ++ str "/".

(** The blob key of a new proposal: the service name is used as it is. *)
Definition azure_blob_key (gcloud_version lot service_name word_filename : pystr)
  : pystr :=
  str "GCloud " ++ gcloud_version
  ++ str "/PA Services/Cloud Support Services LOT " ++ lot
  ++ str "/" ++ service_name ++ str "/" ++ word_filename.

(** [pdf_blob_key = blob_key.replace('.docx', '.pdf')] *)
Definition pdf_blob_key (blob_key : pystr) : pystr :=
  replace (str ".docx") (str ".pdf") blob_key.

End Generator.

(* ------------------------------------------------------------------ *)
(** ** Fields *)

Module Settings.

(** A child of the settings element: tag, attributes, content. *)
Record setting := mk_setting {
  s_tag : pystr;
  s_attrs : list (pystr * pystr);
  s_children : list element }.

Definition is_update_fields (el : setting) : bool :=
  PyStr.eqb (s_tag el) (str "w:updateFields").

(** The element that is appended. *)
Definition update_fields : setting :=
  mk_setting (str "w:updateFields") [(str "w:val", str "true")] [].

(** [_enable_update_fields_on_open], on the children of the settings
    element. *)
Definition _enable_update_fields_on_open (settings : list setting)
  : list setting :=
  filter (fun el => negb (is_update_fields el)) settings ++ [update_fields].

End Settings.

Module Marker.

(** [local-name()] of a qualified tag. *)
Definition local_name (tag : pystr) : pystr := last (split ":" tag) [].

(** An element that [.//*[local-name()='t']] selects. *)
Definition is_text_element (t : pystr) : bool :=
  PyStr.eqb (local_name t) (str "t").

(** [getattr(t, 'text', None) and marker in t.text] *)
Definition holds_marker (marker : pystr) (text : option pystr) : bool :=
  match text with
  | Some (c :: s) => contains marker (c :: s)
  | _ => false
  end.

(** The tags at which the first climb stops. *)
Definition anchor (t : pystr) : bool :=
  PyStr.eqb t (str "w:p") || PyStr.eqb t (str "w:tbl")
  || PyStr.eqb t (str "w:sdt").

(** The first text element at or below [e], in document order, that holds
    the marker: [e] with the marker taken out of that text, and whether
    the climb from the text element meets a paragraph, a table or a
    content control at or below [e]. *)
Fixpoint take_marker (marker : pystr) (e : element) : option (element * bool) :=
  match e with
  | Element t text children =>
      if is_text_element t && holds_marker marker text
      then Some (Element t (option_map (replace marker []) text) children,
                 anchor t)
      else
        match (fix first (cs : list element) : option (list element * bool) :=
                 match cs with
                 | [] => None
                 | c :: cs' =>
                     match take_marker marker c with
                     | Some (c', a) => Some (c' :: cs', a)
                     | None =>
                         match first cs' with
                         | Some (cs'', a) => Some (c :: cs'', a)
                         | None => None
                         end
                     end
                 end) children with
        | Some (children', a) => Some (Element t text children', a || anchor t)
        | None => None
        end
  end.

(** The children of the body in front of the first one that holds the
    marker, that child without the marker followed by its later siblings,
    and whether the climb found where to stop. *)
Fixpoint split_at_marker (marker : pystr) (children : list element)
  : option (list element * list element * bool) :=
  match children with
  | [] => None
  | c :: rest =>
      match take_marker marker c with
      | Some (c', a) => Some ([], c' :: rest, a)
      | None =>
          match split_at_marker marker rest with
          | Some (pre, tail, a) => Some (c :: pre, tail, a)
          | None => None
          end
      end
  end.

(** [_extract_block_by_marker], on the children of the body of a document
    whose text all lies in the body: the detached elements and the
    children the body keeps.  When the climb finds no paragraph, table or
    content control, the marker is gone from the text and nothing is
    detached. *)
Definition _extract_block_by_marker (children : list element) (marker : pystr)
  : list element * list element :=
  match split_at_marker marker children with
  | None => ([], children)
  | Some (pre, tail, true) => (tail, pre)
  | Some (pre, tail, false) => ([], pre ++ tail)
  end.

End Marker.

(* ================================================================== *)
(** * app/api/routes/templates.py: the validators of the request *)
(* ================================================================== *)

Module Request.

(** [validate_title]; [None] is the [ValueError]. *)
Definition validate_title (v : pystr) : option pystr :=
  if 10 <? List.length (words v) then None else Some (strip v).

(** The regex class [\d]. *)
Definition is_digit (c : ascii) : bool := in_range 48 57 c.

(** [len(re.findall(r'\b\w+\b', s))]: the number of maximal runs of word
    characters.  [in_word] tells that the previous character was one. *)
Fixpoint count_words_from (in_word : bool) (s : pystr) : nat :=
  match s with
  | [] => 0
  | c :: s' =>
      if is_word c
      then (if in_word then 0 else 1) + count_words_from true s'
      else count_words_from false s'
  end.

Definition word_count (s : pystr) : nat := count_words_from false s.

Fixpoint drop_digits (s : pystr) : pystr :=
  match s with
  | [] => []
  | c :: s' => if is_digit c then drop_digits s' else s
  end.

(** [re.sub(r'^\s*\d+\.?\s*', '', s)]: whitespace, digits, one dot and
    whitespace go from the front when there is a digit behind the leading
    whitespace; else the pattern does not match and [s] stays. *)
Definition strip_number_prefix (s : pystr) : pystr :=
  match lstrip s with
  | [] => s
  | c :: rest =>
      if is_digit c
      then lstrip (match drop_digits rest with
                   | "."%char :: r => r
                   | r => r
                   end)
      else s
  end.

(** [validate_list_items], applied to each feature and each benefit. *)
Definition validate_list_items (v : pystr) : option pystr :=
  let stripped := strip_number_prefix (strip v) in
  let word_count := word_count stripped in
  if 10 <? word_count then None
  else if word_count <? 1 then None
  else Some (strip v).

End Request.

(* ------------------------------------------------------------------ *)
(** ** Statements about the blob key *)

(** The characters a normalised folder name is made of: word characters
    and the hyphen. *)
Definition folder_char (c : ascii) : bool := is_word c || Ascii.eqb c "-".

(** The key without the service folder level. *)
Definition key_without_folder
           (service_name doc_type gcloud_version lot extension : pystr)
           (draft : bool) : pystr :=
  str "GCloud " ++ gcloud_version
  ++ str "/PA Services/Cloud Support Services LOT " ++ lot
  ++ str "/" ++ blob_filename service_name doc_type gcloud_version extension draft.

(** A path segment in normal form: not empty, not the dot, free of
    separators. *)
Definition normal_segment (seg : pystr) : Prop :=
  seg <> [] /\ seg <> [dot] /\ slash_free seg.

(* ------------------------------------------------------------------ *)
(** ** Statements about the names the generator builds *)

(** The file name in front of its extension. *)
Definition filename_stem (doc_type gcloud_version folder_name : pystr) : pystr :=
  str "PA GC" ++ gcloud_version
  ++ (if PyStr.eqb doc_type (str "SERVICE DESC")
      then str " SERVICE DESC " else str " Pricing Doc ")
  ++ folder_name.

(* ------------------------------------------------------------------ *)
(** ** Statements about sections of the body *)

(** The paragraphs among some blocks, as [doc.paragraphs] lists them. *)
Definition block_paragraphs (bs : list block) : list paragraph :=
  flat_map (fun b => match b with BPara p => [p] | _ => [] end) bs.

(** A paragraph whose style name begins with [Heading]. *)
Definition heading_block (d : document) (b : block) : bool :=
  match b with BPara p => is_heading d p | _ => false end.

(** The content of a section: no heading paragraph in it. *)
Definition heading_free (d : document) (sec : list block) : Prop :=
  forallb (fun b => negb (heading_block d b)) sec = true.

(** What stands behind a section: nothing, or a heading paragraph first. *)
Definition at_heading (d : document) (rest : list block) : Prop :=
  match rest with
  | [] => True
  | b :: _ => heading_block d b = true
  end.

(** The body read at paragraph number [idx]: the blocks [pre] in front of
    it, the paragraph [h] itself, the section [sec] it opens and the
    [rest] from the next heading on. *)
Definition section_at (d : document) (idx : nat) (pre : list block)
           (h : paragraph) (sec rest : list block) : Prop :=
  body d = pre ++ BPara h :: sec ++ rest
  /\ List.length (block_paragraphs pre) = idx
  /\ heading_free d sec
  /\ at_heading d rest.

(** [l] is [l'] with some elements left out, the order kept. *)
Inductive subsequence {A : Type} : list A -> list A -> Prop :=
| sub_nil : subsequence [] []
| sub_keep (x : A) (l l' : list A) :
    subsequence l l' -> subsequence (x :: l) (x :: l')
| sub_drop (x : A) (l l' : list A) :
    subsequence l l' -> subsequence l (x :: l').

(** A template with two sections, the first holding a table. *)
Definition sectioned_template : document :=
  mk_doc (str "Normal")
         [ BPara (mk_para (Some (str "Title")) [plain_run (str "Proposal")] None);
           BPara (mk_para (Some (str "Heading 1")) [plain_run (str "Overview")] None);
           BPara (mk_para None [plain_run (str "Some words")] None);
           BTable [[str "a"; str "b"]];
           BPara (mk_para (Some (str "Heading 2")) [plain_run (str "About PA")] None);
           BPara (mk_para None [plain_run (str "Who we are")] None) ].

(* ------------------------------------------------------------------ *)
(** ** Statements about inserted lists *)



(* ------------------------------------------------------------------ *)
(** ** Statements about rendered HTML *)

Section Rendered.

Variable load_image : pystr -> image_result.

(** The paragraphs that one element at the top of the soup leaves in the
    body: the paragraph of the element and, for each image below it, a
    paragraph more. *)
Definition rendered_group (el : node) : list block :=
  match el with
  | NavigableString s => [BPara (add_run (plain_run s) (new_paragraph [] None))]
  | Comment s => [BPara (add_run (plain_run s) (new_paragraph [] None))]
  | Tag name _ children =>
      let ip := inline_paragraphs load_image children (element_style name) in
      map BPara (fst ip) ++ [BPara (snd ip)]
  end.

End Rendered.

(** An element that [_insert_html] renders as a paragraph of its own: a
    string that is not blank, or a tag other than [ul], [ol] and [br]. *)
Definition paragraph_element (el : node) : Prop :=
  match el with
  | NavigableString s => strip s <> []
  | Comment s => strip s <> []
  | Tag name _ _ => paragraph_level name
  end.

(* ------------------------------------------------------------------ *)
(** ** Statements about the sections that are rebuilt *)

(** The sections [generate_service_description] removes before it builds
    them again. *)
Definition rebuilt_sections : list pystr :=
  [ str "Short Service Description"; str "Key Service Features";
    str "Key Service Benefits"; str "Service Definition" ].

(** No run of the document holds one of the markers. *)
Definition marker_less (d : document) (markers : list pystr) : Prop :=
  forall p r ph,
    In p (paragraphs d) -> In r (p_runs p) -> In ph markers ->
    contains ph (run_text r) = false.

(* ------------------------------------------------------------------ *)
(** ** Statements about the marker of the closing section *)

(** Some text element at or below [e] holds the marker. *)
Fixpoint marked (marker : pystr) (e : element) : bool :=
  match e with
  | Element t text children =>
      (Marker.is_text_element t && Marker.holds_marker marker text)
      || existsb (marked marker) children
  end.

(** The search of [take_marker] among the children of an element. *)
Fixpoint take_first (marker : pystr) (cs : list element)
  : option (list element * bool) :=
  match cs with
  | [] => None
  | c :: cs' =>
      match Marker.take_marker marker c with
      | Some (c', a) => Some (c' :: cs', a)
      | None =>
          match take_first marker cs' with
          | Some (cs'', a) => Some (c :: cs'', a)
          | None => None
          end
      end
  end.

(** An element with the text of its text elements taken out. *)
Fixpoint without_t (e : element) : element :=
  match e with
  | Element t text children =>
      Element t (if Marker.is_text_element t then None else text)
              (map without_t children)
  end.

(** The children of a body: a heading, the marked opening paragraph of the
    closing section, a table and the section properties. *)
Definition marked_body : list element :=
  [ Element (str "w:p") None
      [Element (str "w:r") None
         [Element (str "w:t") (Some (str "Overview")) []]];
    Element (str "w:p") None
      [Element (str "w:r") None
         [Element (str "w:t") (Some (str "{{ABOUT_PA_START}}About PA")) []]];
    Element (str "w:tbl") None [];
    Element (str "w:sectPr") None [] ].
(* ================================================================== *)
(** * Facts about strings *)
(* ================================================================== *)

Module PyStrFacts.

Lemma eqb_eq (a b : pystr) : PyStr.eqb a b = true <-> a = b.
Proof.
  revert b; induction a as [|x a IH]; intros [|y b]; simpl;
    try (split; [discriminate | discriminate]); try tauto.
  rewrite andb_true_iff, Ascii.eqb_eq, IH.
  split; [intros [-> ->]; reflexivity | intros H; inversion H; auto].
Qed.

Lemma eqb_refl (a : pystr) : PyStr.eqb a a = true.
Proof. apply eqb_eq; reflexivity. Qed.

Lemma eqb_neq (a b : pystr) : PyStr.eqb a b = false <-> a <> b.
Proof.
  split.
  - intros H E. apply eqb_eq in E. congruence.
  - intros H. destruct (PyStr.eqb a b) eqn:E; [apply eqb_eq in E; contradiction | reflexivity].
Qed.

Lemma startswith_iff (p s : pystr) :
  startswith p s = true <-> exists t, s = p ++ t.
Proof.
  revert s; induction p as [|x p IH]; intros s; simpl.
  - split; [intros _; exists s; reflexivity | reflexivity].
  - destruct s as [|y s].
    + split; [discriminate | intros [t H]; discriminate].
    + rewrite andb_true_iff, Ascii.eqb_eq, IH. split.
      * intros [-> [t ->]]. exists t; reflexivity.
      * intros [t H]. inversion H; subst. split; [reflexivity | exists t; reflexivity].
Qed.

Lemma startswith_app (p t : pystr) : startswith p (p ++ t) = true.
Proof. apply startswith_iff. exists t; reflexivity. Qed.

Lemma contains_unfold (old s : pystr) :
  contains old s =
  startswith old s || match s with [] => false | _ :: s' => contains old s' end.
Proof. destruct s; reflexivity. Qed.

(** [old in s] is the exact, case-sensitive occurrence of [old] in [s]. *)
Lemma contains_iff (old s : pystr) :
  contains old s = true <-> exists a b, s = a ++ old ++ b.
Proof.
  split.
  - induction s as [|c s IH]; rewrite contains_unfold, orb_true_iff.
    + intros [H|H]; [|discriminate].
      apply startswith_iff in H. destruct H as [t ->]. exists [], t; reflexivity.
    + intros [H|H].
      * apply startswith_iff in H. destruct H as [t ->]. exists [], t; reflexivity.
      * destruct (IH H) as (a & b & ->). exists (c :: a), b; reflexivity.
  - intros (a & b & ->). induction a as [|c a IH].
    + rewrite contains_unfold. simpl app. rewrite startswith_app. reflexivity.
    + rewrite contains_unfold. simpl. rewrite IH. apply orb_true_r.
Qed.

Lemma contains_self (s : pystr) : contains s s = true.
Proof. apply contains_iff. exists [], []. rewrite app_nil_r. reflexivity. Qed.

Lemma contains_app_r (old a b : pystr) :
  contains old b = true -> contains old (a ++ b) = true.
Proof.
  rewrite !contains_iff. intros (x & y & ->).
  exists (a ++ x), y. rewrite app_assoc. reflexivity.
Qed.

Lemma contains_false_app (old a b : pystr) :
  contains old (a ++ old ++ b) = false -> False.
Proof.
  intros H. assert (contains old (a ++ old ++ b) = true)
    by (apply contains_iff; exists a, b; reflexivity). congruence.
Qed.

End PyStrFacts.

Import PyStrFacts.

Module ReplaceFacts.

Lemma replace_from_skip (old new : pystr) (t : pystr) (k : nat) :
  List.length t <= k -> replace_from old new k t = [].
Proof.
  revert k. induction t as [|c t IH]; intros k H; [reflexivity|].
  simpl in H. destruct k as [|k]; [lia|]. simpl. apply IH. lia.
Qed.

(** A prefix that does not hold [c] ends in front of the first [c]. *)
Lemma startswith_before (c : ascii) (p s t : pystr) :
  ~ In c p -> startswith p (s ++ c :: t) = true -> startswith p s = true.
Proof.
  revert p. induction s as [|a s IH]; intros p Hp H.
  - destruct p as [|x p]; [reflexivity|]. simpl in H.
    apply andb_true_iff in H. destruct H as [H _].
    apply Ascii.eqb_eq in H. subst x. exfalso. apply Hp. left; reflexivity.
  - destruct p as [|x p]; [reflexivity|]. simpl in H |- *.
    apply andb_true_iff in H. destruct H as [-> H]. simpl.
    apply IH; [|assumption]. intros Hin. apply Hp. right; assumption.
Qed.

(** [old] at the end of a text that holds it nowhere else is the one
    occurrence that [replace] rewrites, when the first character of
    [old] does not come back in it. *)
Lemma replace_tail (c : ascii) (t new s : pystr) :
  ~ In c t -> contains (c :: t) s = false ->
  replace (c :: t) new (s ++ c :: t) = s ++ new.
Proof.
  intros Hc. unfold replace. induction s as [|a s IH]; intros Hs.
  - pose proof (startswith_app (c :: t) []) as Hself.
    rewrite app_nil_r in Hself.
    cbn [app replace_from]. rewrite Hself.
    rewrite replace_from_skip; [apply app_nil_r | simpl; lia].
  - rewrite contains_unfold in Hs. apply orb_false_iff in Hs.
    destruct Hs as [Hhere Hrest].
    change ((a :: s) ++ c :: t) with (a :: (s ++ c :: t)).
    cbn [replace_from].
    destruct (startswith (c :: t) (a :: s ++ c :: t)) eqn:E.
    + exfalso. simpl in E, Hhere. apply andb_true_iff in E. destruct E as [E1 E2].
      rewrite E1 in Hhere. simpl in Hhere.
      rewrite (startswith_before c t s t Hc E2) in Hhere. discriminate.
    + cbn [app]. f_equal. apply IH. assumption.
Qed.

Lemma contains_without (c : ascii) (t s : pystr) :
  ~ In c s -> contains (c :: t) s = false.
Proof.
  induction s as [|a s IH]; intros H; [reflexivity|].
  rewrite contains_unfold. apply orb_false_iff. split.
  - simpl. destruct (Ascii.eqb c a) eqn:E; [|reflexivity].
    apply Ascii.eqb_eq in E. subst a. exfalso. apply H. left; reflexivity.
  - apply IH. intros Hin. apply H. right; assumption.
Qed.

End ReplaceFacts.

Import ReplaceFacts.

(* ================================================================== *)
(** * Locating a heading *)
(* ================================================================== *)

Section Locate.

Variable A : Type.
Variable f : A -> bool.

Lemma find_from_shift (i : nat) (l : list A) :
  find_from f (S i) l = option_map S (find_from f i l).
Proof.
  revert i; induction l as [|x l IH]; intros i; simpl; [reflexivity|].
  destruct (f x); [reflexivity | apply IH].
Qed.

Lemma find_from_first_match (l : list A) : first_match f l (find_from f 0 l).
Proof.
  induction l as [|x l IH]; simpl.
  - intros x [].
  - destruct (f x) eqn:Fx.
    + split.
      * exists x. split; [reflexivity | assumption].
      * intros j y Hj. lia.
    + rewrite find_from_shift. destruct (find_from f 0 l) as [i|]; simpl in *.
      * destruct IH as [[y [Hy Fy]] Hlt]. split.
        -- exists y. split; assumption.
        -- intros [|j] z Hj Hz; simpl in Hz.
           ++ inversion Hz; subst; assumption.
           ++ apply (Hlt j); [lia | assumption].
      * intros y [<-|Hy]; [assumption | apply IH; assumption].
Qed.

End Locate.

Lemma is_heading_iff (d : document) (p : paragraph) :
  is_heading d p = true <-> heading_styled d p.
Proof. unfold is_heading, heading_styled. apply startswith_iff. Qed.

Lemma locates_of_first_match (d : document) (g : paragraph -> bool)
      (accepts : paragraph -> Prop) (r : option nat) :
  (forall p, g p = true <-> accepts p) ->
  first_match g (paragraphs d) r -> locates d accepts r.
Proof.
  intros Hg. destruct r as [i|]; simpl.
  - intros [[p [Hp Gp]] Hlt]. split.
    + exists p. split; [assumption | apply Hg; assumption].
    + intros j q Hj Hq Hacc. apply Hg in Hacc.
      rewrite (Hlt j q Hj Hq) in Hacc. discriminate.
  - intros Hnone p Hp Hacc. apply Hg in Hacc.
    rewrite (Hnone p Hp) in Hacc. discriminate.
Qed.

(** C7, as stated, fails for the locate operation of block extraction:
    [_find_heading_element] returns a paragraph whose text does not contain
    the heading text case-sensitively. *)
Lemma heading_element_ignores_case :
  ~ locates shouting_doc (matches_exactly shouting_doc (str "About PA"))
            (_find_heading_element shouting_doc (str "About PA")).
Proof.
  change (_find_heading_element shouting_doc (str "About PA")) with (Some 0).
  intros [[p [Hp [_ Hocc]]] _].
  simpl in Hp. inversion Hp; subst p; clear Hp.
  assert (C : contains (str "About PA") (str "ABOUT PA") = true)
    by (apply contains_iff; exact Hocc).
  vm_compute in C. discriminate.
Qed.

(** C7 (amended): [_find_heading_index], used by section removal, returns
    the index of the first paragraph whose style name begins with [Heading]
    and whose text contains [heading_text] case-sensitively, and [None]
    when there is none; [_find_heading_element], used by block extraction,
    does the same for the match that ignores case (both texts lower-cased). *)
Theorem heading_locate_spec (d : document) (heading_text : pystr) :
  locates d (matches_exactly d heading_text) (_find_heading_index d heading_text)
  /\ locates d (matches_ignoring_case d heading_text)
             (_find_heading_element d heading_text).
Proof.
  split.
  - apply locates_of_first_match
      with (g := fun p => is_heading d p && contains heading_text (para_text p)).
    + intros p. rewrite andb_true_iff, is_heading_iff, contains_iff. reflexivity.
    + apply find_from_first_match.
  - apply locates_of_first_match
      with (g := fun p => is_heading d p
                          && contains (lower heading_text) (lower (para_text p))).
    + intros p. rewrite andb_true_iff, is_heading_iff, contains_iff. reflexivity.
    + apply find_from_first_match.
Qed.

(* ================================================================== *)
(** * Placeholder substitution *)
(* ================================================================== *)

Section ElementInduction.

Variable P : element -> Prop.
Hypothesis step : forall tag text children,
    Forall P children -> P (Element tag text children).

Lemma element_ind' (e : element) : P e.
Proof.
  revert e. fix IH 1. intros [tag text children]. apply step.
  revert children. fix IHchildren 1. intros [|c children].
  - constructor.
  - constructor; [apply IH | apply IHchildren].
Qed.

End ElementInduction.

Lemma apply_mapping_marker_free (mapping : list (pystr * pystr)) (text : pystr) :
  marker_free mapping text -> apply_mapping mapping text = text.
Proof.
  unfold apply_mapping, marker_free.
  induction mapping as [|kv mapping IH]; intros H; simpl; [reflexivity|].
  rewrite (H kv (or_introl eq_refl)).
  apply IH. intros kv' Hin. apply H. right; assumption.
Qed.

(** ** Where a marker can be after a replacement *)

Module SubstitutionFacts.

Lemma replace_from_skipn (old new : pystr) (s : pystr) (k : nat) :
  replace_from old new k s = replace_from old new 0 (skipn k s).
Proof.
  revert k. induction s as [|c s IH]; intros [|k]; try reflexivity.
  cbn [replace_from skipn]. apply IH.
Qed.

Lemma contains_skipn (x s : pystr) (k : nat) :
  contains x (skipn k s) = true -> contains x s = true.
Proof.
  intros H. rewrite <- (firstn_skipn k s). apply contains_app_r. exact H.
Qed.

Lemma meets_sym (a b : pystr) : meets a b = meets b a.
Proof. apply orb_comm. Qed.

(** A text that begins [t ++ x] begins [t] or is begun by it. *)
Lemma startswith_app_meets (t q x : pystr) :
  startswith q (t ++ x) = true -> meets q t = true.
Proof.
  unfold meets. revert q. induction t as [|c t IH]; intros q H.
  - apply orb_true_r.
  - destruct q as [|a q]; [reflexivity|].
    cbn [app startswith] in H |- *.
    apply andb_true_iff in H. destruct H as [Hc H].
    apply Ascii.eqb_eq in Hc. subst c. rewrite Ascii.eqb_refl. cbn [andb].
    apply IH. exact H.
Qed.

(** An occurrence in [a ++ b] begins in [a] or lies in [b]. *)
Lemma contains_app_cases (x a b : pystr) :
  contains x (a ++ b) = true ->
  (exists t, In t (suffixes a) /\ startswith x (t ++ b) = true)
  \/ contains x b = true.
Proof.
  induction a as [|c a IH]; intros H; [right; exact H|].
  cbn [app] in H. rewrite contains_unfold in H.
  apply orb_true_iff in H. destruct H as [H|H].
  - left. exists (c :: a). split; [left; reflexivity | exact H].
  - destruct (IH H) as [(t & Ht & Hs)|Hb].
    + left. exists t. split; [right; exact Ht | exact Hs].
    + right. exact Hb.
Qed.

Lemma contains_nil (x : pystr) : x <> [] -> contains x [] = false.
Proof. destruct x; [contradiction | reflexivity]. Qed.

Section Replaced.

(** The marker that is replaced, and what replaces it. *)
Variables m T : pystr.

(** When no end of [q] meets [T], the replaced text begins with [q] only
    if the text did: the replacement cannot complete [q]. *)
Lemma startswith_replaced (q : pystr) :
  forallb (fun q' => negb (meets q' T)) (suffixes q) = true ->
  forall s, startswith q (replace_from m T 0 s) = true ->
            startswith q s = true.
Proof.
  induction q as [|a q IH]; intros Hq s H; [reflexivity|].
  cbn [suffixes forallb] in Hq. apply andb_true_iff in Hq.
  destruct Hq as [Hhere Hrest]. apply negb_true_iff in Hhere.
  destruct s as [|c s]; [discriminate H|].
  cbn [replace_from] in H. destruct (startswith m (c :: s)) eqn:Em.
  - apply startswith_app_meets in H. congruence.
  - cbn [startswith] in H |- *. apply andb_true_iff in H.
    destruct H as [-> H]. cbn [andb]. apply IH; assumption.
Qed.

(** A marker found after the replacement was there before, and is not the
    marker that was replaced. *)
Lemma contains_replaced (m' : pystr) :
  m' <> [] -> clear_of m' T = true ->
  forall s, contains m' (replace_from m T 0 s) = true ->
            contains m' s = true /\ m' <> m.
Proof.
  intros Hne Hclear. unfold clear_of in Hclear.
  apply andb_true_iff in Hclear. destruct Hclear as [Hleft Hright].
  intros s. remember (List.length s) as n eqn:Hn.
  assert (Hlen : List.length s <= n) by lia. clear Hn.
  revert s Hlen. induction n as [|n IH]; intros s Hlen H.
  - destruct s; [|simpl in Hlen; lia]. cbn [replace_from] in H.
    rewrite (contains_nil m' Hne) in H. discriminate H.
  - destruct s as [|c s].
    { cbn [replace_from] in H. rewrite (contains_nil m' Hne) in H.
      discriminate H. }
    cbn [List.length] in Hlen. cbn [replace_from] in H.
    destruct (startswith m (c :: s)) eqn:Em.
    + rewrite replace_from_skipn in H.
      apply contains_app_cases in H. destruct H as [(t & Ht & Hs)|H].
      * exfalso. apply startswith_app_meets in Hs.
        rewrite meets_sym in Hs.
        pose proof (proj1 (forallb_forall _ _) Hright t Ht) as Hno.
        cbv beta in Hno. rewrite Hs in Hno. discriminate Hno.
      * destruct (IH (skipn (List.length m - 1) s)) as [Hin Hm]; [|exact H|].
        { rewrite length_skipn. lia. }
        split; [|exact Hm]. rewrite contains_unfold. apply orb_true_iff. right.
        apply (contains_skipn m' s _ Hin).
    + rewrite contains_unfold in H. apply orb_true_iff in H.
      destruct H as [H|H].
      * assert (Hs : startswith m' (c :: s) = true).
        { destruct m' as [|a q]; [reflexivity|].
          cbn [suffixes forallb] in Hleft. apply andb_true_iff in Hleft.
          destruct Hleft as [_ Hleft].
          cbn [startswith] in H |- *. apply andb_true_iff in H.
          destruct H as [-> H]. cbn [andb].
          apply (startswith_replaced q Hleft s H). }
        split.
        -- rewrite contains_unfold, Hs. reflexivity.
        -- intros ->. congruence.
      * destruct (IH s) as [Hin Hm]; [lia | exact H |].
        split; [|exact Hm]. rewrite contains_unfold, Hin. apply orb_true_r.
Qed.

End Replaced.

(** One turn of the loop over the mapping. *)
Lemma apply_mapping_cons (old new : pystr) (mapping : list (pystr * pystr))
      (text : pystr) :
  apply_mapping ((old, new) :: mapping) text
  = apply_mapping mapping (if contains old text
                           then replace old new text else text).
Proof. reflexivity. Qed.

(** After the loop no marker is left, when none can overlap the text that
    replaces them.  [done] are the markers of the turns already made. *)
Lemma apply_mapping_clears (T : pystr) (markers done : list pystr)
      (text : pystr) :
  (forall m, In m (done ++ markers) -> m <> [] /\ clear_of m T = true) ->
  (forall m, In m done -> contains m text = false) ->
  forall m, In m (done ++ markers) ->
    contains m (apply_mapping (map (fun m => (m, T)) markers) text) = false.
Proof.
  revert done text. induction markers as [|m0 markers IH];
    intros done text Hall Hdone m Hm.
  - rewrite app_nil_r in Hm. apply Hdone, Hm.
  - cbn [map]. rewrite apply_mapping_cons.
    assert (Hassoc : (done ++ [m0]) ++ markers = done ++ m0 :: markers)
      by (rewrite <- app_assoc; reflexivity).
    destruct (Hall m0) as [Hne0 _]; [apply in_or_app; right; left; reflexivity|].
    assert (Hrep : replace m0 T text = replace_from m0 T 0 text)
      by (destruct m0; [contradiction | reflexivity]).
    apply (IH (done ++ [m0])).
    + rewrite Hassoc. exact Hall.
    + intros m1 Hm1. destruct (Hall m1) as [Hne1 Hc1].
      { apply in_app_or in Hm1. apply in_or_app.
        destruct Hm1 as [Hm1|[<-|[]]]; [left; exact Hm1 | right; left; reflexivity]. }
      destruct (contains m0 text) eqn:E0.
      * destruct (contains m1 (replace m0 T text)) eqn:E1; [|reflexivity].
        rewrite Hrep in E1.
        destruct (contains_replaced m0 T m1 Hne1 Hc1 text E1) as [Hin Hneq].
        apply in_app_or in Hm1. destruct Hm1 as [Hm1|[<-|[]]].
        -- rewrite (Hdone m1 Hm1) in Hin. discriminate Hin.
        -- contradiction.
      * apply in_app_or in Hm1. destruct Hm1 as [Hm1|[<-|[]]];
          [apply Hdone, Hm1 | exact E0].
    + rewrite Hassoc. exact Hm.
Qed.

Lemma inert_markers (title : pystr) :
  inert title = true ->
  forall m, In m service_name_markers -> m <> [] /\ clear_of m title = true.
Proof.
  intros H m Hm. split.
  - unfold service_name_markers in Hm. cbn in Hm.
    repeat (destruct Hm as [<-|Hm]; [discriminate|]). destruct Hm.
  - exact (proj1 (forallb_forall _ _) H m Hm).
Qed.

(** With an inert title the substituted text holds no marker. *)
Lemma substituted_marker_free (title text : pystr) :
  inert title = true ->
  marker_free (service_name_mapping title)
              (apply_mapping (service_name_mapping title) text).
Proof.
  intros H kv Hkv.
  change (service_name_mapping title)
    with (map (fun m => (m, title)) service_name_markers) in *.
  apply in_map_iff in Hkv. destruct Hkv as (m & <- & Hm). cbn [fst].
  apply (apply_mapping_clears title service_name_markers [] text).
  - cbn [app]. apply inert_markers, H.
  - intros m' [].
  - exact Hm.
Qed.

Section PackagePass.

Variable decode : list Byte.byte -> option pystr.
Variable encode : pystr -> list Byte.byte.
Hypothesis decode_encode : forall text, decode (encode text) = Some text.

Lemma patch_part_twice (mapping : list (pystr * pystr))
      (item : pystr * list Byte.byte) :
  (forall text, apply_mapping mapping (apply_mapping mapping text)
                = apply_mapping mapping text) ->
  patch_part decode encode mapping (patch_part decode encode mapping item)
  = patch_part decode encode mapping item.
Proof.
  intros Hidem. destruct item as [filename data]. unfold patch_part.
  destruct (startswith (str "word/") filename && endswith (str ".xml") filename)
    eqn:Hname.
  - destruct (decode data) as [text|] eqn:Hdec.
    + rewrite Hname, decode_encode, Hidem. reflexivity.
    + rewrite Hname, Hdec. reflexivity.
  - rewrite Hname. reflexivity.
Qed.

End PackagePass.

End SubstitutionFacts.

Import SubstitutionFacts.

(** The tree-level pass leaves the marker where it is. *)
Example tree_pass_leaves_marker :
  _replace_text_in_all_wt (one_text_tree (str "Add Title"))
                          (service_name_mapping (str "Cloud Backup"))
  = one_text_tree (str "Add Title").
Proof. reflexivity. Qed.

(** C3, as stated, fails: with the title [My Add Title], which contains the
    marker [Add Title], a second application of the package-level pass
    substitutes again. *)
Lemma substitution_not_idempotent :
  let mapping := service_name_mapping (str "My Add Title") in
  _replace_in_saved_docx bytes_decode bytes_encode
    (_replace_in_saved_docx bytes_decode bytes_encode
       (one_part_package (str "<w:t>Add Title</w:t>")) mapping) mapping
  <> _replace_in_saved_docx bytes_decode bytes_encode
       (one_part_package (str "<w:t>Add Title</w:t>")) mapping.
Proof.
  intros mapping H. vm_compute in H. discriminate.
Qed.

(** A title that holds no marker can complete one: with the title
    [Title], the text [Add Add Title] becomes [Add Title] and then
    [Title]. *)
Example marker_completed_by_title :
  let mapping := service_name_mapping (str "Title") in
  apply_mapping mapping (str "Add Add Title") = str "Add Title"
  /\ apply_mapping mapping (apply_mapping mapping (str "Add Add Title"))
     = str "Title".
Proof. split; vm_compute; reflexivity. Qed.

(** So can the text around it: the title [Cloud Storage] ends in the
    letter that begins a marker. *)
Example marker_completed_by_text :
  let mapping := service_name_mapping (str "Cloud Storage") in
  apply_mapping mapping (str "{{SERVICE_NAME}}nter service name here")
  = str "Cloud Storagenter service name here"
  /\ apply_mapping mapping
       (apply_mapping mapping (str "{{SERVICE_NAME}}nter service name here"))
     = str "Cloud StoragCloud Storage".
Proof. split; vm_compute; reflexivity. Qed.

(** C3 (amended): the tree-level pass leaves every tree as it is, whatever
    the mapping, so applying it twice yields the same tree as applying it
    once.  The package-level pass is idempotent on every package when the
    title is inert, that is when no occurrence of a marker can share a
    character with an occurrence of the title: applying
    [_replace_in_saved_docx] twice then yields the same package content as
    applying it once. *)
Theorem substitution_idempotent_for_inert_title
        (decode : list Byte.byte -> option pystr)
        (encode : pystr -> list Byte.byte)
        (decode_encode : forall text, decode (encode text) = Some text)
        (title : pystr) (root : element)
        (package : list (pystr * list Byte.byte)) :
  (forall mapping, _replace_text_in_all_wt root mapping = root)
  /\ _replace_text_in_all_wt
       (_replace_text_in_all_wt root (service_name_mapping title))
       (service_name_mapping title)
     = _replace_text_in_all_wt root (service_name_mapping title)
  /\ (inert title = true ->
      _replace_in_saved_docx decode encode
        (_replace_in_saved_docx decode encode package
                                (service_name_mapping title))
        (service_name_mapping title)
      = _replace_in_saved_docx decode encode package
                               (service_name_mapping title)).
Proof.
  split; [reflexivity|]. split; [reflexivity|].
  intros Hinert. unfold _replace_in_saved_docx.
  rewrite map_map. apply map_ext. intros item.
  apply (patch_part_twice decode encode decode_encode).
  intros text. apply apply_mapping_marker_free.
  apply substituted_marker_free, Hinert.
Qed.

Lemma bytes_decode_encode (text : pystr) :
  bytes_decode (bytes_encode text) = Some text.
Proof.
  unfold bytes_decode, bytes_encode. f_equal.
  rewrite map_map. rewrite <- (map_id text) at 2.
  apply map_ext. intros c. apply ascii_of_byte_of_ascii.
Qed.

Lemma substitution_idempotent_witness :
  let mapping := service_name_mapping (str "Cloud Backup") in
  let package := one_part_package (str "<w:t>Add Title</w:t>") in
  _replace_in_saved_docx bytes_decode bytes_encode
    (_replace_in_saved_docx bytes_decode bytes_encode package mapping) mapping
  = _replace_in_saved_docx bytes_decode bytes_encode package mapping.
Proof.
  intros mapping package.
  apply (substitution_idempotent_for_inert_title
           bytes_decode bytes_encode bytes_decode_encode (str "Cloud Backup")
           (one_text_tree (str "Add Title")) package).
  reflexivity.
Defined.

(* ================================================================== *)
(** * Stripping *)
(* ================================================================== *)

Module StripFacts.

Lemma lstrip_length (s : pystr) : List.length (lstrip s) <= List.length s.
Proof.
  induction s as [|c s IH]; simpl; [lia|].
  destruct (isspace c); simpl; lia.
Qed.

(** A string that [lstrip] leaves alone is empty or starts with a
    character that is not whitespace. *)
Lemma lstrip_fixed_head (s : pystr) :
  lstrip s = s -> s = [] \/ exists c r, s = c :: r /\ isspace c = false.
Proof.
  destruct s as [|c r]; [left; reflexivity|]. simpl.
  destruct (isspace c) eqn:E; intros H.
  - pose proof (lstrip_length r) as L. rewrite H in L. simpl in L. lia.
  - right. exists c, r. split; [reflexivity | assumption].
Qed.

Lemma lstrip_head (c : ascii) (r : pystr) :
  isspace c = false -> lstrip (c :: r) = c :: r.
Proof. intros H. simpl. rewrite H. reflexivity. Qed.

Lemma lstrip_idem (s : pystr) : lstrip (lstrip s) = lstrip s.
Proof.
  induction s as [|c s IH]; simpl; [reflexivity|].
  destruct (isspace c) eqn:E; [assumption|]. simpl. rewrite E. reflexivity.
Qed.

Lemma lstrip_app_nonspace (a b : pystr) (c : ascii) :
  isspace c = false -> lstrip (a ++ c :: b) = lstrip a ++ c :: b.
Proof.
  intros H. induction a as [|x a IH]; simpl.
  - rewrite H. reflexivity.
  - destruct (isspace x); [assumption | reflexivity].
Qed.

Lemma rstrip_idem (s : pystr) : rstrip (rstrip s) = rstrip s.
Proof. unfold rstrip. rewrite rev_involutive, lstrip_idem. reflexivity. Qed.

Lemma lstrip_rstrip_fixed (u : pystr) :
  lstrip u = u -> lstrip (rstrip u) = rstrip u.
Proof.
  intros H. destruct (lstrip_fixed_head u H) as [->|(c & r & -> & Hc)];
    [reflexivity|].
  unfold rstrip. simpl rev. rewrite lstrip_app_nonspace by assumption.
  rewrite rev_app_distr. simpl. rewrite Hc. reflexivity.
Qed.

Lemma lstrip_strip (s : pystr) : lstrip (strip s) = strip s.
Proof. unfold strip. apply lstrip_rstrip_fixed, lstrip_idem. Qed.

Lemma rstrip_strip (s : pystr) : rstrip (strip s) = strip s.
Proof. unfold strip. apply rstrip_idem. Qed.

Lemma strip_idem (s : pystr) : strip (strip s) = strip s.
Proof.
  unfold strip at 1. rewrite lstrip_strip. apply rstrip_strip.
Qed.

(** Text put after a string without leading whitespace is not touched by
    [lstrip]. *)
Lemma lstrip_app_fixed (a b : pystr) :
  a <> [] -> lstrip a = a -> lstrip (a ++ b) = a ++ b.
Proof.
  intros Ha H. destruct (lstrip_fixed_head a H) as [->|(c & r & -> & Hc)];
    [contradiction|].
  simpl. rewrite Hc. reflexivity.
Qed.

(** Text put before a string without trailing whitespace is not touched by
    [rstrip]. *)
Lemma rstrip_app_fixed (a b : pystr) :
  b <> [] -> rstrip b = b -> rstrip (a ++ b) = a ++ b.
Proof.
  intros Hb H. unfold rstrip in *. rewrite rev_app_distr.
  assert (Hr : lstrip (rev b) = rev b)
    by (rewrite <- (rev_involutive (lstrip (rev b))), H; reflexivity).
  rewrite lstrip_app_fixed; [rewrite <- rev_app_distr; apply rev_involutive | | assumption].
  intros E. apply Hb. rewrite <- (rev_involutive b), E. reflexivity.
Qed.

Lemma strip_app_fixed (a b : pystr) :
  a <> [] -> lstrip a = a -> b <> [] -> rstrip b = b ->
  strip (a ++ b) = a ++ b.
Proof.
  intros Ha Hl Hb Hr. unfold strip.
  rewrite lstrip_app_fixed by assumption. apply rstrip_app_fixed; assumption.
Qed.

End StripFacts.

Import StripFacts.

(* ================================================================== *)
(** * Text written to a run and read back *)
(* ================================================================== *)

Module TextFacts.

Lemma as_read_app (a b : pystr) : as_read (a ++ b) = as_read a ++ as_read b.
Proof. apply map_app. Qed.

Lemma as_read_fixed (t : pystr) :
  ~ In carriage_return t -> as_read t = t.
Proof.
  induction t as [|c t IH]; intros H; [reflexivity|].
  cbn [as_read map]. fold (as_read t).
  rewrite IH by (intros Hin; apply H; right; assumption).
  destruct (Ascii.eqb c carriage_return) eqn:E; [|reflexivity].
  apply Ascii.eqb_eq in E. exfalso. apply H. left. assumption.
Qed.



Lemma item_text_flush (bfr : pystr) : flat_map item_text (flush bfr) = rev bfr.
Proof.
  destruct bfr as [|c bfr]; [reflexivity|].
  unfold flush. cbn [flat_map item_text]. apply app_nil_r.
Qed.

(** What was written reads back with every carriage return turned into a
    newline. *)
Lemma append_from_text (t bfr : pystr) :
  flat_map item_text (append_from bfr t) = rev bfr ++ as_read t.
Proof.
  revert bfr. induction t as [|c t IH]; intros bfr; cbn [append_from as_read map].
  - rewrite app_nil_r. apply item_text_flush.
  - fold (as_read t).
    destruct (Ascii.eqb c tab) eqn:Et.
    { apply Ascii.eqb_eq in Et. subst c.
      rewrite flat_map_app, item_text_flush. cbn [flat_map item_text].
      rewrite IH. reflexivity. }
    destruct (Ascii.eqb c carriage_return) eqn:Ec; cbn [orb].
    { rewrite flat_map_app, item_text_flush. cbn [flat_map item_text].
      rewrite IH. reflexivity. }
    destruct (Ascii.eqb c newline) eqn:En.
    { apply Ascii.eqb_eq in En. subst c.
      rewrite flat_map_app, item_text_flush. cbn [flat_map item_text].
      rewrite IH. reflexivity. }
    rewrite IH. cbn [rev]. rewrite <- app_assoc. reflexivity.
Qed.

Lemma text_items_text (t : pystr) :
  flat_map item_text (text_items t) = as_read t.
Proof. apply (append_from_text t []). Qed.


(** A carriage return and a newline are written alike. *)
Lemma append_from_as_read (t bfr : pystr) :
  append_from bfr (as_read t) = append_from bfr t.
Proof.
  revert bfr. induction t as [|c t IH]; intros bfr; [reflexivity|].
  cbn [as_read map]. fold (as_read t).
  destruct (Ascii.eqb c carriage_return) eqn:Ec.
  - apply Ascii.eqb_eq in Ec. subst c. cbn. rewrite IH. reflexivity.
  - cbn [append_from]. rewrite Ec, !IH. reflexivity.
Qed.

Lemma text_items_as_read (t : pystr) : text_items (as_read t) = text_items t.
Proof. apply append_from_as_read. Qed.

Lemma isspace_as_read (c : ascii) :
  isspace (if Ascii.eqb c carriage_return then newline else c) = isspace c.
Proof.
  destruct (Ascii.eqb c carriage_return) eqn:E; [|reflexivity].
  apply Ascii.eqb_eq in E. subst c. reflexivity.
Qed.

Lemma lstrip_as_read (t : pystr) : lstrip (as_read t) = as_read (lstrip t).
Proof.
  induction t as [|c t IH]; [reflexivity|].
  cbn [as_read map lstrip]. fold (as_read t).
  rewrite isspace_as_read. destruct (isspace c); [exact IH | reflexivity].
Qed.

Lemma as_read_rev (t : pystr) : as_read (rev t) = rev (as_read t).
Proof. apply map_rev. Qed.

Lemma rstrip_as_read (t : pystr) : rstrip (as_read t) = as_read (rstrip t).
Proof.
  unfold rstrip. rewrite <- as_read_rev, lstrip_as_read, as_read_rev.
  reflexivity.
Qed.

Lemma strip_as_read (t : pystr) : strip (as_read t) = as_read (strip t).
Proof. unfold strip. rewrite lstrip_as_read, rstrip_as_read. reflexivity. Qed.

(** A text without carriage return that occurs in [t] occurs in [t] as
    read back. *)
Lemma contains_as_read (s t : pystr) :
  ~ In carriage_return s -> contains s t = true ->
  contains s (as_read t) = true.
Proof.
  intros Hs H. apply contains_iff in H. destruct H as (a & b & ->).
  apply contains_iff. exists (as_read a), (as_read b).
  rewrite !as_read_app, (as_read_fixed s Hs). reflexivity.
Qed.





End TextFacts.

Import TextFacts.

(* ================================================================== *)
(** * The pricing title *)
(* ================================================================== *)

Module PricingFacts.

Import Pricing.

Lemma para_text_titled (text : pystr) (p : paragraph) :
  para_text (titled text p) = as_read text.
Proof.
  unfold para_text, titled, run_text. cbn [p_runs flat_map r_items].
  rewrite app_nil_r. apply text_items_text.
Qed.

Lemma titled_as_read (text : pystr) (p : paragraph) :
  titled (as_read text) p = titled text p.
Proof. unfold titled. rewrite text_items_as_read. reflexivity. Qed.

Lemma titled_titled (t u : pystr) (p : paragraph) :
  titled t (titled u p) = titled t p.
Proof. reflexivity. Qed.

Lemma style_name_set_body (d : document) (bs : list block) (p : paragraph) :
  style_name (set_body d bs) p = style_name d p.
Proof. reflexivity. Qed.

Lemma is_h1_retitle (d : document) (sn : pystr) (p : paragraph) :
  is_h1 d (retitle sn p) = is_h1 d p.
Proof. unfold retitle. destruct (negb _); reflexivity. Qed.

(** Where the first [Heading 1] paragraph sits. *)
Lemma first_h1_split (d : document) (bs : list block) (p : paragraph) :
  find (is_h1 d) (flat_map (fun b => match b with BPara q => [q] | _ => [] end) bs)
  = Some p ->
  exists pre post,
    bs = pre ++ BPara p :: post
    /\ is_h1 d p = true
    /\ forall q, In (BPara q) pre -> is_h1 d q = false.
Proof.
  induction bs as [|b bs IH]; simpl; [discriminate|].
  destruct b as [q|cells|tag]; simpl.
  - destruct (is_h1 d q) eqn:E.
    + intros H; inversion H; subst. exists [], bs. repeat split; auto.
      intros q' [].
    + intros H. destruct (IH H) as (pre & post & -> & Hp & Hpre).
      exists (BPara q :: pre), post. repeat split; auto.
      intros q' [Hq|Hq]; [inversion Hq; subst; assumption | auto].
  - intros H. destruct (IH H) as (pre & post & -> & Hp & Hpre).
    exists (BTable cells :: pre), post. repeat split; auto.
    intros q' [Hq|Hq]; [discriminate | auto].
  - intros H. destruct (IH H) as (pre & post & -> & Hp & Hpre).
    exists (BOther tag :: pre), post. repeat split; auto.
    intros q' [Hq|Hq]; [discriminate | auto].
Qed.

Lemma retitle_first_split (d : document) (sn : pystr) (pre post : list block)
      (p : paragraph) :
  is_h1 d p = true ->
  (forall q, In (BPara q) pre -> is_h1 d q = false) ->
  retitle_first d sn (pre ++ BPara p :: post)
  = Some (pre ++ BPara (retitle sn p) :: post).
Proof.
  intros Hp. induction pre as [|b pre IH]; intros Hpre;
    cbn [app Pricing.retitle_first].
  - unfold is_h1 in Hp. rewrite Hp. reflexivity.
  - assert (Hrest : forall q, In (BPara q) pre -> is_h1 d q = false)
      by (intros q Hq; apply Hpre; right; assumption).
    destruct b as [q|cells|tag]; rewrite (IH Hrest); cbn [option_map];
      try reflexivity.
    assert (Hq : is_h1 d q = false) by (apply Hpre; left; reflexivity).
    unfold is_h1 in Hq. rewrite Hq. reflexivity.
Qed.

Lemma paragraphs_split (d : document) (pre post : list block) (p : paragraph) :
  is_h1 d p = true ->
  (forall q, In (BPara q) pre -> is_h1 d q = false) ->
  find (is_h1 d)
       (flat_map (fun b => match b with BPara q => [q] | _ => [] end)
                 (pre ++ BPara p :: post))
  = Some p.
Proof.
  intros Hp. induction pre as [|b pre IH]; intros Hpre; simpl.
  - rewrite Hp. reflexivity.
  - assert (Hrest : forall q, In (BPara q) pre -> is_h1 d q = false)
      by (intros q Hq; apply Hpre; right; assumption).
    destruct b as [q|cells|tag]; simpl; try (apply IH; assumption).
    rewrite (Hpre q (or_introl eq_refl)). apply IH; assumption.
Qed.

(** Retitling a retitled paragraph changes nothing when the heading was
    not blank and the service name has no trailing whitespace and no
    carriage return. *)
Lemma retitle_twice (sn : pystr) (p : paragraph) :
  strip (para_text p) <> [] -> rstrip sn = sn -> ~ In carriage_return sn ->
  retitle sn (retitle sn p) = retitle sn p.
Proof.
  intros Hcur Hsn Hcr.
  assert (again : forall t, strip t = t -> contains sn t = true ->
                            retitle sn (titled t p) = titled t p).
  { intros t Ht Hin. unfold retitle.
    rewrite para_text_titled, strip_as_read, Ht,
            (contains_as_read sn t Hcr Hin).
    cbn [negb]. rewrite titled_titled. apply titled_as_read. }
  unfold retitle at 2 3.
  destruct (contains sn (strip (para_text p))) eqn:Hin; cbn [negb].
  - apply again; [apply strip_idem | assumption].
  - assert (Hne : sn <> []).
    { intros ->. destruct (strip (para_text p)); simpl in Hin; discriminate. }
    apply again.
    + apply strip_app_fixed.
      * assumption.
      * apply lstrip_strip.
      * destruct sn; [contradiction | discriminate].
      * apply (rstrip_app_fixed (str " - ") sn); assumption.
    + apply contains_iff. exists (strip (para_text p) ++ str " - "), [].
      rewrite app_nil_r, <- app_assoc. reflexivity.
Qed.

Lemma replace_title_split (d : document) (sn : pystr) (pre post : list block)
      (p : paragraph) :
  body d = pre ++ BPara p :: post ->
  is_h1 d p = true ->
  (forall q, In (BPara q) pre -> is_h1 d q = false) ->
  _replace_title d sn = set_body d (pre ++ BPara (retitle sn p) :: post).
Proof.
  intros Hb Hp Hpre. unfold _replace_title.
  rewrite Hb, (retitle_first_split d sn pre post p Hp Hpre). reflexivity.
Qed.

End PricingFacts.

Import PricingFacts.

(** C10, as stated, fails: with the service name [Cloud Backup ], which ends
    in a space, the second application appends the suffix again. *)
Lemma pricing_title_appended_twice :
  let d := pricing_doc (str "PRICING DOCUMENT") in
  let sn := str "Cloud Backup " in
  Pricing.heading1_text (Pricing._replace_title d sn)
  = Some (str "PRICING DOCUMENT - Cloud Backup ")
  /\ Pricing.heading1_text
       (Pricing._replace_title (Pricing._replace_title d sn) sn)
     = Some (str "PRICING DOCUMENT - Cloud Backup - Cloud Backup ")
  /\ Pricing.heading1_text
       (Pricing._replace_title (Pricing._replace_title d sn) sn)
     <> Pricing.heading1_text (Pricing._replace_title d sn).
Proof.
  cbv zeta. split; [vm_compute; reflexivity|].
  split; [vm_compute; reflexivity|].
  intros H. vm_compute in H. discriminate.
Qed.

(** The same failure comes from a heading that is blank: the first
    application writes [ - Cloud Backup], the second one strips the
    leading space. *)
Example pricing_title_of_blank_heading :
  let d := pricing_doc (str " ") in
  let sn := str "Cloud Backup" in
  Pricing.heading1_text (Pricing._replace_title d sn)
  = Some (str " - Cloud Backup")
  /\ Pricing.heading1_text
       (Pricing._replace_title (Pricing._replace_title d sn) sn)
     = Some (str "- Cloud Backup").
Proof. cbv zeta. split; vm_compute; reflexivity. Qed.

(** And from a service name that holds a carriage return, which is
    written as a line break and read back as a newline: the name is not
    found in the heading it was appended to. *)
Example pricing_title_with_carriage_return :
  let d := pricing_doc (str "PRICING DOCUMENT") in
  let sn := str "A" ++ [carriage_return] ++ str "B" in
  let shown := str "A" ++ [newline] ++ str "B" in
  Pricing.heading1_text (Pricing._replace_title d sn)
  = Some (str "PRICING DOCUMENT - " ++ shown)
  /\ Pricing.heading1_text
       (Pricing._replace_title (Pricing._replace_title d sn) sn)
     = Some (str "PRICING DOCUMENT - " ++ shown ++ str " - " ++ shown).
Proof. cbv zeta. split; vm_compute; reflexivity. Qed.

(** C10 (amended): for every document whose first [Heading 1] paragraph has
    a text that is not blank, and every service name that does not end in
    whitespace and holds no carriage return, applying [_replace_title]
    twice yields the same document, hence the same [Heading 1] text, as
    applying it once. *)
Theorem pricing_title_idempotent (d : document) (service_name heading : pystr) :
  Pricing.heading1_text d = Some heading ->
  strip heading <> [] ->
  rstrip service_name = service_name ->
  ~ In carriage_return service_name ->
  Pricing._replace_title (Pricing._replace_title d service_name) service_name
  = Pricing._replace_title d service_name
  /\ Pricing.heading1_text
       (Pricing._replace_title (Pricing._replace_title d service_name)
                               service_name)
     = Pricing.heading1_text (Pricing._replace_title d service_name).
Proof.
  intros Hh Hblank Hsn Hcr.
  assert (E : Pricing._replace_title
                (Pricing._replace_title d service_name) service_name
              = Pricing._replace_title d service_name).
  { unfold Pricing.heading1_text, paragraphs in Hh.
    destruct (find _ _) as [p|] eqn:Hfind; [|discriminate].
    simpl in Hh. inversion Hh; subst heading; clear Hh.
    destruct (first_h1_split d (body d) p Hfind) as (pre & post & Hb & Hp & Hpre).
    rewrite (replace_title_split d service_name pre post p Hb Hp Hpre).
    rewrite (replace_title_split
               (set_body d (pre ++ BPara (Pricing.retitle service_name p) :: post))
               service_name pre post (Pricing.retitle service_name p) eq_refl).
    - rewrite retitle_twice by assumption. reflexivity.
    - change (is_h1 d (Pricing.retitle service_name p) = true).
      rewrite is_h1_retitle. assumption.
    - exact Hpre. }
  split; [exact E | rewrite E; reflexivity].
Qed.

Lemma pricing_title_idempotent_witness :
  let d := pricing_doc (str "PRICING DOCUMENT") in
  let sn := str "Cloud Backup" in
  Pricing._replace_title (Pricing._replace_title d sn) sn
  = Pricing._replace_title d sn
  /\ Pricing.heading1_text (Pricing._replace_title (Pricing._replace_title d sn) sn)
     = Pricing.heading1_text (Pricing._replace_title d sn).
Proof.
  apply (pricing_title_idempotent (pricing_doc (str "PRICING DOCUMENT"))
                                  (str "Cloud Backup") (str "PRICING DOCUMENT")).
  - reflexivity.
  - vm_compute. discriminate.
  - reflexivity.
  - vm_compute. intros H. repeat (destruct H as [H|H]; [discriminate H|]).
    exact H.
Defined.

(* ================================================================== *)
(** * Splitting and joining *)
(* ================================================================== *)

Module SplitFacts.

Lemma split_nonempty (sep : ascii) (s : pystr) :
  exists h t, split sep s = h :: t.
Proof.
  induction s as [|c s IH]; simpl; [eauto|].
  destruct (Ascii.eqb c sep); [eauto|].
  destruct IH as (h & t & ->). eauto.
Qed.

(** Splitting a concatenation: the last piece of the left part and the
    first piece of the right part are glued together. *)
Lemma split_app (sep : ascii) (x y : pystr) :
  split sep (x ++ y)
  = removelast (split sep x)
    ++ (last (split sep x) [] ++ hd [] (split sep y)) :: tl (split sep y).
Proof.
  induction x as [|c x IH]; simpl.
  - destruct (split_nonempty sep y) as (h & t & ->). reflexivity.
  - destruct (Ascii.eqb c sep).
    + rewrite IH. destruct (split_nonempty sep x) as (h & t & ->). reflexivity.
    + rewrite IH. destruct (split_nonempty sep x) as (h & t & ->).
      destruct t as [|h' t]; reflexivity.
Qed.

Lemma split_free (sep : ascii) (w : pystr) :
  ~ In sep w -> split sep w = [w].
Proof.
  induction w as [|c w IH]; intros H; simpl; [reflexivity|].
  destruct (Ascii.eqb c sep) eqn:E.
  - apply Ascii.eqb_eq in E. subst. exfalso. apply H. left; reflexivity.
  - rewrite IH; [reflexivity|]. intros Hin. apply H. right; assumption.
Qed.

Lemma split_sep_cons (sep : ascii) (y : pystr) :
  split sep (sep :: y) = [] :: split sep y.
Proof. simpl. rewrite Ascii.eqb_refl. reflexivity. Qed.

(** Splitting at a separator that is there. *)
Lemma split_app_sep (sep : ascii) (x y : pystr) :
  split sep (x ++ sep :: y) = split sep x ++ split sep y.
Proof.
  rewrite split_app, split_sep_cons. simpl hd. simpl tl. rewrite app_nil_r.
  destruct (split_nonempty sep x) as (h & t & E). rewrite E.
  change (last (h :: t) [] :: split sep y)
    with ([last (h :: t) []] ++ split sep y).
  rewrite app_assoc, <- app_removelast_last by discriminate. reflexivity.
Qed.

(** The pieces of [x ++ w ++ y] around a [w] that holds no separator. *)
Lemma split_around (sep : ascii) (x w y : pystr) :
  ~ In sep w ->
  split sep (x ++ w ++ y)
  = removelast (split sep x)
    ++ (last (split sep x) [] ++ w ++ hd [] (split sep y)) :: tl (split sep y).
Proof.
  intros Hw. rewrite split_app. f_equal.
  rewrite (split_app sep w y), (split_free sep w Hw). reflexivity.
Qed.

Lemma in_split_piece (sep c : ascii) (s : pystr) :
  In c s -> c <> sep -> exists piece, In piece (split sep s) /\ In c piece.
Proof.
  induction s as [|x s IH]; intros Hin Hc; [contradiction|]. simpl.
  destruct (Ascii.eqb x sep) eqn:E.
  - apply Ascii.eqb_eq in E. subst x. destruct Hin as [->|Hin]; [contradiction|].
    destruct (IH Hin Hc) as (p & Hp & Hcp). exists p. split; [right|]; assumption.
  - destruct (split_nonempty sep s) as (h & t & Es). rewrite Es.
    destruct Hin as [->|Hin].
    + exists (c :: h). split; left; reflexivity.
    + destruct (IH Hin Hc) as (p & Hp & Hcp). rewrite Es in Hp.
      destruct Hp as [<-|Hp].
      * exists (x :: h). split; [left; reflexivity | right; assumption].
      * exists p. split; [right|]; assumption.
Qed.

Lemma last_split_snoc (sep c : ascii) (x : pystr) :
  c <> sep -> last (split sep (x ++ [c])) [] = last (split sep x) [] ++ [c].
Proof.
  intros Hc. rewrite split_app. simpl split.
  destruct (Ascii.eqb c sep) eqn:E; [apply Ascii.eqb_eq in E; contradiction|].
  simpl hd. simpl tl. apply last_last.
Qed.

Lemma join_cons (sep m : pystr) (ys : list pystr) :
  join sep (m :: ys) = m ++ join_right sep ys.
Proof.
  revert m; induction ys as [|y ys IH]; intros m.
  - simpl. rewrite app_nil_r. reflexivity.
  - change (join sep (m :: y :: ys)) with (m ++ sep ++ join sep (y :: ys)).
    rewrite IH. simpl. rewrite <- app_assoc. reflexivity.
Qed.

Lemma join_around (sep m : pystr) (xs ys : list pystr) :
  join sep (xs ++ m :: ys) = join_left sep xs ++ m ++ join_right sep ys.
Proof.
  induction xs as [|x xs IH].
  - apply join_cons.
  - cbn [app]. rewrite join_cons.
    assert (E : join_right sep (xs ++ m :: ys) = sep ++ join sep (xs ++ m :: ys)).
    { destruct xs as [|x' xs']; cbn [app]; rewrite join_cons;
        unfold join_right; cbn [flat_map]; rewrite <- ?app_assoc; reflexivity. }
    rewrite E, IH. unfold join_left. cbn [flat_map].
    rewrite <- !app_assoc. reflexivity.
Qed.

Lemma in_join (sep : pystr) (parts : list pystr) (p : pystr) (c : ascii) :
  In p parts -> In c p -> In c (join sep parts).
Proof.
  intros Hp Hc. apply List.in_split in Hp. destruct Hp as (xs & ys & ->).
  rewrite join_around. apply in_or_app. right. apply in_or_app. left; assumption.
Qed.

Lemma in_join_inv (sep : pystr) (parts : list pystr) (c : ascii) :
  In c (join sep parts) -> In c sep \/ exists p, In p parts /\ In c p.
Proof.
  induction parts as [|p parts IH]; [intros []|].
  rewrite join_cons. intros H. apply in_app_or in H. destruct H as [H|H].
  - right. exists p. split; [left; reflexivity | assumption].
  - unfold join_right in H. apply in_flat_map in H. destruct H as (y & Hy & H).
    apply in_app_or in H. destruct H as [H|H]; [left; assumption|].
    right. exists y. split; [right|]; assumption.
Qed.

End SplitFacts.

Import SplitFacts.

(* ================================================================== *)
(** * Paths *)
(* ================================================================== *)

Module PathFacts.

Lemma keeps_false (x : pystr) : keeps x = false -> x = [] \/ x = [dot].
Proof.
  unfold keeps. rewrite andb_false_iff, !negb_false_iff, !eqb_eq. tauto.
Qed.

Lemma keeps_long (x : pystr) : 2 <= List.length x -> keeps x = true.
Proof.
  intros H. destruct (keeps x) eqn:E; [reflexivity|].
  destruct (keeps_false x E) as [->| ->]; simpl in H; lia.
Qed.

Lemma keeps_with (c : ascii) (x : pystr) :
  In c x -> c <> dot -> keeps x = true.
Proof.
  intros Hin Hc. destruct (keeps x) eqn:E; [reflexivity|].
  destruct (keeps_false x E) as [->| ->]; [contradiction|].
  destruct Hin as [<-|[]]. contradiction.
Qed.

Lemma kept_nonempty (rel x : pystr) : In x (components rel) -> x <> [].
Proof.
  unfold components. rewrite filter_In. intros [_ H] ->. discriminate.
Qed.

Lemma components_nil : components [] = [].
Proof. reflexivity. Qed.

Lemma components_app_sep (x y : pystr) :
  components (x ++ slash :: y) = components x ++ components y.
Proof. unfold components. rewrite split_app_sep. apply filter_app. Qed.

Lemma components_free (w : pystr) :
  slash_free w -> keeps w = true -> components w = [w].
Proof.
  intros Hw Hk. unfold components. rewrite (split_free slash w Hw).
  simpl. rewrite Hk. reflexivity.
Qed.

(** The components of [x ++ w ++ y] around a [w] without separator. *)
Lemma components_around (x w y : pystr) :
  slash_free w ->
  components (x ++ w ++ y)
  = filter keeps (removelast (split slash x))
    ++ filter keeps [last (split slash x) [] ++ w ++ hd [] (split slash y)]
    ++ filter keeps (tl (split slash y)).
Proof.
  intros Hw. unfold components. rewrite (split_around slash x w y Hw).
  rewrite filter_app. f_equal.
  change ((last (split slash x) [] ++ w ++ hd [] (split slash y))
            :: tl (split slash y))
    with ([last (split slash x) [] ++ w ++ hd [] (split slash y)]
            ++ tl (split slash y)).
  apply filter_app.
Qed.

Lemma endswith_slash (p : pystr) :
  endswith [slash] p = true -> exists x, p = x ++ [slash].
Proof.
  unfold endswith. intros H. apply startswith_iff in H. destruct H as [t H].
  exists (rev t). rewrite <- (rev_involutive p), H. reflexivity.
Qed.

Lemma endswith_slash_snoc (x : pystr) (c : ascii) :
  endswith [slash] (x ++ [c]) = Ascii.eqb slash c.
Proof.
  unfold endswith. rewrite rev_app_distr. simpl. apply andb_true_r.
Qed.

Lemma relative_head (c : ascii) (r : pystr) :
  startswith [slash] (c :: r) = Ascii.eqb slash c.
Proof. simpl. apply andb_true_r. Qed.

Lemma components_join_step (path b : pystr) :
  startswith [slash] b = false ->
  components (join_step path b) = components path ++ components b.
Proof.
  intros Hb. unfold join_step. rewrite Hb.
  destruct (PyStr.eqb path []) eqn:E; simpl orb.
  - apply eqb_eq in E. subst. reflexivity.
  - destruct (endswith [slash] path) eqn:Es.
    + destruct (endswith_slash path Es) as [x ->].
      rewrite <- app_assoc. simpl app.
      rewrite !components_app_sep, components_nil, app_nil_r. reflexivity.
    + apply components_app_sep.
Qed.

Lemma join_step_head (c : ascii) (r b : pystr) :
  startswith [slash] b = false -> exists r', join_step (c :: r) b = c :: r'.
Proof.
  intros Hb. unfold join_step. rewrite Hb.
  destruct (PyStr.eqb (c :: r) [] || endswith [slash] (c :: r)); simpl; eauto.
Qed.

Lemma posixpath_join_relative (ps : list pystr) (c : ascii) (r : pystr) :
  Forall (fun b => startswith [slash] b = false) ps ->
  (exists r', posixpath_join (c :: r) ps = c :: r')
  /\ components (posixpath_join (c :: r) ps)
     = components (c :: r) ++ flat_map components ps.
Proof.
  unfold posixpath_join. intros H. revert r.
  induction H as [|b ps Hb Hps IH]; intros r; simpl.
  - split; [eauto | rewrite app_nil_r; reflexivity].
  - destruct (join_step_head c r b Hb) as [r' E].
    pose proof (components_join_step (c :: r) b Hb) as Hc.
    rewrite E in *. destruct (IH r') as [Hh Hcomp]. split; [exact Hh|].
    rewrite Hcomp, Hc, <- app_assoc. reflexivity.
Qed.

Lemma splitroot_relative (c : ascii) (r : pystr) :
  c <> slash -> splitroot (c :: r) = ([], c :: r).
Proof.
  intros Hc. unfold splitroot. simpl firstn.
  destruct (PyStr.eqb [c] [slash]) eqn:E; [|reflexivity].
  apply eqb_eq in E. inversion E. contradiction.
Qed.

(** The string of a path whose segments are all relative. *)
Lemma pure_posix_path_str_relative (c : ascii) (r : pystr) (ps : list pystr)
      (x : pystr) (xs : list pystr) :
  c <> slash ->
  Forall (fun b => startswith [slash] b = false) ps ->
  components (c :: r) = x :: xs ->
  pure_posix_path_str ((c :: r) :: ps)
  = join [slash] (components (c :: r) ++ flat_map components ps).
Proof.
  intros Hc Hps Hx. unfold pure_posix_path_str.
  destruct (posixpath_join_relative ps c r Hps) as [[r' Hh] Hcomp].
  rewrite Hh, (splitroot_relative c r' Hc). rewrite <- Hh, Hcomp. simpl app.
  rewrite Hx. simpl app. rewrite join_cons.
  assert (Hne : x <> []).
  { apply (kept_nonempty (c :: r)). rewrite Hx. left; reflexivity. }
  destruct x; [contradiction | reflexivity].
Qed.

End PathFacts.

Import PathFacts.

(* ================================================================== *)
(** * Blob keys *)
(* ================================================================== *)

Module KeyFacts.

Lemma in_replace_from (old new : pystr) (k : nat) (s : pystr) (c : ascii) :
  In c (replace_from old new k s) -> In c new \/ In c s.
Proof.
  revert k; induction s as [|x s IH]; intros k; simpl; [tauto|].
  destruct k as [|k].
  - destruct (startswith old (x :: s)).
    + intros H. apply in_app_or in H. destruct H as [H|H]; [tauto|].
      destruct (IH _ H); tauto.
    + intros [H|H]; [tauto|]. destruct (IH _ H); tauto.
  - intros H. destruct (IH _ H); tauto.
Qed.

Lemma in_re_sub_plus_from (cls : ascii -> bool) (repl : pystr) (b : bool)
      (s : pystr) (c : ascii) :
  In c (re_sub_plus_from cls repl b s) -> In c repl \/ In c s.
Proof.
  revert b; induction s as [|x s IH]; intros b; simpl; [tauto|].
  destruct (cls x).
  - destruct b.
    + intros H. destruct (IH _ H); tauto.
    + intros H. apply in_app_or in H. destruct H as [H|H]; [tauto|].
      destruct (IH _ H); tauto.
  - intros [H|H]; [tauto|]. destruct (IH _ H); tauto.
Qed.

Lemma in_lstrip (s : pystr) (c : ascii) : In c (lstrip s) -> In c s.
Proof.
  induction s as [|x s IH]; simpl; [tauto|].
  destruct (isspace x); [intros H; right; auto | tauto].
Qed.

Lemma in_strip (s : pystr) (c : ascii) : In c (strip s) -> In c s.
Proof.
  unfold strip, rstrip. intros H. apply in_rev, in_lstrip, in_rev in H.
  apply in_lstrip. assumption.
Qed.

Lemma re_sub_class_filter (cls : ascii -> bool) (s : pystr) :
  re_sub_class cls [] s = filter (fun c => negb (cls c)) s.
Proof.
  induction s as [|x s IH]; simpl; [reflexivity|].
  destruct (cls x); simpl; rewrite IH; reflexivity.
Qed.

(** The characters of a folder name: underscores, and characters of the
    service name that the class [[^\w\s\-]] does not match. *)
Lemma folder_chars (service_name : pystr) (c : ascii) :
  In c (_normalise_service_folder service_name) ->
  c = "_"%char \/ c = " "%char \/ (In c service_name /\ unsafe_char c = false).
Proof.
  unfold _normalise_service_folder, replace, re_sub_plus. simpl str.
  intros H. apply in_replace_from in H. destruct H as [[<-|[]]|H]; [tauto|].
  apply in_re_sub_plus_from in H. destruct H as [[<-|[]]|H]; [tauto|].
  apply in_strip in H. rewrite re_sub_class_filter in H.
  apply filter_In in H. destruct H as [H1 H2].
  right. right. split; [assumption|]. apply negb_true_iff. assumption.
Qed.

Lemma folder_rejects (service_name : pystr) (c : ascii) :
  unsafe_char c = true -> ~ In c (_normalise_service_folder service_name).
Proof.
  intros Hc H. apply folder_chars in H.
  destruct H as [->|[->|[_ H]]]; [discriminate Hc | discriminate Hc | congruence].
Qed.

Lemma folder_slash_free (service_name : pystr) :
  slash_free (_normalise_service_folder service_name).
Proof. apply folder_rejects. reflexivity. Qed.

Lemma slash_free_relative (s : pystr) :
  slash_free s -> startswith [slash] s = false.
Proof.
  destruct s as [|c r]; [reflexivity|]. intros H. rewrite relative_head.
  apply Ascii.eqb_neq. intros <-. apply H. left; reflexivity.
Qed.

(** The components of a segment that starts with a literal of two or more
    characters without separator. *)
Lemma components_literal (w y : pystr) :
  slash_free w -> 2 <= List.length w ->
  components (w ++ y)
  = (w ++ hd [] (split slash y)) :: filter keeps (tl (split slash y)).
Proof.
  intros Hw Hl. pose proof (components_around [] w y Hw) as H.
  simpl in H. rewrite H. rewrite keeps_long; [reflexivity|].
  rewrite length_app. lia.
Qed.

Lemma literal_slash_free (s : string) :
  forallb (fun c => negb (Ascii.eqb c slash)) (str s) = true -> slash_free (str s).
Proof.
  intros H Hin. rewrite forallb_forall in H. specialize (H _ Hin).
  rewrite Ascii.eqb_refl in H. discriminate.
Qed.

(** The key is the join of the components of its five segments. *)
Lemma key_as_join (service_name doc_type gcloud_version lot extension : pystr)
      (draft : bool) :
  build_service_blob_key service_name doc_type gcloud_version lot extension draft
  = join [slash]
         (folder_parts service_name gcloud_version lot
          ++ components (blob_filename service_name doc_type gcloud_version
                                       extension draft)).
Proof.
  unfold build_service_blob_key, folder_parts.
  assert (H1 : components (str "GCloud " ++ gcloud_version)
               = (str "GCloud " ++ hd [] (split slash gcloud_version))
                   :: filter keeps (tl (split slash gcloud_version))).
  { apply components_literal; [apply literal_slash_free; reflexivity | simpl; lia]. }
  change (str "GCloud " ++ gcloud_version)
    with ("G"%char :: str "Cloud " ++ gcloud_version) in *.
  erewrite pure_posix_path_str_relative; [ | | | exact H1].
  - cbn [flat_map]. rewrite app_nil_r, <- !app_assoc. reflexivity.
  - discriminate.
  - constructor; [reflexivity|].
    constructor; [reflexivity|].
    constructor; [apply slash_free_relative, folder_slash_free|].
    constructor; [|constructor].
    unfold blob_filename. destruct draft; reflexivity.
Qed.

End KeyFacts.

Import KeyFacts.

Module DraftFacts.

Lemma filename_final (sn dt v ext : pystr) :
  blob_filename sn dt v ext false
  = (str "PA GC" ++ v ++ str " " ++ dt ++ str " " ++ sn) ++ [dot] ++ ext.
Proof. reflexivity. Qed.

Lemma filename_draft (sn dt v ext : pystr) :
  blob_filename sn dt v ext true
  = (str "PA GC" ++ v ++ str " " ++ dt ++ str " " ++ sn)
      ++ (str "_draft" ++ [dot]) ++ ext.
Proof. unfold blob_filename. rewrite <- !app_assoc. reflexivity. Qed.

(** The last piece of the file name stem is not empty unless the service
    name ends with a separator. *)
Lemma stem_last_piece (x sn : pystr) :
  endswith [slash] sn = false ->
  last (split slash (x ++ str " " ++ sn)) [] <> [].
Proof.
  intros H. destruct sn as [|c sn] using rev_ind.
  - rewrite app_nil_r. change (str " ") with [" "%char].
    rewrite last_split_snoc by discriminate.
    intros E. apply app_eq_nil in E. destruct E; discriminate.
  - rewrite endswith_slash_snoc in H. apply Ascii.eqb_neq in H.
    rewrite !app_assoc, last_split_snoc by congruence.
    intros E. apply app_eq_nil in E. destruct E; discriminate.
Qed.

Lemma extension_first_piece (ext : pystr) :
  ext <> [] -> startswith [slash] ext = false -> hd [] (split slash ext) <> [].
Proof.
  destruct ext as [|c r]; [contradiction|]. intros _.
  rewrite relative_head. intros H. simpl.
  rewrite Ascii.eqb_sym, H.
  destruct (split_nonempty slash r) as (h & t & ->). discriminate.
Qed.

End DraftFacts.

Import DraftFacts.

(** C2, as stated, fails: for the service name [x/] and the empty
    extension, [PurePosixPath] drops the final [.] component of the
    non-draft key, so the two keys differ by more than the inserted
    [_draft]. *)
Lemma draft_key_differs_by_more :
  build_service_blob_key (str "x/") (str "SD") (str "15") (str "2") [] false
  = str "GCloud 15/PA Services/Cloud Support Services LOT 2/x/PA GC15 SD x"
  /\ build_service_blob_key (str "x/") (str "SD") (str "15") (str "2") [] true
     = str "GCloud 15/PA Services/Cloud Support Services LOT 2/x/PA GC15 SD x/_draft."
  /\ ~ differs_by_draft_suffix
         (build_service_blob_key (str "x/") (str "SD") (str "15") (str "2") [] false)
         (build_service_blob_key (str "x/") (str "SD") (str "15") (str "2") [] true).
Proof.
  split; [vm_compute; reflexivity|]. split; [vm_compute; reflexivity|].
  intros (pre & post & Hf & Hd).
  apply (f_equal (@List.length ascii)) in Hf.
  apply (f_equal (@List.length ascii)) in Hd.
  repeat rewrite length_app in Hf. repeat rewrite length_app in Hd.
  change (List.length (str ".")) with 1 in *.
  change (List.length (str "_draft")) with 6 in *.
  match type of Hf with ?l = _ =>
    let n := eval vm_compute in l in change l with n in Hf end.
  match type of Hd with ?l = _ =>
    let n := eval vm_compute in l in change l with n in Hd end.
  lia.
Qed.

(** C2 (amended): the key is a function of the six arguments, and whenever
    the service name does not end with [/], or the extension is neither
    empty nor starting with [/], the final key ends with the dot and the
    extension, and the draft key is the final key with [_draft] put
    before that dot and nothing else changed.  The extension is at the
    end of the key as it was given when it holds no [/]. *)
Theorem draft_key_differs_by_suffix
        (service_name doc_type gcloud_version lot extension : pystr) :
  endswith [slash] service_name = false
  \/ (extension <> [] /\ startswith [slash] extension = false) ->
  draft_before_extension
    extension
    (build_service_blob_key service_name doc_type gcloud_version lot extension false)
    (build_service_blob_key service_name doc_type gcloud_version lot extension true)
  /\ differs_by_draft_suffix
       (build_service_blob_key service_name doc_type gcloud_version lot extension false)
       (build_service_blob_key service_name doc_type gcloud_version lot extension true)
  /\ (slash_free extension -> extension_in_key extension = extension).
Proof.
  intros H.
  assert (G : draft_before_extension
                extension
                (build_service_blob_key service_name doc_type gcloud_version lot
                                        extension false)
                (build_service_blob_key service_name doc_type gcloud_version lot
                                        extension true)).
  { rewrite !key_as_join, filename_final, filename_draft.
    set (stem := str "PA GC" ++ gcloud_version ++ str " " ++ doc_type ++ str " "
                 ++ service_name).
    set (front := folder_parts service_name gcloud_version lot).
    assert (Hdot : slash_free [dot]) by (intros [E|[]]; discriminate).
    assert (Hdraft : slash_free (str "_draft" ++ [dot]))
      by (apply (literal_slash_free "_draft."); reflexivity).
    rewrite (components_around stem [dot] extension Hdot).
    rewrite (components_around stem (str "_draft" ++ [dot]) extension Hdraft).
    unfold draft_before_extension, extension_in_key.
    set (b := last (split slash stem) []).
    set (e := hd [] (split slash extension)).
    set (before := filter keeps (removelast (split slash stem))).
    set (after := filter keeps (tl (split slash extension))).
    assert (Kd : keeps (b ++ (str "_draft" ++ [dot]) ++ e) = true).
    { apply keeps_long. rewrite !length_app. simpl. lia. }
    assert (Kf : keeps (b ++ [dot] ++ e) = true).
    { apply keeps_long. rewrite !length_app. simpl.
      destruct H as [H|[H1 H2]].
      - assert (Hb : b <> []).
        { unfold b, stem.
          replace (str "PA GC" ++ gcloud_version ++ str " " ++ doc_type ++ str " "
                   ++ service_name)
            with ((str "PA GC" ++ gcloud_version ++ str " " ++ doc_type)
                    ++ str " " ++ service_name)
            by (rewrite <- !app_assoc; reflexivity).
          apply stem_last_piece. assumption. }
        destruct b; [contradiction | simpl; lia].
      - pose proof (extension_first_piece extension H1 H2) as He. fold e in He.
        destruct e; [contradiction | simpl; lia]. }
    cbn [filter]. rewrite Kd, Kf.
    assert (shape : forall m, front ++ before ++ [m] ++ after
                              = (front ++ before) ++ m :: after)
      by (intros m; rewrite <- app_assoc; reflexivity).
    rewrite !shape, !join_around.
    exists (join_left [slash] (front ++ before) ++ b).
    split; simpl str; rewrite <- !app_assoc; reflexivity. }
  split; [exact G|]. split.
  - destruct G as (pre & Hf & Hd).
    exists pre, (extension_in_key extension). split; assumption.
  - intros Hfree. unfold extension_in_key.
    rewrite (split_free slash extension Hfree). apply app_nil_r.
Qed.

Lemma draft_key_differs_by_suffix_witness :
  build_service_blob_key (str "Cloud Backup") (str "SERVICE DESC") (str "15")
                         (str "2") (str "docx") true
  = str "GCloud 15/PA Services/Cloud Support Services LOT 2/Cloud_Backup/PA GC15 SERVICE DESC Cloud Backup"
    ++ str "_draft" ++ str "." ++ str "docx"
  /\ draft_before_extension
       (str "docx")
       (build_service_blob_key (str "Cloud Backup") (str "SERVICE DESC") (str "15")
                               (str "2") (str "docx") false)
       (build_service_blob_key (str "Cloud Backup") (str "SERVICE DESC") (str "15")
                               (str "2") (str "docx") true).
Proof.
  split; [vm_compute; reflexivity|].
  apply (draft_key_differs_by_suffix (str "Cloud Backup") (str "SERVICE DESC")
                                     (str "15") (str "2") (str "docx")).
  left. reflexivity.
Defined.

Module SurvivalFacts.

Lemma filename_holds_name (sn dt v ext : pystr) (draft : bool) :
  occurs_in sn (blob_filename sn dt v ext draft).
Proof.
  unfold occurs_in, blob_filename.
  exists (str "PA GC" ++ v ++ str " " ++ dt ++ str " "),
         ((if draft then str "_draft" else []) ++ str "." ++ ext).
  destruct draft; rewrite <- !app_assoc; try reflexivity.
Qed.

Lemma key_has_separator (sn dt v lot ext : pystr) (draft : bool) :
  In slash (build_service_blob_key sn dt v lot ext draft).
Proof.
  rewrite key_as_join. unfold folder_parts.
  rewrite (components_literal (str "GCloud ") v)
    by (first [apply (literal_slash_free "GCloud "); reflexivity | simpl; lia]).
  change (components (str "PA Services")) with [str "PA Services"].
  rewrite <- !app_assoc. cbn [app].
  set (x := str "GCloud " ++ hd [] (split slash v)).
  set (xs := filter keeps (tl (split slash v))).
  change (x :: xs ++ str "PA Services" :: ?rest)
    with ((x :: xs) ++ str "PA Services" :: rest).
  rewrite join_around. apply in_or_app. left.
  unfold join_left. cbn [flat_map]. apply in_or_app. left.
  apply in_or_app. right. left. reflexivity.
Qed.

Lemma key_holds_filename_chars (sn dt v lot ext : pystr) (draft : bool)
      (c : ascii) :
  In c (blob_filename sn dt v ext draft) -> c <> slash -> c <> dot ->
  In c (build_service_blob_key sn dt v lot ext draft).
Proof.
  intros Hin Hs Hd. rewrite key_as_join.
  destruct (in_split_piece slash c _ Hin Hs) as (piece & Hp & Hc).
  apply in_join with (p := piece); [|assumption].
  apply in_or_app. right. unfold components. apply filter_In.
  split; [assumption | apply keeps_with with (c := c); assumption].
Qed.

Lemma key_holds_dot (sn dt v lot ext : pystr) (draft : bool) :
  draft = true \/ (ext <> [] /\ startswith [slash] ext = false) ->
  In dot (build_service_blob_key sn dt v lot ext draft).
Proof.
  intros H. rewrite key_as_join.
  assert (Hdot : slash_free [dot]) by (intros [E|[]]; discriminate).
  assert (Hdraft : slash_free (str "_draft" ++ [dot]))
    by (apply (literal_slash_free "_draft."); reflexivity).
  set (stem := str "PA GC" ++ v ++ str " " ++ dt ++ str " " ++ sn).
  assert (Hmid : exists w, In dot w
                   /\ keeps (last (split slash stem) [] ++ w
                             ++ hd [] (split slash ext)) = true
                   /\ slash_free w
                   /\ blob_filename sn dt v ext draft = stem ++ w ++ ext).
  { destruct draft.
    - exists (str "_draft" ++ [dot]). repeat split.
      + apply in_or_app. right. left. reflexivity.
      + apply keeps_long. rewrite !length_app. simpl. lia.
      + assumption.
      + apply filename_draft.
    - destruct H as [H|[H1 H2]]; [discriminate|].
      exists [dot]. repeat split.
      + left. reflexivity.
      + apply keeps_long. rewrite !length_app. simpl.
        pose proof (extension_first_piece ext H1 H2) as He.
        destruct (hd [] (split slash ext)); [contradiction | simpl; lia].
      + assumption. }
  destruct Hmid as (w & Hw & Hk & Hfree & ->).
  rewrite (components_around stem w ext Hfree). cbn [filter]. rewrite Hk.
  apply in_join with (p := last (split slash stem) [] ++ w ++ hd [] (split slash ext)).
  - apply in_or_app. right. apply in_or_app. right. left. reflexivity.
  - apply in_or_app. right. apply in_or_app. left. assumption.
Qed.

End SurvivalFacts.

Import SurvivalFacts.

(** C9, as stated, fails for the dot: in the service name [x/./] both [/]
    and [.] are stripped from the folder name, but with an empty extension
    [PurePosixPath] drops every [.] component and the key holds no dot. *)
Lemma stripped_dot_vanishes :
  In dot (str "x/./") /\ unsafe_char dot = true
  /\ build_service_blob_key (str "x/./") (str "SD") (str "15") (str "2") [] false
     = str "GCloud 15/PA Services/Cloud Support Services LOT 2/x/PA GC15 SD x"
  /\ ~ stripped_char_survives (str "x/./") (str "SD") (str "15") (str "2") []
                              false dot.
Proof.
  split; [vm_compute; tauto|]. split; [reflexivity|].
  split; [vm_compute; reflexivity|].
  intros (_ & _ & H). vm_compute in H.
  repeat (destruct H as [H|H]; [discriminate|]). exact H.
Qed.

Lemma filter_kept {A : Type} (f : A -> bool) (l : list A) :
  forallb f l = true -> filter f l = l.
Proof.
  induction l as [|x l IH]; [reflexivity|]. simpl. intros H.
  apply andb_true_iff in H. destruct H as [-> H]. rewrite IH; auto.
Qed.

Lemma join_of_split (sep : ascii) (s : pystr) : join [sep] (split sep s) = s.
Proof.
  induction s as [|c s IH]; [reflexivity|]. cbn [split].
  destruct (split_nonempty sep s) as (h & t & E). rewrite E in IH |- *.
  destruct (Ascii.eqb c sep) eqn:Ec.
  - apply Ascii.eqb_eq in Ec. subst c.
    change (join [sep] ([] :: h :: t)) with ([] ++ [sep] ++ join [sep] (h :: t)).
    cbn [app]. rewrite IH. reflexivity.
  - rewrite join_cons in IH |- *. cbn [app]. rewrite IH. reflexivity.
Qed.

Lemma join_app (sep : pystr) (xs ys : list pystr) :
  ys <> [] -> join sep (xs ++ ys) = join_left sep xs ++ join sep ys.
Proof.
  destruct ys as [|m ys]; [contradiction|]. intros _.
  rewrite join_around, join_cons. reflexivity.
Qed.

(** The file name begins with a piece that the path keeps. *)
Lemma filename_components (sn dt v ext : pystr) (draft : bool) :
  components (blob_filename sn dt v ext draft) <> [].
Proof.
  assert (E : exists rest, blob_filename sn dt v ext draft = str "PA GC" ++ rest).
  { unfold blob_filename. destruct draft; rewrite <- !app_assoc;
      eexists; reflexivity. }
  destruct E as (rest & ->).
  rewrite components_literal;
    [discriminate | apply (literal_slash_free "PA GC"); reflexivity | simpl; lia].
Qed.

(** The key is the folder segments followed by the file name as the path
    holds it. *)
Lemma key_front_and_filename (sn dt v lot ext : pystr) (draft : bool) :
  build_service_blob_key sn dt v lot ext draft
  = key_front sn v lot ++ filename_in_key (blob_filename sn dt v ext draft).
Proof.
  rewrite key_as_join. apply join_app, filename_components.
Qed.

Lemma filename_in_key_clean (filename : pystr) :
  path_clean filename = true -> filename_in_key filename = filename.
Proof.
  intros H. unfold filename_in_key, components.
  rewrite (filter_kept keeps _ H). apply join_of_split.
Qed.

(** C9 (amended): for every service name holding a character [c] that
    [_normalise_service_folder] strips, [c] is absent from the folder
    segment, and the key is the folder segments followed by the file name,
    of which the path drops the pieces between separators that are empty
    or [.].  So when the file name has no such piece the key ends with the
    file name as it is, and the raw service name stands verbatim in the
    key; a stripped character other than [/] and [.] is in the file name
    part of the key in every case; and [c] appears in the key -- for
    [c = '.'] provided the key is a draft key or the extension is neither
    empty nor starting with [/]. *)
Theorem stripped_char_still_in_key
        (service_name doc_type gcloud_version lot extension : pystr)
        (draft : bool) (c : ascii) :
  In c service_name ->
  unsafe_char c = true ->
  ~ In c (_normalise_service_folder service_name)
  /\ build_service_blob_key service_name doc_type gcloud_version lot extension
                            draft
     = key_front service_name gcloud_version lot
       ++ filename_in_key (blob_filename service_name doc_type gcloud_version
                                         extension draft)
  /\ (path_clean (blob_filename service_name doc_type gcloud_version extension
                                draft) = true ->
      build_service_blob_key service_name doc_type gcloud_version lot extension
                             draft
      = key_front service_name gcloud_version lot
        ++ (str "PA GC" ++ gcloud_version ++ str " " ++ doc_type ++ str " ")
        ++ service_name
        ++ (if draft then str "_draft" else []) ++ str "." ++ extension)
  /\ (c <> slash -> c <> dot ->
      In c (filename_in_key (blob_filename service_name doc_type gcloud_version
                                           extension draft)))
  /\ (c <> dot \/ draft = true
      \/ (extension <> [] /\ startswith [slash] extension = false) ->
      stripped_char_survives service_name doc_type gcloud_version lot extension
                             draft c).
Proof.
  intros Hin Hc.
  split; [apply folder_rejects; assumption|].
  split; [apply key_front_and_filename|].
  split; [|split].
  - intros Hclean. rewrite key_front_and_filename.
    rewrite (filename_in_key_clean _ Hclean). f_equal.
    unfold blob_filename. destruct draft; rewrite <- !app_assoc; reflexivity.
  - intros Hs Hd.
    assert (Hfile : In c (blob_filename service_name doc_type gcloud_version
                                        extension draft)).
    { destruct (filename_holds_name service_name doc_type gcloud_version
                                    extension draft) as (a & b & ->).
      apply in_or_app. right. apply in_or_app. left. assumption. }
    destruct (in_split_piece slash c _ Hfile Hs) as (piece & Hp & Hcp).
    apply in_join with (p := piece); [|assumption].
    unfold components. apply filter_In.
    split; [assumption | apply keeps_with with (c := c); assumption].
  - intros Hdot. unfold stripped_char_survives.
    split; [apply folder_rejects; assumption|].
    split; [apply filename_holds_name|].
    destruct (ascii_dec c slash) as [->|Hs]; [apply key_has_separator|].
    destruct (ascii_dec c dot) as [->|Hd].
    + apply key_holds_dot. destruct Hdot as [H|H]; [contradiction | exact H].
    + apply key_holds_filename_chars; try assumption.
      destruct (filename_holds_name service_name doc_type gcloud_version
                                    extension draft) as (a & b & ->).
      apply in_or_app. right. apply in_or_app. left. assumption.
Qed.

Lemma stripped_char_still_in_key_witness :
  ~ In slash (_normalise_service_folder (str "Backup/Restore"))
  /\ build_service_blob_key (str "Backup/Restore") (str "SERVICE DESC") (str "15")
                            (str "2") (str "docx") false
     = str "GCloud 15/PA Services/Cloud Support Services LOT 2/BackupRestore/"
       ++ str "PA GC15 SERVICE DESC " ++ str "Backup/Restore" ++ str ".docx".
Proof.
  destruct (stripped_char_still_in_key
              (str "Backup/Restore") (str "SERVICE DESC") (str "15") (str "2")
              (str "docx") false slash) as (Hfolder & _ & Hkey & _).
  - vm_compute. tauto.
  - reflexivity.
  - split; [exact Hfolder|]. rewrite (Hkey eq_refl). reflexivity.
Defined.

(* ================================================================== *)
(** * The folder name *)
(* ================================================================== *)

Module FolderFacts.

Lemma replace_char (a b : ascii) (s : pystr) :
  replace [a] [b] s = map (fun c => if Ascii.eqb a c then b else c) s.
Proof.
  unfold replace. induction s as [|c s IH]; [reflexivity|].
  cbn [replace_from startswith List.length Nat.sub map].
  rewrite andb_true_r. destruct (Ascii.eqb a c); simpl; rewrite IH; reflexivity.
Qed.

Lemma nonspace_kept (c : ascii) :
  isspace c = false -> space_to_underscore c = c.
Proof.
  intros H. unfold space_to_underscore.
  destruct (Ascii.eqb " " c) eqn:E; [|reflexivity].
  apply Ascii.eqb_eq in E. subst. discriminate.
Qed.

Lemma join_cons_more (sep w : pystr) (ws : list pystr) :
  ws <> [] -> join sep (w :: ws) = w ++ sep ++ join sep ws.
Proof. destruct ws; [contradiction | reflexivity]. Qed.

Lemma collapsed_space (b : bool) (y : ascii) (s : pystr) :
  isspace y = true ->
  collapsed b (y :: s) = (if b then [] else str "_") ++ collapsed true s.
Proof.
  intros H. unfold collapsed. simpl. rewrite H. destruct b; reflexivity.
Qed.

Lemma collapsed_nonspace (b : bool) (y : ascii) (s : pystr) :
  isspace y = false -> collapsed b (y :: s) = y :: collapsed false s.
Proof.
  intros H. unfold collapsed. simpl. rewrite H. simpl.
  rewrite nonspace_kept by assumption. reflexivity.
Qed.

Lemma words_from_space (cur : pystr) (y : ascii) (s : pystr) :
  isspace y = true ->
  words_from cur (y :: s)
  = match cur with [] => words_from [] s | _ => rev cur :: words_from [] s end.
Proof. intros H. simpl. rewrite H. reflexivity. Qed.

Lemma words_from_nonspace (cur : pystr) (y : ascii) (s : pystr) :
  isspace y = false -> words_from cur (y :: s) = words_from (y :: cur) s.
Proof. intros H. simpl. rewrite H. reflexivity. Qed.

(** On a text that ends with a character that is not whitespace, joining
    the words with underscores is what collapsing and replacing does. *)
Lemma collapse_is_join (c : ascii) (x : pystr) :
  isspace c = false ->
  (forall cur, cur <> [] \/ isspace (hd c x) = false ->
               join (str "_") (words_from cur (x ++ [c]))
               = rev cur ++ collapsed false (x ++ [c]))
  /\ join (str "_") (words_from [] (x ++ [c])) = collapsed true (x ++ [c])
  /\ (forall cur, words_from cur (x ++ [c]) <> []).
Proof.
  intros Hc. induction x as [|y x (IH1 & IH2 & IH3)].
  - cbn [app]. repeat split.
    + intros cur _. rewrite words_from_nonspace, collapsed_nonspace by assumption.
      reflexivity.
    + rewrite words_from_nonspace, collapsed_nonspace by assumption. reflexivity.
    + intros cur. rewrite words_from_nonspace by assumption. discriminate.
  - cbn [app]. destruct (isspace y) eqn:Hy; repeat split.
    + intros cur [Hcur|Hhd]; [|simpl in Hhd; congruence].
      rewrite words_from_space, collapsed_space by assumption.
      destruct cur as [|a cur]; [contradiction|].
      rewrite join_cons_more by apply IH3.
      rewrite IH2. reflexivity.
    + rewrite words_from_space, collapsed_space by assumption. exact IH2.
    + intros cur. rewrite words_from_space by assumption.
      destruct cur; [apply IH3 | discriminate].
    + intros cur _. rewrite words_from_nonspace, collapsed_nonspace by assumption.
      rewrite IH1 by (left; discriminate).
      simpl rev. rewrite <- app_assoc. reflexivity.
    + rewrite words_from_nonspace, collapsed_nonspace by assumption.
      rewrite IH1 by (left; discriminate). reflexivity.
    + intros cur. rewrite words_from_nonspace by assumption. apply IH3.
Qed.

Lemma words_from_trailing (sp : pystr) (cur s : pystr) :
  forallb isspace sp = true -> words_from cur (s ++ sp) = words_from cur s.
Proof.
  intros Hsp. revert cur. induction s as [|y s IH]; intros cur.
  - cbn [app]. revert cur. induction sp as [|z sp IHsp]; intros cur; [reflexivity|].
    simpl in Hsp. apply andb_true_iff in Hsp. destruct Hsp as [Hz Hsp].
    rewrite words_from_space by assumption. specialize (IHsp Hsp []).
    rewrite IHsp. destruct cur; reflexivity.
  - cbn [app]. simpl. destruct (isspace y); [|apply IH].
    destruct cur; rewrite IH; reflexivity.
Qed.

Lemma lstrip_split (s : pystr) :
  exists sp, s = sp ++ lstrip s /\ forallb isspace sp = true.
Proof.
  induction s as [|y s (sp & E & Hsp)]; [exists []; split; reflexivity|].
  simpl. destruct (isspace y) eqn:Hy.
  - exists (y :: sp). split; [simpl; congruence | simpl; rewrite Hy; assumption].
  - exists []. split; reflexivity.
Qed.

Lemma rstrip_split (s : pystr) :
  exists sp, s = rstrip s ++ sp /\ forallb isspace sp = true.
Proof.
  destruct (lstrip_split (rev s)) as (sp & E & Hsp).
  exists (rev sp). split.
  - unfold rstrip. rewrite <- rev_app_distr, <- E, rev_involutive. reflexivity.
  - rewrite forallb_forall in *. intros c Hin. apply Hsp, in_rev. assumption.
Qed.

Lemma words_lstrip (s : pystr) : words (lstrip s) = words s.
Proof.
  unfold words. induction s as [|y s IH]; [reflexivity|].
  simpl. destruct (isspace y) eqn:Hy; [assumption|].
  simpl. rewrite Hy. reflexivity.
Qed.

Lemma words_strip (s : pystr) : words (strip s) = words s.
Proof.
  rewrite <- (words_lstrip s). unfold strip.
  destruct (rstrip_split (lstrip s)) as (sp & E & Hsp).
  rewrite E at 2. unfold words. rewrite words_from_trailing by assumption.
  reflexivity.
Qed.

(** A stripped text is empty, or begins and ends with characters that are
    not whitespace. *)
Lemma strip_shape (s : pystr) :
  strip s = []
  \/ exists x c, strip s = x ++ [c] /\ isspace c = false
                 /\ isspace (hd c x) = false.
Proof.
  pose proof (rstrip_strip s) as Hr. pose proof (lstrip_strip s) as Hl.
  set (u := strip s) in *. clearbody u.
  unfold rstrip in Hr.
  assert (Hrev : lstrip (rev u) = rev u)
    by (rewrite <- (rev_involutive (lstrip (rev u))), Hr; reflexivity).
  destruct (lstrip_fixed_head _ Hrev) as [E|(c & r & E & Hc)].
  - left. rewrite <- (rev_involutive u), E. reflexivity.
  - right. exists (rev r), c.
    assert (Eu : u = rev r ++ [c])
      by (rewrite <- (rev_involutive u), E; reflexivity).
    repeat split; try assumption.
    destruct (lstrip_fixed_head _ Hl) as [E0|(y & t & Ey & Hy)].
    + rewrite E0 in Eu. destruct (rev r); discriminate.
    + rewrite Ey in Eu. destruct (rev r) as [|y' t']; simpl in *.
      * assumption.
      * inversion Eu; subst. assumption.
Qed.

(** The folder name is the kept characters of the service name, cut into
    words at whitespace and joined with underscores. *)
Lemma folder_is_joined_words (service_name : pystr) :
  _normalise_service_folder service_name
  = join (str "_") (words (filter safe_char service_name)).
Proof.
  unfold _normalise_service_folder. rewrite re_sub_class_filter.
  assert (Ef : filter (fun c => negb (unsafe_char c)) service_name
               = filter safe_char service_name).
  { apply filter_ext. intros c. unfold unsafe_char, safe_char.
    apply negb_involutive. }
  rewrite Ef. set (t := filter safe_char service_name).
  rewrite <- (words_strip t).
  change (str " ") with [" "%char]. change (str "_") with ["_"%char].
  rewrite replace_char.
  change (map (fun c => if Ascii.eqb " " c then "_"%char else c)
              (re_sub_plus isspace [" "%char] (strip t)))
    with (collapsed false (strip t)).
  destruct (strip_shape t) as [E|(x & c & E & Hc & Hhd)]; rewrite E.
  - reflexivity.
  - destruct (collapse_is_join c x Hc) as (H1 & _ & _).
    symmetry. exact (H1 [] (or_intror Hhd)).
Qed.

Lemma slash_free_app (a b : pystr) :
  slash_free a -> slash_free b -> slash_free (a ++ b).
Proof. unfold slash_free. intros Ha Hb H. apply in_app_or in H. tauto. Qed.

Lemma filename_slash_free (sn dt v ext : pystr) (draft : bool) :
  slash_free sn -> slash_free dt -> slash_free v -> slash_free ext ->
  slash_free (blob_filename sn dt v ext draft).
Proof.
  intros Hsn Hdt Hv Hext. unfold blob_filename.
  assert (L : forall s, forallb (fun c => negb (Ascii.eqb c slash)) (str s) = true
                        -> slash_free (str s)) by apply literal_slash_free.
  destruct draft; repeat apply slash_free_app; try assumption;
    apply L; reflexivity.
Qed.

Lemma key_layout_holds (sn dt v lot ext : pystr) (draft : bool) :
  slash_free v -> slash_free dt -> slash_free lot -> slash_free sn ->
  slash_free ext -> _normalise_service_folder sn <> [] ->
  build_service_blob_key sn dt v lot ext draft
  = key_layout sn dt v lot ext draft.
Proof.
  intros Hv Hdt Hlot Hsn Hext Hfolder. rewrite key_as_join. unfold folder_parts.
  rewrite (components_free (str "GCloud " ++ v)).
  2: { apply slash_free_app; [apply literal_slash_free; reflexivity | assumption]. }
  2: { apply keeps_long. rewrite length_app. simpl. lia. }
  change (components (str "PA Services")) with [str "PA Services"].
  rewrite (components_free (str "Cloud Support Services LOT " ++ lot)).
  2: { apply slash_free_app; [apply literal_slash_free; reflexivity | assumption]. }
  2: { apply keeps_long. rewrite length_app. simpl. lia. }
  rewrite (components_free (_normalise_service_folder sn)).
  2: { apply folder_slash_free. }
  2: { destruct (_normalise_service_folder sn) as [|c r] eqn:E; [contradiction|].
       apply keeps_with with (c := c); [left; reflexivity|].
       intros ->. apply (folder_rejects sn dot eq_refl). rewrite E. left; reflexivity. }
  rewrite (components_free (blob_filename sn dt v ext draft)).
  2: { apply filename_slash_free; assumption. }
  2: { apply keeps_long. unfold blob_filename.
       destruct draft; rewrite !length_app; simpl; lia. }
  unfold key_layout. cbn [app join]. change [slash] with (str "/").
  rewrite <- !app_assoc. reflexivity.
Qed.

End FolderFacts.

Import FolderFacts.

(** C4, as stated, fails on two counts: the underscore, a word character,
    is kept although it is neither letter, digit, whitespace nor hyphen;
    and whitespace at either end of the service name is trimmed, not
    mapped to an underscore. *)
Lemma folder_keeps_underscore_and_trims :
  _normalise_service_folder (str "snake_case") = str "snake_case"
  /\ folder_as_specified (str "snake_case") = str "snakecase"
  /\ _normalise_service_folder (str " Backup ") = str "Backup"
  /\ folder_as_specified (str " Backup ") = str "_Backup_"
  /\ ~ (forall service_name,
           _normalise_service_folder service_name
           = folder_as_specified service_name).
Proof.
  repeat (split; [vm_compute; reflexivity|]).
  intros H. specialize (H (str "snake_case")). vm_compute in H. discriminate.
Qed.

(** C4 (amended): the folder segment is the service name with every
    character outside word characters (letters, digits, underscore),
    whitespace and hyphen stripped, cut into words at whitespace (so outer
    whitespace is trimmed) and the words joined with single underscores;
    the file name holds the service name unmodified; and when no argument
    holds a path separator and the folder name is not empty, the key is
    the prefix, the folder segment and the file name joined by [/]. *)
Theorem folder_and_filename_of_key
        (service_name doc_type gcloud_version lot extension : pystr)
        (draft : bool) :
  _normalise_service_folder service_name
  = join (str "_") (words (filter safe_char service_name))
  /\ occurs_in service_name
               (blob_filename service_name doc_type gcloud_version extension draft)
  /\ (slash_free gcloud_version -> slash_free doc_type -> slash_free lot ->
      slash_free service_name -> slash_free extension ->
      _normalise_service_folder service_name <> [] ->
      build_service_blob_key service_name doc_type gcloud_version lot extension
                             draft
      = key_layout service_name doc_type gcloud_version lot extension draft).
Proof.
  split; [apply folder_is_joined_words|].
  split; [apply filename_holds_name|].
  apply key_layout_holds.
Qed.

Lemma folder_and_filename_of_key_witness :
  _normalise_service_folder (str "  Cloud   Backup & Restore_v2 ")
  = str "Cloud_Backup_Restore_v2"
  /\ build_service_blob_key (str "  Cloud   Backup & Restore_v2 ")
                            (str "SERVICE DESC") (str "15") (str "2")
                            (str "docx") false
     = str "GCloud 15/PA Services/Cloud Support Services LOT 2/Cloud_Backup_Restore_v2/PA GC15 SERVICE DESC   Cloud   Backup & Restore_v2 .docx".
Proof.
  destruct (folder_and_filename_of_key
              (str "  Cloud   Backup & Restore_v2 ") (str "SERVICE DESC")
              (str "15") (str "2") (str "docx") false) as (Hfolder & _ & Hkey).
  split.
  - rewrite Hfolder. vm_compute. reflexivity.
  - rewrite Hkey; [vm_compute; reflexivity | | | | | |];
      try (intros Hin; vm_compute in Hin;
           repeat (destruct Hin as [Hin|Hin]; [discriminate|]); exact Hin).
    vm_compute. discriminate.
Defined.

(* ================================================================== *)
(** * Editing the body *)
(* ================================================================== *)

Module BodyFacts.

Lemma insert_at_app (X Y : list block) (b : block) :
  insert_at (List.length X) b (X ++ Y) = X ++ b :: Y.
Proof.
  unfold insert_at.
  rewrite firstn_app, firstn_all, Nat.sub_diag, firstn_O, app_nil_r.
  rewrite skipn_app, skipn_all, Nat.sub_diag. reflexivity.
Qed.

Lemma update_para_app (X Y : list block) (p : paragraph)
      (f : paragraph -> paragraph) :
  update_para (List.length X) f (X ++ BPara p :: Y) = X ++ BPara (f p) :: Y.
Proof. induction X as [|x X IH]; simpl; [reflexivity | rewrite IH; reflexivity]. Qed.

Lemma update_para_length (i : nat) (f : paragraph -> paragraph) (l : list block) :
  List.length (update_para i f l) = List.length l.
Proof.
  revert i; induction l as [|b l IH]; intros i; [reflexivity|].
  destruct i; simpl; [destruct b; reflexivity | rewrite IH; reflexivity].
Qed.

Lemma set_body_set_body (d : document) (l l' : list block) :
  set_body (set_body d l) l' = set_body d l'.
Proof. reflexivity. Qed.

(** Inserting after the block at the end of [X]. *)
Lemma insert_after_at (d : document) (X Y : list block) (i : nat)
      (text : pystr) (style : option pystr) :
  body d = X ++ Y -> S i = List.length X ->
  _insert_paragraph_after d i text style
  = (set_body d (X ++ BPara (new_paragraph text style) :: Y), List.length X).
Proof.
  intros Hb Hi. unfold _insert_paragraph_after. rewrite Hb, Hi, insert_at_app.
  reflexivity.
Qed.

(** Changing the paragraph that follows [X]. *)
Lemma update_at (d : document) (X Y : list block) (p : paragraph) (i : nat)
      (f : paragraph -> paragraph) :
  body d = X ++ BPara p :: Y -> i = List.length X ->
  set_body d (update_para i f (body d)) = set_body d (X ++ BPara (f p) :: Y).
Proof. intros Hb ->. rewrite Hb, update_para_app. reflexivity. Qed.

Lemma split_at (i : nat) (l : list block) :
  i < List.length l ->
  l = firstn (S i) l ++ skipn (S i) l /\ List.length (firstn (S i) l) = S i.
Proof.
  intros H. split; [symmetry; apply firstn_skipn|].
  rewrite length_firstn. lia.
Qed.

(** ** Growing *)

Lemma grows_after_refl (k : nat) (l : list block) : grows_after k l l.
Proof. repeat split; auto. Qed.

Lemma grows_after_insert (k j : nat) (seg l : list block) :
  k <= j -> j <= List.length l ->
  grows_after k l (firstn j l ++ seg ++ skipn j l).
Proof.
  intros Hk Hj. repeat split.
  - rewrite firstn_app, length_firstn, Nat.min_l by assumption.
    replace (k - j) with 0 by lia. rewrite firstn_O, app_nil_r.
    rewrite firstn_firstn. f_equal. lia.
  - intros x Hx. rewrite skipn_app, length_firstn, Nat.min_l by assumption.
    replace (k - j) with 0 by lia. rewrite skipn_O.
    rewrite <- (firstn_skipn j l) in Hx at 1.
    rewrite skipn_app, length_firstn, Nat.min_l in Hx by assumption.
    replace (k - j) with 0 in Hx by lia. rewrite skipn_O in Hx.
    apply in_app_or in Hx. apply in_or_app.
    destruct Hx as [Hx|Hx]; [left; assumption | right; apply in_or_app; right; assumption].
  - rewrite !length_app, length_firstn, length_skipn. lia.
Qed.

Lemma grows_after_weaken (k k' : nat) (l l' : list block) :
  k' <= k -> k <= List.length l -> grows_after k l l' -> grows_after k' l l'.
Proof.
  intros Hk Hl (H1 & H2 & H3). repeat split; [| |assumption].
  - assert (F : forall m : list block, firstn k' m = firstn k' (firstn k m)).
    { intros m. rewrite firstn_firstn. f_equal. lia. }
    rewrite (F l'), H1, <- F. reflexivity.
  - intros x Hx.
    assert (E : forall m : list block, k <= List.length m ->
                          skipn k' m = skipn k' (firstn k m) ++ skipn k m).
    { intros m Hm. rewrite <- (firstn_skipn k m) at 1.
      rewrite skipn_app, length_firstn, Nat.min_l by assumption.
      replace (k' - k) with 0 by lia. reflexivity. }
    rewrite (E l Hl) in Hx. rewrite (E l') by lia.
    apply in_app_or in Hx. apply in_or_app.
    destruct Hx as [Hx|Hx]; [left; rewrite H1; assumption | right; auto].
Qed.

Lemma grows_after_trans (k : nat) (l l' l'' : list block) :
  grows_after k l l' -> grows_after k l' l'' -> grows_after k l l''.
Proof.
  intros (A1 & A2 & A3) (B1 & B2 & B3). repeat split.
  - congruence.
  - auto.
  - lia.
Qed.


End BodyFacts.

Import BodyFacts.

(* ================================================================== *)
(** * Rendering HTML *)
(* ================================================================== *)

Section RenderFacts.

Variable load_image : pystr -> image_result.

Lemma add_run_at (d : document) (A B : list block) (seg : list paragraph)
      (q : paragraph) (r : run) :
  body d = A ++ map BPara seg ++ BPara q :: B ->
  para_add_run d (List.length A + List.length seg) r
  = set_body d (A ++ map BPara seg ++ BPara (add_run r q) :: B).
Proof.
  intros Hb. unfold para_add_run.
  rewrite app_assoc in Hb. rewrite (update_at d _ _ _ _ (add_run r) Hb).
  - rewrite <- app_assoc. reflexivity.
  - rewrite length_app, length_map. reflexivity.
Qed.

Lemma insert_after_run_paragraph (d : document) (A B : list block)
      (seg : list paragraph) (q : paragraph) :
  body d = A ++ map BPara seg ++ BPara q :: B ->
  _insert_paragraph_after d (List.length A + List.length seg) [] None
  = (set_body d (A ++ map BPara (seg ++ [q])
                   ++ BPara (new_paragraph [] None) :: B),
     List.length A + List.length (seg ++ [q])).
Proof.
  intros Hb.
  assert (Hb' : body d = (A ++ map BPara (seg ++ [q])) ++ B).
  { rewrite Hb, map_app, <- !app_assoc. reflexivity. }
  rewrite (insert_after_at d _ _ _ [] None Hb').
  - rewrite <- app_assoc, !length_app, length_map, length_app. reflexivity.
  - rewrite !length_app, length_map, length_app. simpl. lia.
Qed.

(** [add_child] edits the body as [child_step] says. *)
Lemma add_child_closed (d : document) (A B : list block)
      (seg : list paragraph) (q : paragraph) (child : node) :
  body d = A ++ map BPara seg ++ BPara q :: B ->
  add_child load_image (d, List.length A + List.length seg) child
  = (set_body d (A ++ map BPara (fst (child_step load_image (seg, q) child))
                   ++ BPara (snd (child_step load_image (seg, q) child)) :: B),
     List.length A + List.length (fst (child_step load_image (seg, q) child))).
Proof.
  intros Hb. unfold add_child, child_step.
  destruct child as [s|s|name attrs children].
  - rewrite (add_run_at d A B seg q _ Hb). reflexivity.
  - rewrite (add_run_at d A B seg q _ Hb). reflexivity.
  - destruct (name_in name _).
    { rewrite (add_run_at d A B seg q _ Hb). reflexivity. }
    destruct (PyStr.eqb name (str "img")).
    2: { rewrite (add_run_at d A B seg q _ Hb). reflexivity. }
    destruct (attr_get (str "src") attrs) as [[|c src]|];
      [ cbn [fst snd]; rewrite <- Hb; destruct d; reflexivity
      | | cbn [fst snd]; rewrite <- Hb; destruct d; reflexivity ].
    rewrite (insert_after_run_paragraph d A B seg q Hb).
    destruct (load_image (c :: src)); cbn [fst snd].
    + rewrite (add_run_at (set_body d _) A B (seg ++ [q]) _ _ eq_refl).
      reflexivity.
    + rewrite (add_run_at (set_body d _) A B (seg ++ [q]) _ _ eq_refl).
      reflexivity.
    + rewrite (add_run_at (set_body d _) A B (seg ++ [q]) _ _ eq_refl).
      rewrite (add_run_at (set_body _ _) A B (seg ++ [q]) _ _ eq_refl).
      reflexivity.
Qed.

Lemma add_children_closed (children : list node) (d : document)
      (A B : list block) (seg : list paragraph) (q : paragraph) :
  body d = A ++ map BPara seg ++ BPara q :: B ->
  fold_left (add_child load_image) children
            (d, List.length A + List.length seg)
  = (set_body d
       (A ++ map BPara (fst (fold_left (child_step load_image) children (seg, q)))
          ++ BPara (snd (fold_left (child_step load_image) children (seg, q)))
          :: B),
     List.length A
     + List.length (fst (fold_left (child_step load_image) children (seg, q)))).
Proof.
  revert d seg q. induction children as [|child children IH]; intros d seg q Hb.
  - cbn [fold_left fst snd]. rewrite <- Hb. destruct d; reflexivity.
  - cbn [fold_left]. rewrite (add_child_closed d A B seg q child Hb).
    destruct (child_step load_image (seg, q) child) as [seg1 q1] eqn:E.
    cbn [fst snd]. rewrite (IH (set_body d _) seg1 q1 eq_refl). reflexivity.
Qed.

(** The body after one paragraph-level element. *)
Lemma add_paragraph_with_inlines_closed (d : document) (after : nat)
      (children : list node) (style : option pystr) :
  after < List.length (body d) ->
  add_paragraph_with_inlines load_image d after (inr children) style
  = (set_body d
       (firstn (S after) (body d)
        ++ map BPara (fst (inline_paragraphs load_image children style))
        ++ BPara (snd (inline_paragraphs load_image children style))
        :: skipn (S after) (body d)),
     S after + List.length (fst (inline_paragraphs load_image children style))).
Proof.
  intros Hv. destruct (split_at after (body d) Hv) as [Hb Hl].
  unfold add_paragraph_with_inlines, inline_paragraphs.
  rewrite (insert_after_at d _ _ after [] None Hb) by (symmetry; exact Hl).
  set (A := firstn (S after) (body d)) in *.
  set (B := skipn (S after) (body d)) in *.
  assert (E : match given_style style with
              | Some n => para_set_style
                            (set_body d (A ++ BPara (new_paragraph [] None) :: B))
                            (List.length A) n
              | None => set_body d (A ++ BPara (new_paragraph [] None) :: B)
              end
              = set_body d (A ++ map BPara [] ++ BPara (start_paragraph style) :: B)).
  { unfold start_paragraph. destruct (given_style style) as [n|]; [|reflexivity].
    unfold para_set_style. cbn [body set_body].
    rewrite update_para_app. reflexivity. }
  rewrite E.
  replace (List.length A) with (List.length A + List.length (@nil paragraph))
    by (simpl; lia).
  rewrite (add_children_closed children (set_body d _) A B [] _ eq_refl).
  rewrite Hl. reflexivity.
Qed.

Lemma add_paragraph_with_text_closed (d : document) (after : nat) (s : pystr) :
  after < List.length (body d) ->
  add_paragraph_with_inlines load_image d after (inl s) None
  = (set_body d
       (firstn (S after) (body d)
        ++ BPara (add_run (plain_run s) (new_paragraph [] None))
        :: skipn (S after) (body d)),
     S after).
Proof.
  intros Hv. destruct (split_at after (body d) Hv) as [Hb Hl].
  unfold add_paragraph_with_inlines.
  rewrite (insert_after_at d _ _ after [] None Hb) by (symmetry; exact Hl).
  cbn [given_style]. unfold para_add_run. cbn [body set_body].
  rewrite update_para_app, Hl. reflexivity.
Qed.

(** The items of a list, put in one after the other. *)
Lemma list_items_closed (list_name : pystr) (lis : list node) (d : document)
      (last : nat) :
  last < List.length (body d) ->
  fold_left
    (fun (s : document * nat) li =>
       _insert_paragraph_after
         (fst s) (snd s) (get_text li)
         (Some (if PyStr.eqb list_name (str "ul")
                then str "List Bullet" else str "List Number")))
    lis (d, last)
  = (set_body d (firstn (S last) (body d)
                 ++ map (li_paragraph list_name) lis
                 ++ skipn (S last) (body d)),
     last + List.length lis).
Proof.
  intros Hv. destruct (split_at last (body d) Hv) as [Hb Hl].
  set (A := firstn (S last) (body d)) in *.
  set (B := skipn (S last) (body d)) in *. clearbody A B.
  revert d last A Hb Hl Hv. induction lis as [|li lis IH]; intros d last A Hb Hl Hv.
  - cbn [fold_left map app List.length]. rewrite <- Hb, Nat.add_0_r.
    destruct d; reflexivity.
  - cbn [fold_left fst snd].
    rewrite (insert_after_at d _ _ last _ _ Hb) by (symmetry; exact Hl).
    rewrite (IH (set_body d _) (List.length A)
                (A ++ [li_paragraph list_name li])).
    + cbn [map List.length]. rewrite <- app_assoc. f_equal. lia.
    + cbn [body set_body]. rewrite <- app_assoc. reflexivity.
    + rewrite length_app. simpl. lia.
    + cbn [body set_body]. rewrite length_app. simpl. lia.
Qed.

End RenderFacts.

Section GrowFacts.

Variable load_image : pystr -> image_result.

Lemma keeps_inserted (after_para j : nat) (d : document) (seg : list block)
      (last' : nat) :
  S after_para <= j -> j <= List.length (body d) ->
  after_para <= last' -> last' < List.length (body d) + List.length seg ->
  step_keeps after_para d
             (set_body d (firstn j (body d) ++ seg ++ skipn j (body d)), last').
Proof.
  intros Hk Hj Hl Hv. unfold step_keeps. cbn [fst snd body set_body].
  split; [apply grows_after_insert; assumption|].
  split; [assumption|]. split; [|reflexivity].
  rewrite !length_app, length_firstn, length_skipn. lia.
Qed.

Lemma keeps_unchanged (after_para last : nat) (d : document) :
  after_para <= last -> last < List.length (body d) ->
  step_keeps after_para d (d, last).
Proof.
  intros H1 H2. unfold step_keeps. cbn [fst snd].
  split; [apply grows_after_refl|]. auto.
Qed.

Lemma html_step_keeps (after_para last : nat) (d : document) (el : node) :
  after_para <= last -> last < List.length (body d) ->
  step_keeps after_para d (html_step load_image after_para (d, last) el).
Proof.
  intros Hl Hv.
  assert (Hva : after_para < List.length (body d)) by lia.
  assert (Htext : forall s,
             step_keeps after_para d
               (match strip s with
                | [] => (d, last)
                | _ :: _ => add_paragraph_with_inlines load_image d after_para
                                                       (inl s) None
                end)).
  { intros s. destruct (strip s); [apply keeps_unchanged; assumption|].
    rewrite (add_paragraph_with_text_closed load_image d after_para s Hva).
    change (firstn (S after_para) (body d)
              ++ BPara (add_run (plain_run s) (new_paragraph [] None))
              :: skipn (S after_para) (body d))
      with (firstn (S after_para) (body d)
              ++ [BPara (add_run (plain_run s) (new_paragraph [] None))]
              ++ skipn (S after_para) (body d)).
    apply keeps_inserted; simpl; lia. }
  assert (Hpara : forall children style,
             step_keeps after_para d
               (add_paragraph_with_inlines load_image d after_para
                                           (inr children) style)).
  { intros children style.
    rewrite (add_paragraph_with_inlines_closed load_image d after_para
                                               children style Hva).
    set (st := inline_paragraphs load_image children style).
    replace (firstn (S after_para) (body d)
               ++ map BPara (fst st) ++ BPara (snd st)
               :: skipn (S after_para) (body d))
      with (firstn (S after_para) (body d)
               ++ (map BPara (fst st) ++ [BPara (snd st)])
               ++ skipn (S after_para) (body d))
      by (rewrite <- !app_assoc; reflexivity).
    apply keeps_inserted; try lia.
    rewrite length_app, length_map. simpl. lia. }
  unfold html_step. destruct el as [s|s|name attrs children];
    [apply Htext | apply Htext |].
  destruct name as [|c name]; [apply keeps_unchanged; assumption|].
  destruct (PyStr.eqb (lower (c :: name)) (str "h3")); [apply Hpara|].
  destruct (PyStr.eqb (lower (c :: name)) (str "p")); [apply Hpara|].
  destruct (name_in (lower (c :: name)) [str "ul"; str "ol"]).
  { rewrite (list_items_closed (lower (c :: name)) (li_children children)
                               d last Hv).
    apply keeps_inserted; try lia. rewrite length_map. lia. }
  destruct (PyStr.eqb (lower (c :: name)) (str "br")); [|apply Hpara].
  destruct (split_at last (body d) Hv) as [Hb Hlen].
  rewrite (insert_after_at d _ _ last [] None Hb) by (symmetry; exact Hlen).
  rewrite Hlen.
  change (firstn (S last) (body d) ++ BPara (new_paragraph [] None)
            :: skipn (S last) (body d))
    with (firstn (S last) (body d) ++ [BPara (new_paragraph [] None)]
            ++ skipn (S last) (body d)).
  apply keeps_inserted; simpl; lia.
Qed.

Lemma step_keeps_trans (after_para : nat) (d : document)
      (st1 st2 : document * nat) :
  step_keeps after_para d st1 -> step_keeps after_para (fst st1) st2 ->
  step_keeps after_para d st2.
Proof.
  intros (G1 & L1 & V1 & D1) (G2 & L2 & V2 & D2). unfold step_keeps.
  split; [eapply grows_after_trans; eassumption|].
  split; [assumption|]. split; [assumption | congruence].
Qed.

Lemma html_steps_keep (after_para : nat) (soup : list node) (d0 d : document)
      (last : nat) :
  step_keeps after_para d0 (d, last) ->
  step_keeps after_para d0 (fold_left (html_step load_image after_para) soup
                                      (d, last)).
Proof.
  revert d last. induction soup as [|el soup IH]; intros d last H; [exact H|].
  cbn [fold_left].
  destruct (html_step load_image after_para (d, last) el) as [d1 last1] eqn:E.
  apply IH. apply step_keeps_trans with (st1 := (d, last)); [exact H|]. rewrite <- E.
  destruct H as (_ & L & V & _). apply html_step_keeps; assumption.
Qed.

Lemma _insert_html_keeps (d : document) (after_para : nat) (soup : list node) :
  after_para < List.length (body d) ->
  step_keeps after_para d (_insert_html load_image d after_para soup).
Proof.
  intros Hv. unfold _insert_html. apply html_steps_keep.
  apply keeps_unchanged; [lia | assumption].
Qed.

Lemma step_keeps_weaken (k k' : nat) (d : document) (st' : document * nat) :
  k' <= k -> k < List.length (body d) ->
  step_keeps k d st' -> step_keeps k' d st'.
Proof.
  intros Hk Hv (G & L & V & D). unfold step_keeps.
  split; [apply grows_after_weaken with (k := S k); try lia; assumption|].
  split; [lia|]. split; assumption.
Qed.

Lemma insert_after_keeps (d : document) (i : nat) (text : pystr)
      (style : option pystr) :
  i < List.length (body d) ->
  step_keeps i d (_insert_paragraph_after d i text style).
Proof.
  intros Hv. destruct (split_at i (body d) Hv) as [Hb Hlen].
  rewrite (insert_after_at d _ _ i text style Hb) by (symmetry; exact Hlen).
  rewrite Hlen.
  change (firstn (S i) (body d) ++ BPara (new_paragraph text style)
            :: skipn (S i) (body d))
    with (firstn (S i) (body d) ++ [BPara (new_paragraph text style)]
            ++ skipn (S i) (body d)).
  apply keeps_inserted; simpl; lia.
Qed.

(** [add_para] after a paragraph: one styled paragraph is put in. *)
Lemma add_para_after (d : document) (cur : nat) (text : pystr)
      (style : option pystr) (space : nat) :
  cur < List.length (body d) ->
  add_para (d, Some cur) text style space
  = (set_body d (firstn (S cur) (body d)
                 ++ BPara (set_space space (new_paragraph text style))
                 :: skipn (S cur) (body d)),
     S cur).
Proof.
  intros Hv. destruct (split_at cur (body d) Hv) as [Hb Hlen].
  unfold add_para, after_or_append. cbn [fst snd].
  rewrite (insert_after_at d _ _ cur text style Hb) by (symmetry; exact Hlen).
  unfold set_space_after. cbn [body set_body].
  rewrite update_para_app, Hlen. reflexivity.
Qed.

Lemma add_para_keeps (d : document) (cur : nat) (text : pystr)
      (style : option pystr) (space : nat) :
  cur < List.length (body d) ->
  step_keeps cur d (add_para (d, Some cur) text style space).
Proof.
  intros Hv. rewrite add_para_after by assumption.
  change (firstn (S cur) (body d)
            ++ BPara (set_space space (new_paragraph text style))
            :: skipn (S cur) (body d))
    with (firstn (S cur) (body d)
            ++ [BPara (set_space space (new_paragraph text style))]
            ++ skipn (S cur) (body d)).
  apply keeps_inserted; simpl; lia.
Qed.

Lemma definition_step_keeps (d : document) (cur : nat) (block : content_block) :
  cur < List.length (body d) ->
  step_keeps cur d (definition_step load_image (d, cur) block).
Proof.
  intros Hv. unfold definition_step. cbn [fst snd].
  set (st1 := match subtitle block with
              | [] => (d, cur)
              | _ :: _ => add_para (d, Some cur) (subtitle block)
                                   (Some (str "Heading 3")) 6
              end).
  assert (H1 : step_keeps cur d st1).
  { unfold st1. destruct (subtitle block);
      [apply keeps_unchanged; lia | apply add_para_keeps; assumption]. }
  destruct (content block) as [soup|]; [|exact H1].
  pose proof H1 as (G1 & L1 & V1 & D1).
  pose proof (_insert_html_keeps (fst st1) (snd st1) soup V1) as H2.
  destruct (_insert_html load_image (fst st1) (snd st1) soup)
    as [d2 last] eqn:E2.
  pose proof H2 as (G2 & L2 & V2 & D2). cbn [fst snd] in *.
  pose proof (insert_after_keeps d2 last [] None V2) as H3.
  apply step_keeps_trans with (st1 := st1); [exact H1|].
  apply step_keeps_trans with (st1 := (d2, last)).
  - apply step_keeps_weaken with (k := snd st1); [assumption | assumption | exact H2].
  - cbn [fst]. apply step_keeps_weaken with (k := last); [lia | assumption | exact H3].
Qed.

Lemma definition_steps_keep (blocks : list content_block) (d0 d : document)
      (cur0 cur : nat) :
  cur0 < List.length (body d0) ->
  step_keeps cur0 d0 (d, cur) ->
  step_keeps cur0 d0 (fold_left (definition_step load_image) blocks (d, cur)).
Proof.
  intros Hv0. revert d cur.
  induction blocks as [|block blocks IH]; intros d cur H; [exact H|].
  cbn [fold_left].
  destruct (definition_step load_image (d, cur) block) as [d1 cur1] eqn:E.
  apply IH. apply step_keeps_trans with (st1 := (d, cur)); [exact H|]. rewrite <- E.
  destruct H as (G & L & V & D). cbn [fst snd] in *.
  apply step_keeps_weaken with (k := cur); [assumption | assumption|].
  apply definition_step_keeps. assumption.
Qed.

End GrowFacts.

(* ================================================================== *)
(** * The composed block *)
(* ================================================================== *)

Section ComposeFacts.

Variable load_image : pystr -> image_result.

Lemma numbered_paragraphs_length (idx : nat) (items : list pystr) :
  List.length (numbered_paragraphs idx items) = List.length items.
Proof.
  revert idx; induction items as [|item items IH]; intros idx;
    [reflexivity | simpl; rewrite IH; reflexivity].
Qed.

Lemma insert_written (d : document) (X Y : list block) (cur : nat)
      (text : pystr) (style : option pystr) :
  body d = X ++ Y -> S cur = List.length X ->
  _insert_paragraph_after d cur text style
  = (set_body d ((X ++ [BPara (new_paragraph text style)]) ++ Y), List.length X).
Proof.
  intros Hb Hc. rewrite (insert_after_at d X Y cur text style Hb Hc).
  rewrite <- app_assoc. reflexivity.
Qed.

Lemma update_written (X Y : list block) (p : paragraph)
      (f : paragraph -> paragraph) :
  update_para (List.length X) f ((X ++ [BPara p]) ++ Y)
  = (X ++ [BPara (f p)]) ++ Y.
Proof.
  rewrite <- !app_assoc. cbn [app]. apply update_para_app.
Qed.

Lemma add_para_written (d : document) (X Y : list block) (cur : nat)
      (text : pystr) (style : string) (space : nat) :
  body d = X ++ Y -> S cur = List.length X ->
  add_para (d, Some cur) text (Some (str style)) space
  = (set_body d ((X ++ [styled text style space]) ++ Y), List.length X).
Proof.
  intros Hb Hc. unfold add_para, after_or_append. cbn [fst snd].
  rewrite (insert_written d X Y cur text _ Hb Hc).
  unfold set_space_after. cbn [body set_body].
  rewrite update_written, set_body_set_body. reflexivity.
Qed.

(** The first [add_para], after a paragraph or at the end of a body. *)
Lemma add_para_first (d : document) (after_para : option nat)
      (text : pystr) (style : string) (space : nat) :
  match after_para with
  | Some i => i < List.length (body d)
  | None => True
  end ->
  add_para (d, after_para) text (Some (str style)) space
  = (set_body d ((firstn (insertion_point d after_para) (body d)
                  ++ [styled text style space])
                 ++ skipn (insertion_point d after_para) (body d)),
     insertion_point d after_para).
Proof.
  destruct after_para as [i|]; intros Hv; cbn [insertion_point].
  - destruct (split_at i (body d) Hv) as [Hb Hlen].
    rewrite (add_para_written d _ _ i text style space Hb) by (symmetry; exact Hlen).
    rewrite Hlen. reflexivity.
  - unfold add_para, after_or_append, add_paragraph. cbn [fst snd].
    unfold set_space_after. cbn [body set_body].
    rewrite firstn_all, skipn_all, app_nil_r, update_para_app. reflexivity.
Qed.

Lemma numbered_from_closed (items : list pystr) (idx : nat) (d : document)
      (X Y : list block) (cur : nat) :
  body d = X ++ Y -> S cur = List.length X ->
  numbered_from idx d (Some cur) items
  = (set_body d ((X ++ numbered_paragraphs idx items) ++ Y),
     Some (cur + List.length items)).
Proof.
  revert idx d X cur. induction items as [|item items IH]; intros idx d X cur Hb Hc.
  - cbn [numbered_from numbered_paragraphs List.length].
    rewrite app_nil_r, Nat.add_0_r, <- Hb. destruct d; reflexivity.
  - cbn [numbered_from after_or_append].
    rewrite (insert_written d X Y cur [] None Hb Hc).
    unfold set_space_after, para_add_run. cbn [body set_body].
    rewrite !update_written, !set_body_set_body.
    rewrite (IH (S idx) (set_body d _) (X ++ [BPara _]) (List.length X) eq_refl).
    + cbn [numbered_paragraphs List.length]. rewrite set_body_set_body.
      f_equal; [|f_equal; lia].
      f_equal. rewrite <- !app_assoc. reflexivity.
    + rewrite length_app. simpl. lia.
Qed.


End ComposeFacts.

Section TemplateFacts.

Variable load_image : pystr -> image_result.

(** What [_insert_full_content_block] does before it turns to the service
    definition. *)
Lemma composed_head_written (d : document) (after_para : option nat)
      (service_title description : pystr) (features benefits : list pystr)
      (service_definition : list content_block) :
  match after_para with
  | Some i => i < List.length (body d)
  | None => True
  end ->
  let X0 := firstn (insertion_point d after_para) (body d) in
  let Y0 := skipn (insertion_point d after_para) (body d) in
  let head := composed_head service_title description features benefits in
  let composed := set_body d ((X0 ++ head) ++ Y0) in
  let cur := List.length (X0 ++ head) - 1 in
  _insert_full_content_block load_image d after_para service_title description
                             features benefits service_definition
  = match service_definition with
    | [] => Some (composed, cur)
    | _ => Some (fold_left (definition_step load_image) service_definition
                           (add_para (composed, Some cur)
                                     (str "Service Definition")
                                     (Some (str "Heading 2")) 6))
    end.
Proof.
  intros Hv X0 Y0 head composed cur.
  unfold _insert_full_content_block, _insert_numbered_list_block.
  assert (Hlen0 : List.length X0 = insertion_point d after_para).
  { unfold X0. rewrite length_firstn.
    destruct after_para as [i|]; cbn [insertion_point] in *; lia. }
  rewrite (add_para_first d after_para service_title "Heading 1" 16 Hv).
  fold X0 Y0. rewrite <- Hlen0. cbv beta iota.
  rewrite (add_para_written (set_body d _) _ Y0 (List.length X0)
             (str "Short Service Description") "Heading 2" 10 eq_refl)
    by (rewrite length_app; simpl; lia).
  cbv beta iota.
  rewrite (add_para_written (set_body _ _) _ Y0 _ description "Normal" 16 eq_refl)
    by (rewrite !length_app; simpl; lia).
  cbv beta iota.
  rewrite (add_para_written (set_body _ _) _ Y0 _ (str "Key Service Features")
                            "Heading 2" 10 eq_refl)
    by (rewrite !length_app; simpl; lia).
  cbv beta iota.
  rewrite (numbered_from_closed (firstn 10 features) 1 (set_body _ _) _ Y0 _ eq_refl)
    by (rewrite !length_app; simpl; lia).
  cbv beta iota.
  rewrite (insert_written (set_body _ _) _ Y0 _ [] None eq_refl)
    by (rewrite !length_app, numbered_paragraphs_length; simpl; lia).
  cbv beta iota. unfold set_space_after. cbn [body set_body].
  rewrite update_written, !set_body_set_body.
  rewrite (add_para_written (set_body _ _) _ Y0 _ (str "Key Service Benefits")
                            "Heading 2" 8 eq_refl)
    by (rewrite !length_app; simpl; lia).
  cbv beta iota.
  rewrite (numbered_from_closed (firstn 10 benefits) 1 (set_body _ _) _ Y0 _ eq_refl)
    by (rewrite !length_app; simpl; lia).
  cbv beta iota.
  rewrite (insert_written (set_body _ _) _ Y0 _ [] None eq_refl)
    by (rewrite !length_app, !numbered_paragraphs_length; simpl; lia).
  cbv beta iota. cbn [body set_body].
  rewrite update_written, !set_body_set_body.
  match goal with
  | |- context [Some (set_body d (?W ++ Y0), ?cc)] =>
      assert (Hcur : cc = cur)
        by (unfold cur, head, composed_head; rewrite !length_app; simpl; lia);
      assert (HW : W = X0 ++ head)
        by (unfold head, composed_head, styled, spacer;
            rewrite <- !app_assoc; reflexivity);
      rewrite HW, Hcur
  end.
  reflexivity.
Qed.

End TemplateFacts.

Section ReadFacts.

Variable load_image : pystr -> image_result.


End ReadFacts.

(** ** The composed paragraphs as they read *)






(** ** The saved package *)

Module PackageFacts.









End PackageFacts.

Import PackageFacts.



(* ================================================================== *)
(** * Images that fail *)
(* ================================================================== *)

Section ImageFacts.

Variable load_image : pystr -> image_result.








(** A paragraph-level element puts its paragraphs behind [after_para]. *)
Lemma paragraph_level_step (d : document) (after_para last : nat)
      (name : pystr) (attrs : list (pystr * pystr)) (children : list node) :
  paragraph_level name ->
  html_step load_image after_para (d, last) (Tag name attrs children)
  = add_paragraph_with_inlines load_image d after_para (inr children)
                               (element_style name).
Proof.
  intros [Hne Hlist]. unfold html_step, element_style.
  destruct name as [|c name]; [contradiction|].
  destruct (PyStr.eqb (lower (c :: name)) (str "h3")) eqn:E3; [reflexivity|].
  destruct (PyStr.eqb (lower (c :: name)) (str "p")) eqn:Ep; [reflexivity|].
  unfold name_in in Hlist. cbn [existsb] in Hlist.
  apply orb_false_iff in Hlist. destruct Hlist as [Hul Hrest].
  apply orb_false_iff in Hrest. destruct Hrest as [Hol Hrest].
  apply orb_false_iff in Hrest. destruct Hrest as [Hbr _].
  unfold name_in. cbn [existsb]. rewrite Hul, Hol, Hbr. reflexivity.
Qed.





End ImageFacts.




(* ================================================================== *)
(** * Tags outside the grammar *)
(* ================================================================== *)

Section NodeInduction.

Variable P : node -> Prop.
Hypothesis on_string : forall s, P (NavigableString s).
Hypothesis on_comment : forall s, P (Comment s).
Hypothesis on_tag : forall name attrs children,
    Forall P children -> P (Tag name attrs children).


End NodeInduction.





Section FallbackFacts.

Variable load_image : pystr -> image_result.









End FallbackFacts.




(* ================================================================== *)
(** * Images and tables of a subsection *)
(* ================================================================== *)

Lemma definition_step_ignores_media (load_image : pystr -> image_result)
      (st : document * nat) (b : content_block) :
  definition_step load_image st (strip_media b)
  = definition_step load_image st b.
Proof. reflexivity. Qed.

Lemma definition_steps_ignore_media (load_image : pystr -> image_result)
      (blocks : list content_block) (st : document * nat) :
  fold_left (definition_step load_image) (map strip_media blocks) st
  = fold_left (definition_step load_image) blocks st.
Proof.
  revert st. induction blocks as [|b blocks IH]; intros st; [reflexivity|].
  cbn [map fold_left]. rewrite definition_step_ignores_media. apply IH.
Qed.

(** C8 (the code at the failing input): [_insert_full_content_block], the
    composer that [generate_service_description] calls, never reads the
    [images] and the [table] of a block: the composed document is the one
    of the same blocks without them, and for a block with an image that
    loads and a table it holds neither picture nor table. *)
Theorem subsection_media_dropped :
  (forall load_image d after_para service_title description features benefits
          service_definition,
      _insert_full_content_block load_image d after_para service_title
                                 description features benefits service_definition
      = _insert_full_content_block load_image d after_para service_title
                                   description features benefits
                                   (map strip_media service_definition))
  /\ (exists d' last,
        _insert_full_content_block any_image small_template (Some 1)
                                   (str "Cloud Backup") (str "Backups.")
                                   [str "Fast"] [str "Cheap"] [media_block]
        = Some (d', last)
        /\ has_picture d' = false /\ has_table d' = false).
Proof.
  split.
  - intros. unfold _insert_full_content_block.
    repeat match goal with
           | |- context [let '(_, _) := ?x in _] => destruct x
           | |- context [match ?x with (_, _) => _ end] => destruct x
           end.
    destruct o; [|reflexivity].
    repeat match goal with
           | |- context [match ?x with (_, _) => _ end] => destruct x
           end.
    destruct o; [|reflexivity].
    repeat match goal with
           | |- context [match ?x with (_, _) => _ end] => destruct x
           end.
    destruct service_definition as [|b blocks]; [reflexivity|].
    cbn [map]. f_equal.
    change (strip_media b :: map strip_media blocks)
      with (map strip_media (b :: blocks)).
    symmetry. apply definition_steps_ignore_media.
  - eexists _, _. split; [vm_compute; reflexivity|].
    split; vm_compute; reflexivity.
Qed.


(* ================================================================== *)
(** * Worked examples *)
(* ================================================================== *)

Example key_of_final_document :
  build_service_blob_key (str "Cloud Backup") (str "SERVICE DESC") (str "15")
                         (str "2") (str "docx") false
  = str "GCloud 15/PA Services/Cloud Support Services LOT 2/Cloud_Backup/PA GC15 SERVICE DESC Cloud Backup.docx".
Proof. vm_compute. reflexivity. Qed.

Example key_of_draft_document :
  build_service_blob_key (str "Cloud Backup") (str "SERVICE DESC") (str "15")
                         (str "2") (str "docx") true
  = str "GCloud 15/PA Services/Cloud Support Services LOT 2/Cloud_Backup/PA GC15 SERVICE DESC Cloud Backup_draft.docx".
Proof. vm_compute. reflexivity. Qed.

(** The scenario of the specification: two features and one benefit. *)
Example cloud_backup_scenario :
  option_map (fun r => outline (fst r))
    (_insert_full_content_block no_image small_template (Some 1)
       (str "Cloud Backup") (str "Automated backup service.")
       [str "Fast restore"; str "Encrypted"] [str "Lower cost"] [])
  = Some [ (str "Heading 1", str "Add Title");
           (str "Heading 1", str "Contents");
           (str "Heading 1", str "Cloud Backup");
           (str "Heading 2", str "Short Service Description");
           (str "Normal", str "Automated backup service.");
           (str "Heading 2", str "Key Service Features");
           (str "Normal", str "1. Fast restore");
           (str "Normal", str "2. Encrypted");
           (str "Normal", []);
           (str "Heading 2", str "Key Service Benefits");
           (str "Normal", str "1. Lower cost");
           (str "Normal", []);
           (str "Normal", str "Closing words") ].
Proof. vm_compute. reflexivity. Qed.

(** Every paragraph-level element is inserted right after [after_para],
    not after the last one: two paragraphs come out in reverse order. *)
Example two_paragraphs_reversed :
  outline (fst (_insert_html no_image small_template 2 two_paragraphs))
  = [ (str "Heading 1", str "Add Title");
      (str "Heading 1", str "Contents");
      (str "Normal", str "Closing words");
      (str "Normal", str "B");
      (str "Normal", str "A") ].
Proof. vm_compute. reflexivity. Qed.

(** A newline or a carriage return in a text is written as a line break
    between two texts, a tab as a tab element. *)
Example line_ends_written :
  text_items (str "a" ++ [newline] ++ str "b")
  = [RText (str "a"); RBreak; RText (str "b")]
  /\ text_items (str "a" ++ [carriage_return] ++ str "b")
     = [RText (str "a"); RBreak; RText (str "b")]
  /\ text_items (str "a" ++ [tab] ++ str "b")
     = [RText (str "a"); RTab; RText (str "b")]
  /\ para_text (new_paragraph (str "a" ++ [carriage_return] ++ str "b") None)
     = str "a" ++ [newline] ++ str "b".
Proof. repeat split; vm_compute; reflexivity. Qed.

Example unknown_tag_rendered :
  outline (fst (_insert_html no_image small_template 2 unknown_tag))
  = [ (str "Heading 1", str "Add Title");
      (str "Heading 1", str "Contents");
      (str "Normal", str "Closing words");
      (str "Normal", str "hello") ].
Proof. vm_compute. reflexivity. Qed.

(* ================================================================== *)
(** * Further properties of the blob key *)
(* ================================================================== *)

Module WordFacts.

Lemma words_from_pieces (s cur w : pystr) :
  In w (words_from cur s) ->
  w <> [] /\ forall c, In c w -> (In c cur \/ (In c s /\ isspace c = false)).
Proof.
  revert cur. induction s as [|y s IH]; intros cur H.
  - simpl in H. destruct cur as [|a cur]; [contradiction|].
    destruct H as [<-|[]]. split.
    + intros E. apply (f_equal (@List.length ascii)) in E.
      rewrite length_rev in E. discriminate.
    + intros c Hc. left. apply in_rev. assumption.
  - destruct (isspace y) eqn:Ey.
    + rewrite (words_from_space cur y s Ey) in H.
      assert (Hrest : In w (words_from [] s) ->
                      w <> [] /\ forall c, In c w ->
                        In c cur \/ (In c (y :: s) /\ isspace c = false)).
      { intros Hw. destruct (IH [] Hw) as [Hne Hc]. split; [assumption|].
        intros c Hin. destruct (Hc c Hin) as [[]|[H1 H2]].
        right. split; [right|]; assumption. }
      destruct cur as [|a cur]; [exact (Hrest H)|].
      destruct H as [<-|H]; [|exact (Hrest H)]. split.
      * intros E. apply (f_equal (@List.length ascii)) in E.
        rewrite length_rev in E. discriminate.
      * intros c Hc. left. apply in_rev. assumption.
    + rewrite (words_from_nonspace cur y s Ey) in H.
      destruct (IH (y :: cur) H) as [Hne Hc]. split; [assumption|].
      intros c Hin. destruct (Hc c Hin) as [[<-|H1]|[H1 H2]].
      * right. split; [left; reflexivity | assumption].
      * left; assumption.
      * right. split; [right|]; assumption.
Qed.

Lemma words_pieces (s w : pystr) :
  In w (words s) ->
  w <> [] /\ forall c, In c w -> In c s /\ isspace c = false.
Proof.
  intros H. destruct (words_from_pieces s [] w H) as [Hne Hc].
  split; [assumption|]. intros c Hin. destruct (Hc c Hin) as [[]|Hs]. assumption.
Qed.

Lemma words_from_one (s cur : pystr) :
  forallb (fun c => negb (isspace c)) s = true ->
  words_from cur s = match rev cur ++ s with [] => [] | w => [w] end.
Proof.
  revert cur. induction s as [|y s IH]; intros cur H.
  - simpl. rewrite app_nil_r. destruct cur as [|a cur]; [reflexivity|].
    destruct (rev (a :: cur)) eqn:E; [|reflexivity].
    apply (f_equal (@List.length ascii)) in E. rewrite length_rev in E.
    discriminate.
  - simpl in H. apply andb_true_iff in H. destruct H as [Hy Hs].
    apply negb_true_iff in Hy. rewrite (words_from_nonspace cur y s Hy).
    rewrite (IH (y :: cur) Hs). simpl rev. rewrite <- app_assoc. reflexivity.
Qed.

(** A text without whitespace is one word, the empty text none. *)
Lemma words_one (s : pystr) :
  forallb (fun c => negb (isspace c)) s = true ->
  words s = match s with [] => [] | w => [w] end.
Proof.
  intros H. unfold words. rewrite (words_from_one s [] H).
  destruct s; reflexivity.
Qed.

Lemma words_blank (s : pystr) :
  forallb isspace s = true -> words s = [].
Proof.
  intros H. rewrite <- (app_nil_l s). unfold words.
  rewrite (words_from_trailing s [] [] H). reflexivity.
Qed.

Lemma word_not_space (c : ascii) : folder_char c = true -> isspace c = false.
Proof.
  destruct c as [[] [] [] [] [] [] [] []]; vm_compute; congruence.
Qed.

Lemma folder_char_safe (c : ascii) : folder_char c = true -> safe_char c = true.
Proof.
  unfold folder_char, safe_char. intros H.
  apply orb_true_iff in H. destruct H as [->| ->]; [reflexivity|].
  apply orb_true_r.
Qed.

Lemma folder_chars_only (service_name : pystr) :
  forallb folder_char (_normalise_service_folder service_name) = true.
Proof.
  apply forallb_forall. intros c H. rewrite folder_is_joined_words in H.
  apply in_join_inv in H. destruct H as [[<-|[]]|(w & Hw & Hc)]; [reflexivity|].
  apply words_pieces in Hw. destruct Hw as [_ Hw].
  destruct (Hw c Hc) as [Hin Hsp]. apply filter_In in Hin.
  destruct Hin as [_ Hsafe]. unfold safe_char in Hsafe. unfold folder_char.
  rewrite Hsp in Hsafe. destruct (is_word c); [reflexivity|]. exact Hsafe.
Qed.

Lemma forallb_impl {A : Type} (f g : A -> bool) (l : list A) :
  (forall x, f x = true -> g x = true) ->
  forallb f l = true -> forallb g l = true.
Proof.
  intros Hfg H. apply forallb_forall. intros x Hx.
  apply Hfg. revert x Hx. apply forallb_forall. assumption.
Qed.

(** A name made of word characters and hyphens is its own folder name. *)
Lemma folder_of_clean (s : pystr) :
  forallb folder_char s = true -> _normalise_service_folder s = s.
Proof.
  intros H. rewrite folder_is_joined_words.
  rewrite (filter_kept safe_char s (forallb_impl _ _ s folder_char_safe H)).
  rewrite words_one.
  - destruct s; reflexivity.
  - apply (forallb_impl folder_char); [|assumption].
    intros c Hc. rewrite (word_not_space c Hc). reflexivity.
Qed.

Lemma folder_of_unclean (s : pystr) :
  forallb (fun c => negb (folder_char c)) s = true ->
  _normalise_service_folder s = [].
Proof.
  intros H. rewrite folder_is_joined_words. rewrite words_blank; [reflexivity|].
  apply forallb_forall. intros c Hc. apply filter_In in Hc.
  destruct Hc as [Hin Hsafe].
  assert (Hn : negb (folder_char c) = true).
  { exact (proj1 (forallb_forall _ _) H c Hin). }
  apply negb_true_iff in Hn. unfold folder_char in Hn. unfold safe_char in Hsafe.
  apply orb_false_iff in Hn. destruct Hn as [Hw Hh]. rewrite Hw, Hh in Hsafe.
  rewrite orb_false_r in Hsafe. exact Hsafe.
Qed.

End WordFacts.

Import WordFacts.

(** X1.  Normalising a folder name a second time changes nothing:
    [_normalise_service_folder] is idempotent on every service name. *)
Theorem normalise_service_folder_idempotent (service_name : pystr) :
  _normalise_service_folder (_normalise_service_folder service_name)
  = _normalise_service_folder service_name.
Proof. apply folder_of_clean, folder_chars_only. Qed.

(** X2.  A normalised folder name holds word characters (letters, digits,
    underscore) and hyphens only; it holds no whitespace, no path
    separator and no dot, and each of its characters other than the
    underscore is a character of the service name. *)
Theorem normalised_folder_alphabet (service_name : pystr) :
  forallb folder_char (_normalise_service_folder service_name) = true
  /\ forallb (fun c => negb (isspace c) && negb (Ascii.eqb c slash)
                       && negb (Ascii.eqb c dot))
             (_normalise_service_folder service_name) = true
  /\ incl (_normalise_service_folder service_name)
          ("_"%char :: service_name).
Proof.
  split; [apply folder_chars_only|]. split.
  - apply (forallb_impl folder_char); [|apply folder_chars_only].
    intros c Hc. rewrite (word_not_space c Hc).
    destruct (Ascii.eqb c slash) eqn:E1.
    { apply Ascii.eqb_eq in E1. subst c. discriminate Hc. }
    destruct (Ascii.eqb c dot) eqn:E2.
    { apply Ascii.eqb_eq in E2. subst c. discriminate Hc. }
    reflexivity.
  - intros c H. assert (Hc := H). apply folder_chars in H.
    destruct H as [->|[->|[H _]]].
    + left; reflexivity.
    + exfalso. assert (F : folder_char " "%char = true).
      { exact (proj1 (forallb_forall _ _) (folder_chars_only service_name) _ Hc). }
      discriminate F.
    + right; assumption.
Qed.

Module NormalFacts.

Lemma split_piece_free (sep : ascii) (s p : pystr) :
  In p (split sep s) -> ~ In sep p.
Proof.
  revert p. induction s as [|c s IH]; intros p H.
  - destruct H as [<-|[]]. intros [].
  - simpl in H. destruct (Ascii.eqb c sep) eqn:E.
    + destruct H as [<-|H]; [intros []|]. apply IH; assumption.
    + destruct (split_nonempty sep s) as (h & t & Es). rewrite Es in H, IH.
      destruct H as [<-|H].
      * intros [->|Hin].
        -- rewrite Ascii.eqb_refl in E. discriminate.
        -- apply (IH h); [left; reflexivity | assumption].
      * apply IH. right; assumption.
Qed.

Lemma component_normal (x p : pystr) :
  In p (components x) -> normal_segment p.
Proof.
  unfold components. intros H. apply filter_In in H. destruct H as [Hin Hk].
  unfold keeps in Hk. apply andb_true_iff in Hk. destruct Hk as [H1 H2].
  apply negb_true_iff in H1, H2. apply eqb_neq in H1, H2.
  repeat split; try assumption. exact (split_piece_free slash x p Hin).
Qed.

Lemma normal_keeps (p : pystr) : normal_segment p -> keeps p = true.
Proof.
  intros (H1 & H2 & _). unfold keeps.
  apply eqb_neq in H1, H2. rewrite H1, H2. reflexivity.
Qed.

(** Splitting a joined list of separator-free pieces gives the pieces. *)
Lemma split_join (sep : ascii) (p : pystr) (ps : list pystr) :
  Forall (fun x => ~ In sep x) (p :: ps) ->
  split sep (join [sep] (p :: ps)) = p :: ps.
Proof.
  revert p. induction ps as [|q ps IH]; intros p H.
  - simpl. apply split_free. inversion H; assumption.
  - rewrite join_cons_more by discriminate. cbn [app].
    rewrite split_app_sep. inversion H as [|? ? Hp Hrest]; subst.
    rewrite (split_free sep p Hp), (IH q Hrest). reflexivity.
Qed.

Lemma components_join (p : pystr) (ps : list pystr) :
  Forall normal_segment (p :: ps) ->
  components (join [slash] (p :: ps)) = p :: ps.
Proof.
  intros H. unfold components. rewrite split_join.
  - apply filter_kept. apply forallb_forall. intros x Hx.
    apply normal_keeps. exact (proj1 (Forall_forall _ _) H x Hx).
  - apply Forall_forall. intros x Hx.
    destruct (proj1 (Forall_forall _ _) H x Hx) as (_ & _ & Hfree). exact Hfree.
Qed.

(** The segments of the key, the first of them spelled out. *)
Lemma key_segments (sn dt v lot ext : pystr) (draft : bool) :
  exists rest,
    build_service_blob_key sn dt v lot ext draft
    = join [slash] ((str "GCloud " ++ hd [] (split slash v)) :: rest)
    /\ Forall normal_segment ((str "GCloud " ++ hd [] (split slash v)) :: rest).
Proof.
  rewrite key_as_join. unfold folder_parts.
  assert (H1 : components (str "GCloud " ++ v)
               = (str "GCloud " ++ hd [] (split slash v))
                   :: filter keeps (tl (split slash v))).
  { apply components_literal; [apply literal_slash_free; reflexivity | simpl; lia]. }
  assert (Hall : Forall normal_segment
                        ((components (str "GCloud " ++ v)
                          ++ components (str "PA Services")
                          ++ components (str "Cloud Support Services LOT " ++ lot)
                          ++ components (_normalise_service_folder sn))
                         ++ components (blob_filename sn dt v ext draft))).
  { apply Forall_forall. intros x Hx.
    repeat (apply in_app_or in Hx; destruct Hx as [Hx|Hx]);
      exact (component_normal _ x Hx). }
  rewrite H1 in *. cbn [app] in *. eexists. split; [reflexivity | exact Hall].
Qed.

(** A relative path that is the join of its components is its own
    normal form. *)
Lemma path_of_normal (key : pystr) (c : ascii) (r x : pystr) (xs : list pystr) :
  key = c :: r -> c <> slash -> components key = x :: xs ->
  join [slash] (x :: xs) = key ->
  pure_posix_path_str [key] = key.
Proof.
  intros -> Hc Hcomp Hjoin.
  pose proof (pure_posix_path_str_relative c r [] x xs Hc (Forall_nil _) Hcomp)
    as E.
  cbn [flat_map] in E. rewrite app_nil_r, Hcomp in E. exact (eq_trans E Hjoin).
Qed.

End NormalFacts.

Import NormalFacts.

Lemma key_without_folder_holds (sn dt v lot ext : pystr) (draft : bool) :
  slash_free v -> slash_free dt -> slash_free lot -> slash_free sn ->
  slash_free ext -> _normalise_service_folder sn = [] ->
  build_service_blob_key sn dt v lot ext draft
  = key_without_folder sn dt v lot ext draft.
Proof.
  intros Hv Hdt Hlot Hfree Hext Hfolder. rewrite key_as_join. unfold folder_parts.
  rewrite Hfolder, components_nil.
  rewrite (components_free (str "GCloud " ++ v)).
  2: { apply slash_free_app; [apply literal_slash_free; reflexivity | assumption]. }
  2: { apply keeps_long. rewrite length_app. simpl. lia. }
  change (components (str "PA Services")) with [str "PA Services"].
  rewrite (components_free (str "Cloud Support Services LOT " ++ lot)).
  2: { apply slash_free_app; [apply literal_slash_free; reflexivity | assumption]. }
  2: { apply keeps_long. rewrite length_app. simpl. lia. }
  rewrite (components_free (blob_filename sn dt v ext draft)).
  2: { apply filename_slash_free; assumption. }
  2: { apply keeps_long. unfold blob_filename.
       destruct draft; rewrite !length_app; simpl; lia. }
  unfold key_without_folder. cbn [app join]. change [slash] with (str "/").
  rewrite <- !app_assoc. reflexivity.
Qed.

(** X3.  A service name without any letter, digit, underscore or hyphen
    has an empty folder name, and the key then has no service folder
    level: the file sits directly in the lot folder. *)
Theorem key_of_unnameable_service
        (service_name doc_type gcloud_version lot extension : pystr)
        (draft : bool) :
  forallb (fun c => negb (folder_char c)) service_name = true ->
  slash_free gcloud_version -> slash_free doc_type -> slash_free lot ->
  slash_free service_name -> slash_free extension ->
  _normalise_service_folder service_name = []
  /\ build_service_blob_key service_name doc_type gcloud_version lot extension
                            draft
     = key_without_folder service_name doc_type gcloud_version lot extension
                          draft.
Proof.
  intros Hsn Hv Hdt Hlot Hfree Hext.
  pose proof (folder_of_unclean service_name Hsn) as Hfolder.
  split; [assumption|]. apply key_without_folder_holds; assumption.
Qed.

Lemma key_of_unnameable_service_witness :
  _normalise_service_folder (str "!!!") = []
  /\ build_service_blob_key (str "!!!") (str "SERVICE DESC") (str "15")
                            (str "2") (str "docx") false
     = str "GCloud 15/PA Services/Cloud Support Services LOT 2/PA GC15 SERVICE DESC !!!.docx".
Proof.
  destruct (key_of_unnameable_service
              (str "!!!") (str "SERVICE DESC") (str "15") (str "2")
              (str "docx") false) as [Hfolder Hkey];
    try reflexivity;
    try (intros Hin; vm_compute in Hin;
         repeat (destruct Hin as [Hin|Hin]; [discriminate|]); exact Hin).
  split; [exact Hfolder|]. rewrite Hkey. vm_compute. reflexivity.
Defined.

(** X4.  Whatever the arguments, the key is a relative path in normal
    form: it begins with [GCloud ], each of its segments is neither empty
    nor a dot (so there is no leading, trailing or doubled separator), and
    parsing the key as a path again gives the key back. *)
Theorem blob_key_in_normal_form
        (service_name doc_type gcloud_version lot extension : pystr)
        (draft : bool) :
  let key := build_service_blob_key service_name doc_type gcloud_version lot
                                    extension draft in
  startswith (str "GCloud ") key = true
  /\ Forall normal_segment (split slash key)
  /\ pure_posix_path_str [key] = key.
Proof.
  intros key. subst key.
  destruct (key_segments service_name doc_type gcloud_version lot extension draft)
    as (rest & -> & Hnormal).
  assert (Hfree : Forall (fun x => ~ In slash x)
                         ((str "GCloud " ++ hd [] (split slash gcloud_version))
                            :: rest)).
  { apply Forall_forall. intros x Hx.
    destruct (proj1 (Forall_forall _ _) Hnormal x Hx) as (_ & _ & H). exact H. }
  split; [|split].
  - rewrite join_cons, <- app_assoc. apply startswith_app.
  - rewrite split_join; assumption.
  - pose proof (components_join _ rest Hnormal) as Hcomp.
    eapply path_of_normal;
      [ rewrite join_cons; reflexivity | discriminate | exact Hcomp | reflexivity ].
Qed.

(* ================================================================== *)
(** * The names the generator builds *)
(* ================================================================== *)

Module NameFacts.

Lemma word_filename_final (dt v name : pystr) :
  Generator.word_filename dt v name false
  = filename_stem dt v name ++ str ".docx".
Proof.
  unfold Generator.word_filename, filename_stem.
  destruct (PyStr.eqb dt (str "SERVICE DESC")); rewrite <- !app_assoc; reflexivity.
Qed.

Lemma word_filename_draft (dt v name : pystr) :
  contains (str ".docx") (filename_stem dt v name) = false ->
  Generator.word_filename dt v name true
  = filename_stem dt v name ++ str "_draft.docx".
Proof.
  intros H. pose proof (word_filename_final dt v name) as E.
  unfold Generator.word_filename in *. cbv zeta in *. rewrite E.
  apply (replace_tail "." (str "docx") (str "_draft.docx")); [|exact H].
  vm_compute. intros Hin.
  repeat (destruct Hin as [Hin|Hin]; [discriminate|]). exact Hin.
Qed.

(** The generator's name of a service description is the helper's. *)
Lemma word_filename_is_blob_filename (v name : pystr) (draft : bool) :
  contains (str ".docx") (filename_stem (str "SERVICE DESC") v name) = false ->
  Generator.word_filename (str "SERVICE DESC") v name draft
  = blob_filename name (str "SERVICE DESC") v (str "docx") draft.
Proof.
  intros H. destruct draft.
  - rewrite (word_filename_draft _ v name H). unfold filename_stem, blob_filename.
    change (PyStr.eqb (str "SERVICE DESC") (str "SERVICE DESC")) with true.
    cbv iota zeta. rewrite <- !app_assoc. reflexivity.
  - rewrite word_filename_final. unfold filename_stem, blob_filename.
    change (PyStr.eqb (str "SERVICE DESC") (str "SERVICE DESC")) with true.
    cbv iota zeta. rewrite <- !app_assoc. reflexivity.
Qed.

Lemma rev_repeat {A : Type} (a : A) (n : nat) : rev (repeat a n) = repeat a n.
Proof.
  induction n as [|n IH]; [reflexivity|]. simpl. rewrite IH.
  clear IH. induction n as [|n IH]; [reflexivity|]. simpl. rewrite IH. reflexivity.
Qed.

Lemma rstrip_slash_trailing (x : pystr) (c : ascii) (n : nat) :
  c <> slash ->
  Generator.rstrip_slash (x ++ c :: repeat slash n) = x ++ [c].
Proof.
  intros Hc. unfold Generator.rstrip_slash.
  rewrite rev_app_distr. cbn [rev]. rewrite rev_repeat, <- app_assoc. cbn [app].
  induction n as [|n IH].
  - cbn [repeat app]. destruct (Ascii.eqb c "/") eqn:E.
    + apply Ascii.eqb_eq in E. contradiction.
    + rewrite <- (rev_involutive (x ++ [c])). f_equal.
      rewrite rev_app_distr. reflexivity.
  - cbn [repeat app]. change (Ascii.eqb slash "/") with true. cbv iota. exact IH.
Qed.

End NameFacts.

Import NameFacts.

(** X5.  Read back from a blob prefix, the folder name is the last
    segment: for a service name that is not empty and holds no
    separator, any prefix that ends in the name, with or without closing
    separators, gives the name back, and so does the prefix the
    generator builds for the service itself. *)
Theorem azure_folder_name_round_trip
        (default parent service_name : pystr) (n : nat) :
  service_name <> [] -> slash_free service_name ->
  Generator.azure_folder_name default
    (parent ++ slash :: service_name ++ repeat slash n) = service_name
  /\ forall gcloud_version lot,
       Generator.azure_folder_name default
         (Generator.azure_folder_path gcloud_version lot service_name)
       = service_name.
Proof.
  intros Hne Hfree.
  assert (G : forall parent n,
             Generator.azure_folder_name default
               (parent ++ slash :: service_name ++ repeat slash n) = service_name).
  { clear parent n. intros parent n.
    destruct (exists_last Hne) as (x & c & E).
    assert (Hc : c <> slash).
    { intros ->. apply Hfree. rewrite E. apply in_or_app. right. left; reflexivity. }
    unfold Generator.azure_folder_name.
    replace (parent ++ slash :: service_name ++ repeat slash n)
      with ((parent ++ slash :: x) ++ c :: repeat slash n)
      by (rewrite E, <- !app_assoc; reflexivity).
    rewrite (rstrip_slash_trailing _ c n Hc).
    replace ((parent ++ slash :: x) ++ [c]) with (parent ++ slash :: service_name)
      by (rewrite E, <- !app_assoc; reflexivity).
    rewrite split_app_sep, (split_free slash service_name Hfree).
    rewrite rev_app_distr. cbn [rev app find].
    destruct (PyStr.eqb service_name []) eqn:Ee; [|reflexivity].
    apply eqb_eq in Ee. contradiction. }
  split; [apply G|]. intros v lot. unfold Generator.azure_folder_path.
  specialize (G (str "GCloud " ++ v
                 ++ str "/PA Services/Cloud Support Services LOT " ++ lot) 1).
  rewrite <- !app_assoc in G. exact G.
Qed.

Lemma azure_folder_name_round_trip_witness :
  Generator.azure_folder_name (str "fallback")
    (str "GCloud 15/PA Services/Cloud Support Services LOT 2/Cloud Backup//")
  = str "Cloud Backup".
Proof.
  refine (proj1 (azure_folder_name_round_trip
                   (str "fallback")
                   (str "GCloud 15/PA Services/Cloud Support Services LOT 2")
                   (str "Cloud Backup") 2 _ _)).
  - discriminate.
  - intros Hin. vm_compute in Hin.
    repeat (destruct Hin as [Hin|Hin]; [discriminate|]). exact Hin.
Defined.

(** X6.  The draft name of a document is its final name with [_draft] put
    in front of the extension, provided [.docx] occurs nowhere in front
    of the extension (the draft name is made by replacing every [.docx]). *)
Theorem draft_word_filename (doc_type gcloud_version folder_name : pystr) :
  contains (str ".docx") (filename_stem doc_type gcloud_version folder_name)
  = false ->
  Generator.word_filename doc_type gcloud_version folder_name false
  = filename_stem doc_type gcloud_version folder_name ++ str ".docx"
  /\ Generator.word_filename doc_type gcloud_version folder_name true
     = filename_stem doc_type gcloud_version folder_name ++ str "_draft.docx".
Proof.
  intros H. split; [apply word_filename_final | apply word_filename_draft, H].
Qed.

Lemma draft_word_filename_witness :
  Generator.word_filename (str "SERVICE DESC") (str "15") (str "Cloud Backup") false
  = str "PA GC15 SERVICE DESC Cloud Backup.docx"
  /\ Generator.word_filename (str "SERVICE DESC") (str "15") (str "Cloud Backup") true
     = str "PA GC15 SERVICE DESC Cloud Backup_draft.docx".
Proof.
  exact (draft_word_filename (str "SERVICE DESC") (str "15") (str "Cloud Backup")
                             eq_refl).
Defined.

(** A name that holds [.docx] gets the suffix at each occurrence. *)
Example draft_suffix_twice :
  Generator.word_filename (str "SERVICE DESC") (str "15") (str "Notes.docx v2") true
  = str "PA GC15 SERVICE DESC Notes_draft.docx v2_draft.docx".
Proof. vm_compute. reflexivity. Qed.

(** X7.  The key under which the generator uploads a new service
    description is the key [build_service_blob_key] computes exactly when
    the service name is not empty and is its own normalised folder name;
    for any other name (one with a space, say) the two keys differ. *)
Theorem generator_key_matches_helper
        (gcloud_version lot service_name : pystr) (draft : bool) :
  slash_free gcloud_version -> slash_free lot -> slash_free service_name ->
  contains (str ".docx")
           (filename_stem (str "SERVICE DESC") gcloud_version service_name)
  = false ->
  Generator.azure_blob_key gcloud_version lot service_name
    (Generator.word_filename (str "SERVICE DESC") gcloud_version service_name
                             draft)
  = build_service_blob_key service_name (str "SERVICE DESC") gcloud_version lot
                           (str "docx") draft
  <-> (_normalise_service_folder service_name = service_name
       /\ service_name <> []).
Proof.
  intros Hv Hlot Hsn Hstem.
  rewrite (word_filename_is_blob_filename gcloud_version service_name draft Hstem).
  assert (Hdt : slash_free (str "SERVICE DESC"))
    by (apply literal_slash_free; reflexivity).
  assert (Hext : slash_free (str "docx"))
    by (apply literal_slash_free; reflexivity).
  set (F := blob_filename service_name (str "SERVICE DESC") gcloud_version
                          (str "docx") draft).
  unfold Generator.azure_blob_key.
  destruct (_normalise_service_folder service_name) as [|c folder] eqn:Efolder.
  - rewrite (key_without_folder_holds service_name (str "SERVICE DESC")
               gcloud_version lot (str "docx") draft Hv Hdt Hlot Hsn Hext Efolder).
    unfold key_without_folder. fold F. split.
    + intros H. repeat apply app_inv_head in H.
      apply (f_equal (@List.length ascii)) in H.
      rewrite !length_app in H. simpl in H. lia.
    + intros [<- Hne]. contradiction.
  - assert (Hne : _normalise_service_folder service_name <> [])
      by (rewrite Efolder; discriminate).
    rewrite (key_layout_holds service_name (str "SERVICE DESC") gcloud_version
               lot (str "docx") draft Hv Hdt Hlot Hsn Hext Hne).
    unfold key_layout. fold F. rewrite Efolder. split.
    + intros H. repeat apply app_inv_head in H.
      rewrite !app_assoc in H. apply app_inv_tail in H.
      apply app_inv_tail in H. split; [symmetry; exact H|].
      rewrite H. discriminate.
    + intros [<- _]. reflexivity.
Qed.

Lemma generator_key_matches_helper_witness :
  Generator.azure_blob_key (str "15") (str "2") (str "Cloud-Backup")
    (Generator.word_filename (str "SERVICE DESC") (str "15") (str "Cloud-Backup")
                             true)
  = build_service_blob_key (str "Cloud-Backup") (str "SERVICE DESC") (str "15")
                           (str "2") (str "docx") true
  /\ Generator.azure_blob_key (str "15") (str "2") (str "Cloud Backup")
       (Generator.word_filename (str "SERVICE DESC") (str "15")
                                (str "Cloud Backup") true)
     <> build_service_blob_key (str "Cloud Backup") (str "SERVICE DESC")
                               (str "15") (str "2") (str "docx") true.
Proof.
  assert (Hfree : forall s, forallb (fun c => negb (Ascii.eqb c slash)) (str s)
                            = true -> slash_free (str s))
    by apply literal_slash_free.
  split.
  - apply (generator_key_matches_helper (str "15") (str "2") (str "Cloud-Backup")
             true); try (apply Hfree; reflexivity); try reflexivity.
    split; [vm_compute; reflexivity | discriminate].
  - intros H.
    apply (generator_key_matches_helper (str "15") (str "2") (str "Cloud Backup")
             true) in H; try (apply Hfree; reflexivity); try reflexivity.
    destruct H as [H _]. vm_compute in H. discriminate H.
Defined.

(** X8.  The PDF of a final document is addressed beside the document:
    same folder, same name, extension [.pdf], provided [.docx] occurs
    nowhere else in the key (every [.docx] of the key is replaced). *)
Theorem pdf_key_beside_document
        (doc_type gcloud_version lot folder_name : pystr) :
  contains (str ".docx")
           (Generator.azure_folder_path gcloud_version lot folder_name
            ++ filename_stem doc_type gcloud_version folder_name) = false ->
  Generator.pdf_blob_key
    (Generator.azure_blob_key gcloud_version lot folder_name
       (Generator.word_filename doc_type gcloud_version folder_name false))
  = Generator.azure_folder_path gcloud_version lot folder_name
    ++ filename_stem doc_type gcloud_version folder_name ++ str ".pdf".
Proof.
  intros H. rewrite word_filename_final.
  unfold Generator.pdf_blob_key, Generator.azure_blob_key.
  unfold Generator.azure_folder_path in *.
  replace (str "GCloud " ++ gcloud_version
           ++ str "/PA Services/Cloud Support Services LOT " ++ lot
           ++ str "/" ++ folder_name ++ str "/"
           ++ filename_stem doc_type gcloud_version folder_name ++ str ".docx")
    with ((str "GCloud " ++ gcloud_version
           ++ str "/PA Services/Cloud Support Services LOT " ++ lot
           ++ str "/" ++ folder_name ++ str "/"
           ++ filename_stem doc_type gcloud_version folder_name) ++ str ".docx")
    by (rewrite <- !app_assoc; reflexivity).
  rewrite <- !app_assoc in H.
  rewrite (replace_tail "." (str "docx") (str ".pdf")); [| |exact H].
  - rewrite <- !app_assoc. reflexivity.
  - vm_compute. intros Hin.
    repeat (destruct Hin as [Hin|Hin]; [discriminate|]). exact Hin.
Qed.

Lemma pdf_key_beside_document_witness :
  Generator.pdf_blob_key
    (str "GCloud 15/PA Services/Cloud Support Services LOT 2/Cloud Backup/PA GC15 SERVICE DESC Cloud Backup.docx")
  = str "GCloud 15/PA Services/Cloud Support Services LOT 2/Cloud Backup/PA GC15 SERVICE DESC Cloud Backup.pdf".
Proof.
  exact (pdf_key_beside_document (str "SERVICE DESC") (str "15") (str "2")
                                 (str "Cloud Backup") eq_refl).
Defined.

(** A folder name that holds [.docx] sends the PDF to another folder. *)
Example pdf_key_in_other_folder :
  Generator.pdf_blob_key
    (Generator.azure_blob_key (str "15") (str "2") (str "a.docx")
       (Generator.word_filename (str "SERVICE DESC") (str "15") (str "a.docx")
                                false))
  = str "GCloud 15/PA Services/Cloud Support Services LOT 2/a.pdf/PA GC15 SERVICE DESC a.pdf.pdf".
Proof. vm_compute. reflexivity. Qed.

Lemma forallb_firstn {A : Type} (f : A -> bool) (n : nat) (l : list A) :
  forallb f l = true -> forallb f (firstn n l) = true.
Proof.
  revert n. induction l as [|x l IH]; intros [|n] H; try reflexivity.
  simpl in *. apply andb_true_iff in H. destruct H as [-> H]. simpl. auto.
Qed.

Lemma forallb_filter {A : Type} (f : A -> bool) (l : list A) :
  forallb f (filter f l) = true.
Proof.
  apply forallb_forall. intros x H. apply filter_In in H. tauto.
Qed.

(** X9.  The title part of a generated file name is at most 50 characters
    of letters, digits, spaces, hyphens and underscores: it holds no path
    separator and no dot, cleaning it again changes nothing, and with an
    identifier free of separators the file name is one path segment. *)
Theorem safe_title_is_safe (title doc_id : pystr) :
  List.length (Generator.safe_title title) <= 50
  /\ forallb Generator.title_char (Generator.safe_title title) = true
  /\ slash_free (Generator.safe_title title)
  /\ ~ In dot (Generator.safe_title title)
  /\ Generator.safe_title (Generator.safe_title title) = Generator.safe_title title
  /\ (slash_free doc_id ->
      slash_free (Generator.generated_filename title doc_id)).
Proof.
  assert (Hall : forallb Generator.title_char (Generator.safe_title title) = true).
  { unfold Generator.safe_title. apply forallb_firstn, forallb_filter. }
  assert (Hnot : forall c, Generator.title_char c = false ->
                           ~ In c (Generator.safe_title title)).
  { intros c Hc Hin.
    rewrite (proj1 (forallb_forall _ _) Hall c Hin) in Hc. discriminate. }
  split; [apply firstn_le_length|].
  split; [exact Hall|].
  split; [apply Hnot; reflexivity|].
  split; [apply Hnot; reflexivity|].
  split.
  - unfold Generator.safe_title at 1. rewrite (filter_kept _ _ Hall).
    unfold Generator.safe_title. rewrite firstn_firstn. reflexivity.
  - intros Hid. unfold Generator.generated_filename.
    repeat apply slash_free_app;
      try (apply literal_slash_free; reflexivity); try assumption.
    apply Hnot. reflexivity.
Qed.

Lemma safe_title_is_safe_witness :
  Generator.safe_title (str "Cloud/Backup: v2.0") = str "CloudBackup v20"
  /\ slash_free (Generator.generated_filename (str "Cloud/Backup: v2.0")
                                              (str "1a2b3c4d")).
Proof.
  split; [reflexivity|].
  apply (safe_title_is_safe (str "Cloud/Backup: v2.0") (str "1a2b3c4d")).
  apply literal_slash_free. reflexivity.
Defined.

(* ================================================================== *)
(** * Sections of the body *)
(* ================================================================== *)

Module SectionFacts.


Lemma para_position_app (pre post : list block) (h : paragraph) :
  para_position (List.length (block_paragraphs pre)) (pre ++ BPara h :: post)
  = Some (List.length pre).
Proof.
  induction pre as [|b pre IH]; [reflexivity|].
  destruct b as [q|cells|tag]; cbn [app block_paragraphs flat_map List.length
                                    para_position];
    fold (block_paragraphs pre); rewrite IH; reflexivity.
Qed.

Lemma para_position_some (k : nat) (bs : list block) :
  k < List.length (block_paragraphs bs) ->
  exists pre h post,
    bs = pre ++ BPara h :: post
    /\ List.length (block_paragraphs pre) = k
    /\ nth_error (block_paragraphs bs) k = Some h.
Proof.
  revert k. induction bs as [|b bs IH]; intros k H; [simpl in H; lia|].
  destruct b as [q|cells|tag].
  - destruct k as [|k].
    + exists [], q, bs. repeat split.
    + simpl in H. destruct (IH k) as (pre & h & post & -> & Hl & Hn); [lia|].
      exists (BPara q :: pre), h, post. repeat split.
      * simpl. rewrite Hl. reflexivity.
      * exact Hn.
  - destruct (IH k H) as (pre & h & post & -> & Hl & Hn).
    exists (BTable cells :: pre), h, post. repeat split; assumption.
  - destruct (IH k H) as (pre & h & post & -> & Hl & Hn).
    exists (BOther tag :: pre), h, post. repeat split; assumption.
Qed.

Lemma para_position_none (k : nat) (bs : list block) :
  List.length (block_paragraphs bs) <= k -> para_position k bs = None.
Proof.
  revert k. induction bs as [|b bs IH]; intros k H; [reflexivity|].
  destruct b as [q|cells|tag]; simpl in *.
  - destruct k as [|k]; [lia|]. rewrite IH; [reflexivity | lia].
  - rewrite IH; [reflexivity | assumption].
  - rewrite IH; [reflexivity | assumption].
Qed.

(** Every list of blocks is a heading-free part and a rest at a heading. *)
Lemma section_split (d : document) (bs : list block) :
  bs = Generator.until_next_heading d bs ++ from_next_heading d bs
  /\ heading_free d (Generator.until_next_heading d bs)
  /\ at_heading d (from_next_heading d bs).
Proof.
  unfold heading_free.
  induction bs as [|b bs (IH1 & IH2 & IH3)]; [repeat split|].
  destruct b as [q|cells|tag]; cbn [Generator.until_next_heading from_next_heading].
  - destruct (is_heading d q) eqn:E.
    + repeat split. exact E.
    + cbn [app forallb heading_block]. rewrite E, IH2, <- IH1. repeat split.
      exact IH3.
  - cbn [app forallb heading_block]. rewrite IH2, <- IH1. repeat split. exact IH3.
  - cbn [app forallb heading_block]. rewrite IH2, <- IH1. repeat split. exact IH3.
Qed.

Lemma section_found (d : document) (sec rest : list block) :
  heading_free d sec -> at_heading d rest ->
  Generator.until_next_heading d (sec ++ rest) = sec
  /\ from_next_heading d (sec ++ rest) = rest.
Proof.
  unfold heading_free. intros Hsec Hrest. induction sec as [|b sec IH].
  - cbn [app]. destruct rest as [|b rest]; [split; reflexivity|].
    destruct b as [q|cells|tag]; simpl in Hrest; try discriminate.
    cbn [Generator.until_next_heading from_next_heading]. rewrite Hrest.
    split; reflexivity.
  - cbn [forallb] in Hsec. apply andb_true_iff in Hsec.
    destruct Hsec as [Hb Hsec]. destruct (IH Hsec) as [IH1 IH2].
    apply negb_true_iff in Hb.
    destruct b as [q|cells|tag];
      cbn [app Generator.until_next_heading from_next_heading];
      [simpl in Hb; rewrite Hb|..]; rewrite IH1, IH2; split; reflexivity.
Qed.

(** Every paragraph of the body opens a section. *)
Lemma section_exists (d : document) (idx : nat) :
  idx < List.length (paragraphs d) ->
  exists pre h sec rest,
    section_at d idx pre h sec rest
    /\ nth_error (paragraphs d) idx = Some h.
Proof.
  intros H. destruct (para_position_some idx (body d) H)
    as (pre & h & post & Hb & Hl & Hn).
  destruct (section_split d post) as (Hpost & Hsec & Hrest).
  exists pre, h, (Generator.until_next_heading d post), (from_next_heading d post).
  split; [|exact Hn]. repeat split; try assumption.
  rewrite <- Hpost. exact Hb.
Qed.

Lemma skipn_after (pre : list block) (b : block) (post : list block) :
  skipn (S (List.length pre)) (pre ++ b :: post) = post
  /\ firstn (List.length pre) (pre ++ b :: post) = pre
  /\ firstn (S (List.length pre)) (pre ++ b :: post) = pre ++ [b]
  /\ skipn (List.length pre) (pre ++ b :: post) = b :: post.
Proof.
  induction pre as [|x pre (IH1 & IH2 & IH3 & IH4)]; [repeat split|].
  cbn [List.length app]. repeat split.
  - exact IH1.
  - cbn [firstn]. rewrite IH2. reflexivity.
  - change (firstn (S (S (List.length pre))) (x :: pre ++ b :: post))
      with (x :: firstn (S (List.length pre)) (pre ++ b :: post)).
    rewrite IH3. reflexivity.
  - exact IH4.
Qed.

Lemma remove_at_section (d : document) (idx : nat) (pre : list block)
      (h : paragraph) (sec rest : list block) :
  section_at d idx pre h sec rest ->
  Generator._remove_heading_block d idx = Some (set_body d (pre ++ rest)).
Proof.
  intros (Hb & Hl & Hsec & Hrest). unfold Generator._remove_heading_block.
  rewrite Hb, <- Hl, para_position_app.
  destruct (skipn_after pre (BPara h) (sec ++ rest)) as (-> & -> & _).
  rewrite (proj2 (section_found d sec rest Hsec Hrest)). reflexivity.
Qed.

Lemma clear_at_section (d : document) (idx : nat) (pre : list block)
      (h : paragraph) (sec rest : list block) :
  section_at d idx pre h sec rest ->
  _clear_section_after_heading d idx
  = Some (set_body d (pre ++ BPara h :: rest)).
Proof.
  intros (Hb & Hl & Hsec & Hrest). unfold _clear_section_after_heading.
  rewrite Hb, <- Hl, para_position_app.
  destruct (skipn_after pre (BPara h) (sec ++ rest)) as (-> & _ & -> & _).
  rewrite (proj2 (section_found d sec rest Hsec Hrest)), <- app_assoc.
  reflexivity.
Qed.

Lemma heading_free_set_body (d : document) (bs sec : list block) :
  heading_free (set_body d bs) sec <-> heading_free d sec.
Proof. reflexivity. Qed.

Lemma subsequence_refl {A : Type} (l : list A) : subsequence l l.
Proof. induction l; constructor; assumption. Qed.

Lemma subsequence_trans {A : Type} (a b c : list A) :
  subsequence a b -> subsequence b c -> subsequence a c.
Proof.
  intros Hab Hbc. revert a Hab. induction Hbc as [|x l l' H IH|x l l' H IH];
    intros a Hab.
  - exact Hab.
  - inversion Hab; subst.
    + apply sub_keep. apply IH. assumption.
    + apply sub_drop. apply IH. assumption.
  - apply sub_drop. apply IH. assumption.
Qed.

Lemma subsequence_without (A : Type) (pre mid rest : list A) :
  subsequence (pre ++ rest) (pre ++ mid ++ rest).
Proof.
  induction pre as [|x pre IH]; cbn [app]; [|apply sub_keep; exact IH].
  induction mid as [|y mid IH]; cbn [app];
    [apply subsequence_refl | apply sub_drop; exact IH].
Qed.

End SectionFacts.

Import SectionFacts.

Lemma found_in_range {A : Type} (f : A -> bool) (l : list A) (i : nat) :
  find_from f 0 l = Some i ->
  i < List.length l /\ exists x, nth_error l i = Some x /\ f x = true.
Proof.
  intros H. pose proof (find_from_first_match A f l) as Hm. rewrite H in Hm.
  destruct Hm as [(x & Hx & Hf) _]. split; [|exists x; split; assumption].
  apply nth_error_Some. rewrite Hx. discriminate.
Qed.

(** X10.  [_remove_heading_block] takes out the paragraph with the given
    number together with its section, that is the blocks (paragraphs,
    tables, others) up to the next heading paragraph or the end of the
    body; everything in front of the paragraph and everything from the
    next heading on stays.  A number past the last paragraph is an
    [IndexError]. *)
Theorem remove_heading_block_spec (d : document) (idx : nat) :
  (List.length (paragraphs d) <= idx ->
   Generator._remove_heading_block d idx = None)
  /\ (idx < List.length (paragraphs d) ->
      exists pre h sec rest, section_at d idx pre h sec rest
                             /\ nth_error (paragraphs d) idx = Some h)
  /\ (forall pre h sec rest,
        section_at d idx pre h sec rest ->
        Generator._remove_heading_block d idx
        = Some (set_body d (pre ++ rest))).
Proof.
  split; [|split].
  - intros H. unfold Generator._remove_heading_block.
    rewrite (para_position_none idx (body d) H). reflexivity.
  - apply section_exists.
  - apply remove_at_section.
Qed.

Lemma remove_heading_block_spec_witness :
  Generator._remove_heading_block sectioned_template 1
  = Some (mk_doc (str "Normal")
            [ BPara (mk_para (Some (str "Title")) [plain_run (str "Proposal")] None);
              BPara (mk_para (Some (str "Heading 2")) [plain_run (str "About PA")] None);
              BPara (mk_para None [plain_run (str "Who we are")] None) ]).
Proof.
  refine (proj2 (proj2 (remove_heading_block_spec sectioned_template 1))
            [BPara (mk_para (Some (str "Title")) [plain_run (str "Proposal")] None)]
            (mk_para (Some (str "Heading 1")) [plain_run (str "Overview")] None)
            [BPara (mk_para None [plain_run (str "Some words")] None);
             BTable [[str "a"; str "b"]]]
            [BPara (mk_para (Some (str "Heading 2")) [plain_run (str "About PA")] None);
             BPara (mk_para None [plain_run (str "Who we are")] None)] _).
  repeat split; reflexivity.
Defined.

(** X11.  [_clear_section_after_heading] empties the section of the
    paragraph with the given number and keeps the paragraph itself, what
    stands in front of it and what follows from the next heading on;
    clearing a second time changes nothing.  A number past the last
    paragraph is an [IndexError]. *)
Theorem clear_section_after_heading_spec (d : document) (idx : nat) :
  (List.length (paragraphs d) <= idx ->
   _clear_section_after_heading d idx = None)
  /\ (forall pre h sec rest,
        section_at d idx pre h sec rest ->
        _clear_section_after_heading d idx
        = Some (set_body d (pre ++ BPara h :: rest)))
  /\ (forall d', _clear_section_after_heading d idx = Some d' ->
                 _clear_section_after_heading d' idx = Some d').
Proof.
  split; [|split].
  - intros H. unfold _clear_section_after_heading.
    rewrite (para_position_none idx (body d) H). reflexivity.
  - apply clear_at_section.
  - intros d' H.
    destruct (Nat.le_gt_cases (List.length (paragraphs d)) idx) as [Hout|Hin].
    { unfold _clear_section_after_heading in H.
      rewrite (para_position_none idx (body d) Hout) in H. discriminate. }
    destruct (section_exists d idx Hin) as (pre & h & sec & rest & Hs & _).
    rewrite (clear_at_section d idx pre h sec rest Hs) in H.
    inversion H; subst d'. clear H.
    destruct Hs as (Hb & Hl & Hsec & Hrest).
    rewrite (clear_at_section (set_body d (pre ++ BPara h :: rest)) idx
               pre h [] rest); [reflexivity|].
    repeat split; assumption.
Qed.

Lemma clear_section_after_heading_spec_witness :
  _clear_section_after_heading sectioned_template 1
  = Some (mk_doc (str "Normal")
            [ BPara (mk_para (Some (str "Title")) [plain_run (str "Proposal")] None);
              BPara (mk_para (Some (str "Heading 1")) [plain_run (str "Overview")] None);
              BPara (mk_para (Some (str "Heading 2")) [plain_run (str "About PA")] None);
              BPara (mk_para None [plain_run (str "Who we are")] None) ]).
Proof.
  refine (proj1 (proj2 (clear_section_after_heading_spec sectioned_template 1))
            [BPara (mk_para (Some (str "Title")) [plain_run (str "Proposal")] None)]
            (mk_para (Some (str "Heading 1")) [plain_run (str "Overview")] None)
            [BPara (mk_para None [plain_run (str "Some words")] None);
             BTable [[str "a"; str "b"]]]
            [BPara (mk_para (Some (str "Heading 2")) [plain_run (str "About PA")] None);
             BPara (mk_para None [plain_run (str "Who we are")] None)] _).
  repeat split; reflexivity.
Defined.

(** X12.  [_extract_heading_block] looks for the first heading paragraph
    whose text holds the wanted text, letter case ignored.  When there is
    none, nothing is detached and the document stays as it is; otherwise
    the heading and its section are detached, in order, and the document
    keeps what stood in front of the heading and what follows from the
    next heading on. *)
Theorem extract_heading_block_spec (d : document) (heading_text : pystr) :
  (_find_heading_element d heading_text = None ->
   Generator._extract_heading_block d heading_text = ([], d))
  /\ (forall idx,
        _find_heading_element d heading_text = Some idx ->
        exists pre h sec rest,
          section_at d idx pre h sec rest
          /\ is_heading d h = true
          /\ contains (lower heading_text) (lower (para_text h)) = true
          /\ Generator._extract_heading_block d heading_text
             = (BPara h :: sec, set_body d (pre ++ rest))).
Proof.
  split.
  - intros H. unfold Generator._extract_heading_block. rewrite H. reflexivity.
  - intros idx H. unfold Generator._extract_heading_block. rewrite H.
    unfold _find_heading_element in H. apply found_in_range in H.
    destruct H as (Hlt & x & Hx & Hf).
    destruct (section_exists d idx Hlt) as (pre & h & sec & rest & Hs & Hn).
    rewrite Hx in Hn. inversion Hn; subst x. clear Hn.
    apply andb_true_iff in Hf. destruct Hf as [Hhead Htext].
    exists pre, h, sec, rest. repeat split; try assumption; try apply Hs.
    destruct Hs as (Hb & Hl & Hsec & Hrest).
    rewrite Hb, <- Hl, para_position_app.
    destruct (skipn_after pre (BPara h) (sec ++ rest)) as (_ & -> & _ & ->).
    destruct (section_found d sec rest Hsec Hrest) as [-> ->]. reflexivity.
Qed.

Lemma extract_heading_block_spec_witness :
  exists pre h sec rest,
    section_at sectioned_template 3 pre h sec rest
    /\ is_heading sectioned_template h = true
    /\ contains (lower (str "about pa")) (lower (para_text h)) = true
    /\ Generator._extract_heading_block sectioned_template (str "about pa")
       = (BPara h :: sec, set_body sectioned_template (pre ++ rest)).
Proof.
  exact (proj2 (extract_heading_block_spec sectioned_template (str "about pa"))
               3 eq_refl).
Defined.

(** X13.  [_remove_sections] never raises: a heading that is found is
    always in range for [_remove_heading_block].  It only takes blocks
    out: what is left is the old body with some blocks missing, in the old
    order, and the default style is the same. *)
Theorem remove_sections_only_removes (headings : list pystr) (d : document) :
  exists d',
    Generator._remove_sections d headings = Some d'
    /\ subsequence (body d') (body d)
    /\ default_style d' = default_style d.
Proof.
  revert d. induction headings as [|h headings IH]; intros d.
  - exists d. repeat split. apply subsequence_refl.
  - cbn [Generator._remove_sections].
    destruct (_find_heading_index d h) as [idx|] eqn:E; [|apply IH].
    unfold _find_heading_index in E. apply found_in_range in E.
    destruct E as (Hlt & _).
    destruct (section_exists d idx Hlt) as (pre & p & sec & rest & Hs & _).
    rewrite (remove_at_section d idx pre p sec rest Hs).
    destruct (IH (set_body d (pre ++ rest))) as (d' & -> & Hsub & Hstyle).
    exists d'. repeat split; [|exact Hstyle].
    apply (subsequence_trans _ _ _ Hsub).
    destruct Hs as (-> & _). cbn [body set_body].
    apply (subsequence_without block pre (BPara p :: sec) rest).
Qed.

(* ================================================================== *)
(** * Titles *)
(* ================================================================== *)

Module TitleFacts.

Lemma title_first_split (d : document) (t : pystr) (pre post : list block)
      (p : paragraph) :
  is_h1 d p = true ->
  (forall q, In (BPara q) pre -> is_h1 d q = false) ->
  Generator.title_first d t (pre ++ BPara p :: post)
  = Some (pre ++ BPara (Pricing.titled t p) :: post).
Proof.
  intros Hp. induction pre as [|b pre IH]; intros Hpre;
    cbn [app Generator.title_first].
  - unfold is_h1 in Hp. rewrite Hp. reflexivity.
  - assert (Hrest : forall q, In (BPara q) pre -> is_h1 d q = false)
      by (intros q Hq; apply Hpre; right; assumption).
    destruct b as [q|cells|tag]; rewrite (IH Hrest); cbn [option_map];
      try reflexivity.
    assert (Hq : is_h1 d q = false) by (apply Hpre; left; reflexivity).
    unfold is_h1 in Hq. rewrite Hq. reflexivity.
Qed.

Lemma generator_title_split (d : document) (t : pystr) (pre post : list block)
      (p : paragraph) :
  body d = pre ++ BPara p :: post ->
  is_h1 d p = true ->
  (forall q, In (BPara q) pre -> is_h1 d q = false) ->
  Generator._replace_title d t
  = set_body d (pre ++ BPara (Pricing.titled t p) :: post).
Proof.
  intros Hb Hp Hpre. unfold Generator._replace_title.
  rewrite Hb, (title_first_split d t pre post p Hp Hpre). reflexivity.
Qed.

(** The first [Heading 1] paragraph of a document that has one. *)
Lemma heading1_split (d : document) (heading : pystr) :
  Pricing.heading1_text d = Some heading ->
  exists pre p post,
    body d = pre ++ BPara p :: post
    /\ para_text p = heading
    /\ is_h1 d p = true
    /\ forall q, In (BPara q) pre -> is_h1 d q = false.
Proof.
  unfold Pricing.heading1_text, paragraphs. intros Hh.
  destruct (find _ _) as [p|] eqn:Hfind; [|discriminate].
  simpl in Hh. inversion Hh; subst heading; clear Hh.
  destruct (first_h1_split d (body d) p Hfind) as (pre & post & Hb & Hp & Hpre).
  exists pre, p, post. repeat split; assumption.
Qed.

Lemma heading1_of_split (d : document) (pre post : list block) (p : paragraph) :
  is_h1 d p = true ->
  (forall q, In (BPara q) pre -> is_h1 d q = false) ->
  Pricing.heading1_text (set_body d (pre ++ BPara p :: post))
  = Some (para_text p).
Proof.
  intros Hp Hpre. unfold Pricing.heading1_text, paragraphs.
  cbn [body set_body].
  change (find (fun q => PyStr.eqb (style_name (set_body d (pre ++ BPara p :: post)) q)
                                   (str "Heading 1")))
    with (find (is_h1 d)).
  rewrite (paragraphs_split d pre post p Hp Hpre). reflexivity.
Qed.

End TitleFacts.

Import TitleFacts.

(** X14.  In a document that has a [Heading 1] paragraph,
    [DocumentGenerator._replace_title] makes the first of them read the
    new title (a carriage return in it reads back as the newline it is
    written as), whatever it read before, and changes no other block;
    replacing the title again with the same text changes nothing. *)
Theorem generator_title_replaced (d : document) (new_title heading : pystr) :
  Pricing.heading1_text d = Some heading ->
  Pricing.heading1_text (Generator._replace_title d new_title)
  = Some (as_read new_title)
  /\ (exists pre p post,
        body d = pre ++ BPara p :: post
        /\ body (Generator._replace_title d new_title)
           = pre ++ BPara (Pricing.titled new_title p) :: post)
  /\ default_style (Generator._replace_title d new_title) = default_style d
  /\ Generator._replace_title (Generator._replace_title d new_title) new_title
     = Generator._replace_title d new_title.
Proof.
  intros Hh.
  destruct (heading1_split d heading Hh) as (pre & p & post & Hb & _ & Hp & Hpre).
  rewrite (generator_title_split d new_title pre post p Hb Hp Hpre).
  assert (Hp' : is_h1 d (Pricing.titled new_title p) = true) by exact Hp.
  split; [|split; [|split]].
  - rewrite (heading1_of_split d pre post _ Hp' Hpre).
    rewrite para_text_titled. reflexivity.
  - exists pre, p, post. split; [exact Hb | reflexivity].
  - reflexivity.
  - rewrite (generator_title_split
               (set_body d (pre ++ BPara (Pricing.titled new_title p) :: post))
               new_title pre post (Pricing.titled new_title p) eq_refl Hp' Hpre).
    reflexivity.
Qed.

Lemma generator_title_replaced_witness :
  Pricing.heading1_text
    (Generator._replace_title sectioned_template (str "Cloud Backup"))
  = Some (str "Cloud Backup").
Proof.
  exact (proj1 (generator_title_replaced sectioned_template (str "Cloud Backup")
                                         (str "Overview") eq_refl)).
Defined.

(** X15.  In a document that has a [Heading 1] paragraph, the pricing
    [_replace_title] leaves a heading that holds the service name: the
    trimmed old heading when the name was in it already, else the trimmed
    old heading, [ - ] and the name, a carriage return reading back as
    the newline it is written as.  No other block changes. *)
Theorem pricing_title_holds_name (d : document) (service_name heading : pystr) :
  Pricing.heading1_text d = Some heading ->
  exists heading',
    Pricing.heading1_text (Pricing._replace_title d service_name)
    = Some heading'
    /\ contains (as_read service_name) heading' = true
    /\ heading' = as_read (if contains service_name (strip heading)
                           then strip heading
                           else strip heading ++ str " - " ++ service_name)
    /\ exists pre p post,
         body d = pre ++ BPara p :: post
         /\ body (Pricing._replace_title d service_name)
            = pre ++ BPara (Pricing.titled heading' p) :: post.
Proof.
  intros Hh.
  destruct (heading1_split d heading Hh) as (pre & p & post & Hb & Ht & Hp & Hpre).
  rewrite (replace_title_split d service_name pre post p Hb Hp Hpre).
  assert (Hp' : is_h1 d (Pricing.retitle service_name p) = true)
    by (rewrite is_h1_retitle; exact Hp).
  rewrite (heading1_of_split d pre post _ Hp' Hpre).
  unfold Pricing.retitle. rewrite Ht.
  destruct (contains service_name (strip heading)) eqn:E; cbn [negb];
    eexists; (split; [rewrite para_text_titled; reflexivity|]);
    (split; [|split; [reflexivity|]]).
  - apply contains_iff in E. destruct E as (a & b & E). rewrite E.
    apply contains_iff. exists (as_read a), (as_read b).
    rewrite !as_read_app. reflexivity.
  - exists pre, p, post. split; [exact Hb|].
    cbn [body set_body]. rewrite titled_as_read. reflexivity.
  - apply contains_iff. exists (as_read (strip heading ++ str " - ")), [].
    rewrite app_nil_r, <- as_read_app, <- app_assoc. reflexivity.
  - exists pre, p, post. split; [exact Hb|].
    cbn [body set_body]. rewrite titled_as_read. reflexivity.
Qed.

Lemma pricing_title_holds_name_witness :
  exists heading',
    Pricing.heading1_text
      (Pricing._replace_title sectioned_template (str "Cloud Backup"))
    = Some heading'
    /\ contains (str "Cloud Backup") heading' = true
    /\ heading' = str "Overview - Cloud Backup"
    /\ exists pre p post,
         body sectioned_template = pre ++ BPara p :: post
         /\ body (Pricing._replace_title sectioned_template (str "Cloud Backup"))
            = pre ++ BPara (Pricing.titled heading' p) :: post.
Proof.
  exact (pricing_title_holds_name sectioned_template (str "Cloud Backup")
                                  (str "Overview") eq_refl).
Defined.

(* ================================================================== *)
(** * Inserted lists *)
(* ================================================================== *)

Module ListFacts.






End ListFacts.

Import ListFacts.





(* ================================================================== *)
(** * Rendered HTML *)
(* ================================================================== *)

Lemma cut_at {A : Type} (F X : list A) :
  firstn (List.length F) (F ++ X) = F /\ skipn (List.length F) (F ++ X) = X.
Proof.
  induction F as [|x F [IH1 IH2]]; [split; reflexivity|].
  cbn [List.length app firstn skipn]. rewrite IH1. split; [reflexivity | exact IH2].
Qed.

Section OrderFacts.

Variable load_image : pystr -> image_result.

Lemma paragraph_element_step (d : document) (after_para last : nat) (el : node) :
  after_para < List.length (body d) ->
  paragraph_element el ->
  body (fst (html_step load_image after_para (d, last) el))
  = firstn (S after_para) (body d)
    ++ rendered_group load_image el
    ++ skipn (S after_para) (body d)
  /\ default_style (fst (html_step load_image after_para (d, last) el))
     = default_style d.
Proof.
  intros Hv Hel. destruct el as [s|s|name attrs children].
  - unfold html_step. simpl in Hel.
    destruct (strip s) eqn:E; [contradiction|].
    rewrite (add_paragraph_with_text_closed load_image d after_para s Hv).
    split; reflexivity.
  - unfold html_step. simpl in Hel.
    destruct (strip s) eqn:E; [contradiction|].
    rewrite (add_paragraph_with_text_closed load_image d after_para s Hv).
    split; reflexivity.
  - simpl in Hel.
    rewrite (paragraph_level_step load_image d after_para last name attrs children Hel).
    rewrite (add_paragraph_with_inlines_closed load_image d after_para children
               _ Hv).
    cbn [fst body set_body rendered_group]. rewrite <- !app_assoc.
    split; reflexivity.
Qed.

Lemma paragraph_elements_reversed (after_para : nat) (soup : list node) :
  Forall paragraph_element soup ->
  forall d last F M Y,
    body d = F ++ M ++ Y -> List.length F = S after_para ->
    body (fst (fold_left (html_step load_image after_para) soup (d, last)))
    = F ++ flat_map (rendered_group load_image) (rev soup) ++ M ++ Y.
Proof.
  induction 1 as [|el soup Hel Hsoup IH]; intros d last F M Y Hb HF.
  - cbn [fold_left fst rev flat_map app]. exact Hb.
  - cbn [fold_left].
    assert (Hv : after_para < List.length (body d))
      by (rewrite Hb, length_app; lia).
    destruct (paragraph_element_step d after_para last el Hv Hel) as [Hstep _].
    destruct (html_step load_image after_para (d, last) el) as [d1 last1].
    cbn [fst] in Hstep.
    assert (Hf : firstn (S after_para) (body d) = F).
    { rewrite Hb, <- HF. apply cut_at. }
    assert (Hs : skipn (S after_para) (body d) = M ++ Y).
    { rewrite Hb, <- HF. apply cut_at. }
    rewrite Hf, Hs in Hstep.
    rewrite (IH d1 last1 F (rendered_group load_image el ++ M) Y);
      [ | rewrite Hstep, <- app_assoc; reflexivity | exact HF ].
    cbn [rev]. rewrite flat_map_app. cbn [flat_map].
    rewrite app_nil_r, <- !app_assoc. reflexivity.
Qed.

End OrderFacts.

(** X18.  [_insert_html] only adds paragraphs, and only behind the
    paragraph it is given: the blocks up to that paragraph are the same,
    every block of the document is still there, the paragraph it returns
    is one of the body at or behind the given one, and the default style
    is kept. *)
Theorem insert_html_only_adds (load_image : pystr -> image_result)
        (d : document) (after_para : nat) (soup : list node) :
  after_para < List.length (body d) ->
  firstn (S after_para)
         (body (fst (_insert_html load_image d after_para soup)))
  = firstn (S after_para) (body d)
  /\ (forall b, In b (body d) ->
                In b (body (fst (_insert_html load_image d after_para soup))))
  /\ List.length (body d)
     <= List.length (body (fst (_insert_html load_image d after_para soup)))
  /\ after_para <= snd (_insert_html load_image d after_para soup)
  /\ snd (_insert_html load_image d after_para soup)
     < List.length (body (fst (_insert_html load_image d after_para soup)))
  /\ default_style (fst (_insert_html load_image d after_para soup))
     = default_style d.
Proof.
  intros Hv.
  destruct (_insert_html_keeps load_image d after_para soup Hv)
    as ((Hfirst & Hrest & Hlen) & Hle & Hlt & Hstyle).
  repeat split; try assumption.
  intros b Hb. rewrite <- (firstn_skipn (S after_para) (body d)) in Hb.
  apply in_app_or in Hb. destruct Hb as [Hb|Hb].
  - rewrite <- Hfirst in Hb.
    rewrite <- (firstn_skipn (S after_para) (body (fst _))).
    apply in_or_app. left. exact Hb.
  - rewrite <- (firstn_skipn (S after_para) (body (fst _))).
    apply in_or_app. right. apply Hrest. exact Hb.
Qed.

Lemma insert_html_only_adds_witness :
  firstn 2 (body (fst (_insert_html (fun _ => FetchError) sectioned_template 1
                                    [Tag (str "p") [] [NavigableString (str "A")]])))
  = firstn 2 (body sectioned_template).
Proof.
  refine (proj1 (insert_html_only_adds (fun _ => FetchError) sectioned_template 1
                   [Tag (str "p") [] [NavigableString (str "A")]] _)).
  vm_compute. lia.
Defined.

(** X19.  The elements that [_insert_html] renders as paragraphs of their
    own (strings that are not blank, and tags other than [ul], [ol],
    [br]) all go directly behind the paragraph the function was given, so
    that they stand in the body in the reverse of their order in the
    HTML; the paragraphs of one element keep their order. *)
Theorem insert_html_reverses_paragraphs
        (load_image : pystr -> image_result)
        (d : document) (after_para : nat) (soup : list node) :
  after_para < List.length (body d) ->
  Forall paragraph_element soup ->
  body (fst (_insert_html load_image d after_para soup))
  = firstn (S after_para) (body d)
    ++ flat_map (rendered_group load_image) (rev soup)
    ++ skipn (S after_para) (body d).
Proof.
  intros Hv Hsoup. unfold _insert_html.
  rewrite (paragraph_elements_reversed load_image after_para soup Hsoup
             d after_para (firstn (S after_para) (body d)) []
             (skipn (S after_para) (body d))).
  - reflexivity.
  - cbn [app]. symmetry. apply firstn_skipn.
  - rewrite length_firstn. lia.
Qed.

Lemma insert_html_reverses_paragraphs_witness :
  map (fun p => para_text p)
      (paragraphs
         (fst (_insert_html (fun _ => FetchError) sectioned_template 5
                 [ Tag (str "h3") [] [NavigableString (str "First")];
                   Tag (str "p") [] [NavigableString (str "Second")];
                   NavigableString (str "Third") ])))
  = [ str "Proposal"; str "Overview"; str "Some words"; str "About PA";
      str "Who we are"; str "Third"; str "Second"; str "First" ].
Proof.
  unfold paragraphs.
  rewrite (insert_html_reverses_paragraphs (fun _ => FetchError)
             sectioned_template 5).
  - vm_compute. reflexivity.
  - vm_compute. lia.
  - repeat constructor; try discriminate.
Defined.

(* ================================================================== *)
(** * Locating headings *)
(* ================================================================== *)

Lemma contains_lower (needle text : pystr) :
  contains needle text = true -> contains (lower needle) (lower text) = true.
Proof.
  intros H. apply contains_iff in H. destruct H as (a & b & ->).
  apply contains_iff. exists (lower a), (lower b).
  unfold lower. rewrite !map_app. reflexivity.
Qed.

Lemma find_from_weaker {A : Type} (f g : A -> bool) (l : list A) :
  (forall x, f x = true -> g x = true) ->
  forall k i, find_from f k l = Some i ->
              exists j, find_from g k l = Some j /\ k <= j /\ j <= i.
Proof.
  intros Hfg. induction l as [|x l IH]; intros k i H; [discriminate|].
  cbn [find_from] in *. destruct (g x) eqn:Eg.
  - exists k. repeat split; [lia|].
    destruct (f x); [inversion H; lia|].
    destruct (IH (S k) i H) as (j & _ & Hk & Hj). lia.
  - destruct (f x) eqn:Ef; [rewrite (Hfg x Ef) in Eg; discriminate|].
    destruct (IH (S k) i H) as (j & Hj & Hk & Hi).
    exists j. repeat split; [assumption | lia | lia].
Qed.

(** X20.  For texts made of the characters up to U+00FF, on which
    [str.lower] works character by character: a heading that
    [_find_heading_index] finds is found by [_find_heading_element] too,
    at the same paragraph or an earlier one, because the second search
    ignores letter case and so accepts every paragraph the first one
    accepts.  (Beyond that range the lower-case form of a character can
    depend on its neighbours, and the statement is not made.) *)
Theorem heading_element_not_later (d : document) (heading_text : pystr)
        (i : nat) :
  _find_heading_index d heading_text = Some i ->
  exists j, _find_heading_element d heading_text = Some j /\ j <= i.
Proof.
  intros H. unfold _find_heading_index in H. unfold _find_heading_element.
  destruct (find_from_weaker
              (fun p => is_heading d p && contains heading_text (para_text p))
              (fun p => is_heading d p
                        && contains (lower heading_text) (lower (para_text p)))
              (paragraphs d)) with (k := 0) (i := i) as (j & Hj & _ & Hle).
  - intros p Hp. apply andb_true_iff in Hp. destruct Hp as [-> Hp].
    rewrite (contains_lower _ _ Hp). reflexivity.
  - exact H.
  - exists j. split; assumption.
Qed.

Lemma heading_element_not_later_witness :
  exists j, _find_heading_element sectioned_template (str "About PA") = Some j
            /\ j <= 3.
Proof.
  exact (heading_element_not_later sectioned_template (str "About PA") 3 eq_refl).
Defined.

(* ================================================================== *)
(** * The composed document and its template *)
(* ================================================================== *)

(** X21.  [_insert_full_content_block] keeps the template: the blocks in
    front of the insertion point are the same, every block of the
    template is still in the document, and the paragraph it returns is
    one of the body.  Without a service definition the composed blocks
    stand exactly at the insertion point, nothing else is added, and the
    closing spacer is returned; with one, the heading
    [Service Definition] follows the composed blocks. *)
Theorem composed_document_keeps_template
        (load_image : pystr -> image_result) (d : document)
        (after_para : option nat) (service_title description : pystr)
        (features benefits : list pystr)
        (service_definition : list content_block) :
  match after_para with
  | Some i => i < List.length (body d)
  | None => True
  end ->
  exists d' last,
    _insert_full_content_block load_image d after_para service_title
                               description features benefits service_definition
    = Some (d', last)
    /\ firstn (insertion_point d after_para) (body d')
       = firstn (insertion_point d after_para) (body d)
    /\ (forall b, In b (body d) -> In b (body d'))
    /\ last < List.length (body d')
    /\ default_style d' = default_style d
    /\ match service_definition with
       | [] =>
           body d'
           = firstn (insertion_point d after_para) (body d)
             ++ composed_head service_title description features benefits
             ++ skipn (insertion_point d after_para) (body d)
           /\ S last
              = insertion_point d after_para
                + List.length (composed_head service_title description
                                             features benefits)
       | _ =>
           exists rest,
             body d'
             = firstn (insertion_point d after_para) (body d)
               ++ composed_head service_title description features benefits
               ++ styled (str "Service Definition") "Heading 2" 6 :: rest
       end.
Proof.
  intros Hv.
  rewrite (composed_head_written load_image d after_para service_title
             description features benefits service_definition Hv).
  set (X0 := firstn (insertion_point d after_para) (body d)).
  set (Y0 := skipn (insertion_point d after_para) (body d)).
  set (head := composed_head service_title description features benefits).
  assert (Hlen0 : List.length X0 = insertion_point d after_para).
  { unfold X0. rewrite length_firstn.
    destruct after_para as [i|]; cbn [insertion_point] in *; lia. }
  assert (Hhead : 0 < List.length head)
    by (unfold head, composed_head; rewrite !length_app; simpl; lia).
  assert (Hbody : body d = X0 ++ Y0) by (symmetry; apply firstn_skipn).
  destruct service_definition as [|block blocks].
  - eexists _, _. split; [reflexivity|]. cbn [body set_body].
    rewrite <- app_assoc. split; [|split; [|split; [|split; [|split]]]].
    + rewrite <- Hlen0. apply cut_at.
    + intros b Hb. rewrite Hbody in Hb. apply in_app_or in Hb.
      apply in_or_app. destruct Hb as [Hb|Hb]; [left; exact Hb|].
      right. apply in_or_app. right. exact Hb.
    + rewrite !length_app. lia.
    + reflexivity.
    + reflexivity.
    + rewrite length_app. lia.
  - set (sd := block :: blocks).
    assert (Hc : S (List.length (X0 ++ head) - 1) = List.length (X0 ++ head))
      by (rewrite length_app; lia).
    rewrite (add_para_written (set_body d ((X0 ++ head) ++ Y0)) (X0 ++ head) Y0
               _ (str "Service Definition") "Heading 2" 6 eq_refl Hc).
    rewrite set_body_set_body.
    set (W := (X0 ++ head) ++ [styled (str "Service Definition") "Heading 2" 6]).
    set (d1 := set_body d (W ++ Y0)).
    assert (HW : List.length W = S (List.length (X0 ++ head)))
      by (unfold W; rewrite (length_app (X0 ++ head)); simpl; lia).
    assert (Hv1 : List.length (X0 ++ head) < List.length (body d1))
      by (unfold d1; cbn [body set_body]; rewrite (length_app W Y0); lia).
    pose proof (definition_steps_keep load_image sd d1 d1 _ _ Hv1
                  (keeps_unchanged _ _ d1 (le_n _) Hv1)) as Hfin.
    destruct (fold_left (definition_step load_image) sd
                        (d1, List.length (X0 ++ head))) as [d' last].
    destruct Hfin as ((Hfirst & Hrest & Hlen) & Hle & Hlt & Hstyle).
    cbn [fst snd] in *.
    assert (Hfirst' : firstn (List.length W) (body d') = W).
    { rewrite HW, Hfirst. unfold d1. cbn [body set_body].
      rewrite <- HW. apply cut_at. }
    assert (Hd' : body d' = W ++ skipn (List.length W) (body d')).
    { rewrite <- (firstn_skipn (List.length W) (body d')) at 1.
      rewrite Hfirst'. reflexivity. }
    exists d', last. split; [reflexivity|].
    split; [|split; [|split; [|split]]].
    + rewrite Hd'. unfold W. rewrite <- !app_assoc, <- Hlen0. apply cut_at.
    + intros b Hb. rewrite Hbody in Hb. apply in_app_or in Hb.
      rewrite Hd'. apply in_or_app. destruct Hb as [Hb|Hb].
      * left. unfold W. apply in_or_app. left. apply in_or_app. left. exact Hb.
      * right. rewrite HW. apply Hrest. unfold d1. cbn [body set_body].
        rewrite <- HW. rewrite (proj2 (cut_at W Y0)). exact Hb.
    + exact Hlt.
    + exact Hstyle.
    + exists (skipn (List.length W) (body d')). rewrite Hd' at 1.
      unfold W. rewrite <- !app_assoc. reflexivity.
Qed.

Lemma composed_document_keeps_template_witness :
  exists d' last,
    _insert_full_content_block (fun _ => FetchError) sectioned_template (Some 1)
                               (str "Cloud Backup") (str "Backs up.")
                               [str "fast"] [str "safe"] []
    = Some (d', last)
    /\ body d'
       = firstn 2 (body sectioned_template)
         ++ composed_head (str "Cloud Backup") (str "Backs up.")
                          [str "fast"] [str "safe"]
         ++ skipn 2 (body sectioned_template)
    /\ last = 10.
Proof.
  destruct (composed_document_keeps_template
              (fun _ => FetchError) sectioned_template (Some 1)
              (str "Cloud Backup") (str "Backs up.") [str "fast"] [str "safe"] [])
    as (d' & last & E & _ & _ & _ & _ & Hb & Hl).
  - vm_compute. lia.
  - exists d', last. split; [exact E|]. split; [exact Hb|].
    vm_compute in Hl. inversion Hl. reflexivity.
Defined.

(* ================================================================== *)
(** * The validators of the request *)
(* ================================================================== *)

Module RequestFacts.

Lemma lstrip_nospace (s : pystr) :
  forallb (fun c => negb (isspace c)) s = true -> lstrip s = s.
Proof.
  destruct s as [|c s]; [reflexivity|]. simpl. intros H.
  apply andb_true_iff in H. destruct H as [H _].
  apply negb_true_iff in H. rewrite H. reflexivity.
Qed.

Lemma strip_nospace (s : pystr) :
  forallb (fun c => negb (isspace c)) s = true -> strip s = s.
Proof.
  intros H. unfold strip, rstrip. rewrite (lstrip_nospace s H).
  rewrite lstrip_nospace; [apply rev_involutive|].
  apply forallb_forall. intros c Hc. apply in_rev in Hc.
  exact (proj1 (forallb_forall _ _) H c Hc).
Qed.

Lemma digit_not_space (c : ascii) :
  Request.is_digit c = true -> negb (isspace c) = true.
Proof.
  destruct c as [[] [] [] [] [] [] [] []]; vm_compute; congruence.
Qed.

Lemma drop_digits_all (s : pystr) :
  forallb Request.is_digit s = true -> Request.drop_digits s = [].
Proof.
  induction s as [|c s IH]; [reflexivity|]. simpl. intros H.
  apply andb_true_iff in H. destruct H as [-> H]. apply IH, H.
Qed.

End RequestFacts.

Import RequestFacts.

(** X23.  A title that [validate_title] accepts comes back trimmed, with
    the same words, at most ten of them, and without whitespace at either
    end; validating the result again accepts it unchanged.  A title is
    rejected exactly when it has more than ten words. *)
Theorem validated_title_is_stable (v : pystr) :
  (Request.validate_title v = None <-> 10 < List.length (words v))
  /\ (forall t,
        Request.validate_title v = Some t ->
        t = strip v
        /\ words t = words v
        /\ List.length (words t) <= 10
        /\ lstrip t = t /\ rstrip t = t
        /\ Request.validate_title t = Some t).
Proof.
  unfold Request.validate_title. split.
  - destruct (Nat.ltb_spec 10 (List.length (words v))); split;
      try discriminate; try reflexivity; intros; lia.
  - intros t H. destruct (Nat.ltb_spec 10 (List.length (words v))) as [|Hle];
      [discriminate|].
    inversion H; subst t. clear H.
    repeat split.
    + apply words_strip.
    + rewrite words_strip. exact Hle.
    + apply lstrip_strip.
    + apply rstrip_strip.
    + rewrite words_strip, strip_idem.
      destruct (Nat.ltb_spec 10 (List.length (words v))); [lia | reflexivity].
Qed.

Lemma validated_title_is_stable_witness :
  Request.validate_title (str "  Cloud Backup ") = Some (str "Cloud Backup")
  /\ Request.validate_title (str "Cloud Backup") = Some (str "Cloud Backup").
Proof.
  split; [reflexivity|].
  exact (proj2 (proj2 (proj2 (proj2 (proj2
           (proj2 (validated_title_is_stable (str "  Cloud Backup "))
                  (str "Cloud Backup") eq_refl)))))).
Defined.

(** X24.  An item that [validate_list_items] accepts comes back trimmed and
    otherwise as it was written: a leading number is left out of the word
    count only, not out of the item.  The result is not empty and is
    accepted unchanged when validated again.  An item that is nothing but
    a number is rejected as empty. *)
Theorem validated_item_keeps_prefix (v : pystr) :
  (forall t,
     Request.validate_list_items v = Some t ->
     t = strip v
     /\ t <> []
     /\ 1 <= Request.word_count (Request.strip_number_prefix t) <= 10
     /\ Request.validate_list_items t = Some t)
  /\ (forallb Request.is_digit v = true ->
      Request.validate_list_items v = None).
Proof.
  unfold Request.validate_list_items. cbv zeta. split.
  - intros t H.
    destruct (Nat.ltb_spec 10 (Request.word_count
                                 (Request.strip_number_prefix (strip v))))
      as [|Hle]; [discriminate|].
    destruct (Nat.ltb_spec (Request.word_count
                              (Request.strip_number_prefix (strip v))) 1)
      as [|Hge]; [discriminate|].
    inversion H; subst t. clear H. repeat split; try assumption.
    + intros E. rewrite E in Hge. vm_compute in Hge. lia.
    + rewrite strip_idem.
      destruct (Nat.ltb_spec 10 (Request.word_count
                                   (Request.strip_number_prefix (strip v))));
        [lia|].
      destruct (Nat.ltb_spec (Request.word_count
                                (Request.strip_number_prefix (strip v))) 1);
        [lia | reflexivity].
  - intros Hd.
    assert (Hns : forallb (fun c => negb (isspace c)) v = true)
      by (apply (forallb_impl Request.is_digit); [apply digit_not_space | exact Hd]).
    rewrite (strip_nospace v Hns). unfold Request.strip_number_prefix.
    rewrite (lstrip_nospace v Hns). destruct v as [|c v]; [reflexivity|].
    simpl in Hd. apply andb_true_iff in Hd. destruct Hd as [Hc Hd].
    rewrite Hc, (drop_digits_all v Hd). reflexivity.
Qed.

Lemma validated_item_keeps_prefix_witness :
  Request.validate_list_items (str " 1. Fast restore ") = Some (str "1. Fast restore")
  /\ Request.validate_list_items (str "1. Fast restore") = Some (str "1. Fast restore")
  /\ Request.validate_list_items (str "2024") = None.
Proof.
  split; [reflexivity|]. split.
  - exact (proj2 (proj2 (proj2
             (proj1 (validated_item_keeps_prefix (str " 1. Fast restore "))
                    (str "1. Fast restore") eq_refl)))).
  - exact (proj2 (validated_item_keeps_prefix (str "2024")) eq_refl).
Defined.

(* ================================================================== *)
(** * Fields *)
(* ================================================================== *)

(** X25.  After [_enable_update_fields_on_open] the settings hold exactly
    one [w:updateFields] element, the new one with [w:val] true, as their
    last child; every other setting stays, in its order; and enabling a
    second time changes nothing. *)
Theorem update_fields_enabled_once (settings : list Settings.setting) :
  filter Settings.is_update_fields
         (Settings._enable_update_fields_on_open settings)
  = [Settings.update_fields]
  /\ filter (fun el => negb (Settings.is_update_fields el))
            (Settings._enable_update_fields_on_open settings)
     = filter (fun el => negb (Settings.is_update_fields el)) settings
  /\ last (Settings._enable_update_fields_on_open settings) Settings.update_fields
     = Settings.update_fields
  /\ Settings._enable_update_fields_on_open
       (Settings._enable_update_fields_on_open settings)
     = Settings._enable_update_fields_on_open settings.
Proof.
  unfold Settings._enable_update_fields_on_open.
  set (others := filter (fun el => negb (Settings.is_update_fields el)) settings).
  assert (Hothers : forallb (fun el => negb (Settings.is_update_fields el)) others
                    = true) by apply forallb_filter.
  assert (Hnone : filter Settings.is_update_fields others = []).
  { clear -Hothers. induction others as [|x l IH]; [reflexivity|].
    cbn [forallb] in Hothers. apply andb_true_iff in Hothers.
    destruct Hothers as [Hx Hl]. apply negb_true_iff in Hx.
    cbn [filter]. rewrite Hx. apply IH, Hl. }
  assert (Hkeep : filter (fun el => negb (Settings.is_update_fields el))
                         (others ++ [Settings.update_fields]) = others).
  { rewrite filter_app, (filter_kept _ _ Hothers). apply app_nil_r. }
  split; [|split; [|split]].
  - rewrite filter_app, Hnone. reflexivity.
  - exact Hkeep.
  - apply last_last.
  - rewrite Hkeep. reflexivity.
Qed.

(* ================================================================== *)
(** * The title and the sections that are rebuilt *)
(* ================================================================== *)

Lemma heading_outside_section (d : document) (idx : nat) (pre : list block)
      (h : paragraph) (sec rest : list block) (q : paragraph) :
  section_at d idx pre h sec rest ->
  In (BPara q) (body d) -> is_heading d q = true -> q <> h ->
  In (BPara q) (pre ++ rest).
Proof.
  intros (Hb & _ & Hsec & _) Hin Hq Hne. rewrite Hb in Hin.
  apply in_app_or in Hin. apply in_or_app.
  destruct Hin as [Hin|[Hin|Hin]]; [left; exact Hin | |].
  - inversion Hin. congruence.
  - apply in_app_or in Hin. destruct Hin as [Hin|Hin]; [|right; exact Hin].
    exfalso. pose proof (proj1 (forallb_forall _ _) Hsec _ Hin) as Hx.
    cbn [heading_block] in Hx. rewrite Hq in Hx. discriminate.
Qed.

Lemma unnamed_heading_stays (headings : list pystr) (d : document)
      (q : paragraph) :
  In (BPara q) (body d) -> is_heading d q = true ->
  (forall h, In h headings -> contains h (para_text q) = false) ->
  exists d', Generator._remove_sections d headings = Some d'
             /\ In (BPara q) (body d')
             /\ default_style d' = default_style d.
Proof.
  revert d. induction headings as [|h headings IH]; intros d Hin Hq Hfree.
  - exists d. repeat split. exact Hin.
  - assert (Hrest : forall h', In h' headings -> contains h' (para_text q) = false)
      by (intros h' Hh'; apply Hfree; right; exact Hh').
    cbn [Generator._remove_sections].
    destruct (_find_heading_index d h) as [idx|] eqn:E; [|apply IH; assumption].
    unfold _find_heading_index in E. apply found_in_range in E.
    destruct E as (Hlt & x & Hx & Hf).
    destruct (section_exists d idx Hlt) as (pre & p & sec & rest & Hs & Hn).
    rewrite Hx in Hn. inversion Hn; subst x. clear Hn.
    rewrite (remove_at_section d idx pre p sec rest Hs).
    apply andb_true_iff in Hf. destruct Hf as [_ Hf].
    assert (Hne : q <> p).
    { intros ->. rewrite (Hfree h (or_introl eq_refl)) in Hf. discriminate. }
    destruct (IH (set_body d (pre ++ rest))) as (d' & Hd' & Hin' & Hstyle).
    + exact (heading_outside_section d idx pre p sec rest q Hs Hin Hq Hne).
    + exact Hq.
    + exact Hrest.
    + exists d'. repeat split; assumption.
Qed.

(** X27.  [_remove_sections] keeps every heading paragraph whose text
    holds none of the names it is given.  So the title that
    [_replace_title] has just written into the first [Heading 1] is still
    in the document after the four rebuilt sections are removed, provided
    the title, as it reads back (a carriage return as the newline it is
    written as), holds none of their names. *)
Theorem title_survives_removal (d : document) (title heading : pystr)
        (headings : list pystr) :
  Pricing.heading1_text d = Some heading ->
  (forall h, In h headings -> contains h (as_read title) = false) ->
  exists d' p,
    Generator._remove_sections (Generator._replace_title d title) headings
    = Some d'
    /\ In (BPara p) (body d')
    /\ para_text p = as_read title
    /\ style_name d' p = str "Heading 1".
Proof.
  intros Hh Hfree.
  destruct (heading1_split d heading Hh) as (pre & p & post & Hb & _ & Hp & Hpre).
  rewrite (generator_title_split d title pre post p Hb Hp Hpre).
  destruct (unnamed_heading_stays headings
              (set_body d (pre ++ BPara (Pricing.titled title p) :: post))
              (Pricing.titled title p)) as (d' & Hd' & Hin & Hstyle).
  - cbn [body set_body]. apply in_or_app. right. left. reflexivity.
  - unfold is_heading. change (style_name _ (Pricing.titled title p))
      with (style_name d p).
    unfold is_h1 in Hp. apply eqb_eq in Hp. rewrite Hp. reflexivity.
  - intros h Hin. rewrite para_text_titled. apply Hfree, Hin.
  - exists d', (Pricing.titled title p). split; [exact Hd'|].
    split; [exact Hin|]. split; [apply para_text_titled|].
    unfold is_h1 in Hp. apply eqb_eq in Hp.
    unfold style_name in *. cbn [Pricing.titled p_style].
    rewrite Hstyle. exact Hp.
Qed.

Lemma title_survives_removal_witness :
  exists d' p,
    Generator._remove_sections
      (Generator._replace_title sectioned_template (str "Cloud Backup"))
      rebuilt_sections
    = Some d'
    /\ In (BPara p) (body d')
    /\ para_text p = str "Cloud Backup"
    /\ style_name d' p = str "Heading 1".
Proof.
  apply (title_survives_removal sectioned_template (str "Cloud Backup")
                                (str "Overview") rebuilt_sections eq_refl).
  intros h Hin. unfold rebuilt_sections in Hin.
  repeat (destruct Hin as [<-|Hin]; [reflexivity|]). destruct Hin.
Defined.

(** A title that holds the name of a rebuilt section is removed with the
    section it seems to open. *)
Example title_removed_with_section :
  option_map outline
    (Generator._remove_sections
       (Generator._replace_title sectioned_template
                                 (str "Service Definition Toolkit"))
       rebuilt_sections)
  = Some [ (str "Title", str "Proposal");
           (str "Heading 2", str "About PA");
           (str "Normal", str "Who we are") ].
Proof. vm_compute. reflexivity. Qed.

(** A title that holds [about pa], in any letter case, is taken for the
    closing section and detached with what follows it. *)
Example title_taken_for_about_pa :
  map (fun b => match b with BPara p => para_text p | _ => [] end)
      (fst (Generator._extract_heading_block
              (Generator._replace_title sectioned_template
                                        (str "All About Payments"))
              (str "About PA")))
  = [ str "All About Payments"; str "Some words"; [] ].
Proof. vm_compute. reflexivity. Qed.

Module FallbackTitleFacts.

Lemma find_nothing {A : Type} (f : A -> bool) (l : list A) :
  (forall x, In x l -> f x = false) -> find f l = None.
Proof.
  induction l as [|x l IH]; intros H; [reflexivity|].
  cbn [find]. rewrite (H x (or_introl eq_refl)).
  apply IH. intros y Hy. apply H. right; exact Hy.
Qed.

Lemma title_first_none (d : document) (t : pystr) (bs : list block) :
  find (is_h1 d) (block_paragraphs bs) = None ->
  Generator.title_first d t bs = None.
Proof.
  induction bs as [|b bs IH]; [reflexivity|].
  destruct b as [q|cells|tag]; cbn [block_paragraphs flat_map app find
                                    Generator.title_first];
    fold (block_paragraphs bs).
  - unfold is_h1 at 1. destruct (PyStr.eqb (style_name d q) (str "Heading 1"));
      [discriminate|].
    intros H. rewrite (IH H). reflexivity.
  - intros H. rewrite (IH H). reflexivity.
  - intros H. rewrite (IH H). reflexivity.
Qed.

Lemma fallback_runs_none (t : pystr) (rs : list run) :
  (forall r ph, In r rs -> In ph Generator.placeholders ->
                contains ph (run_text r) = false) ->
  Generator.fallback_runs t rs = None.
Proof.
  induction rs as [|r rs IH]; intros H; [reflexivity|].
  cbn [Generator.fallback_runs]. unfold Generator.fallback_run.
  rewrite find_nothing.
  - rewrite IH; [reflexivity|]. intros r' ph Hr. apply H. right; exact Hr.
  - intros ph Hph. apply H; [left; reflexivity | exact Hph].
Qed.

Lemma fallback_blocks_none (t : pystr) (bs : list block) :
  (forall p r ph, In p (block_paragraphs bs) -> In r (p_runs p) ->
                  In ph Generator.placeholders ->
                  contains ph (run_text r) = false) ->
  Generator.fallback_blocks t bs = None.
Proof.
  induction bs as [|b bs IH]; intros H; [reflexivity|].
  assert (Hrest : forall p r ph, In p (block_paragraphs bs) -> In r (p_runs p) ->
                                 In ph Generator.placeholders ->
                                 contains ph (run_text r) = false).
  { intros p r ph Hp. apply H. unfold block_paragraphs. cbn [flat_map].
    apply in_or_app. right. exact Hp. }
  destruct b as [q|cells|tag]; cbn [Generator.fallback_blocks];
    rewrite (IH Hrest); try reflexivity.
  rewrite fallback_runs_none; [reflexivity|].
  intros r ph. apply H. left. reflexivity.
Qed.

End FallbackTitleFacts.

Import FallbackTitleFacts.

(** X28.  [DocumentGenerator._replace_title] leaves a document alone that
    has no [Heading 1] paragraph and no run holding one of the five
    title markers: nothing is added and nothing is rewritten. *)
Theorem replace_title_without_target (d : document) (new_title : pystr) :
  Pricing.heading1_text d = None ->
  marker_less d Generator.placeholders ->
  Generator._replace_title d new_title = d.
Proof.
  intros Hh Hm. unfold Generator._replace_title.
  rewrite title_first_none.
  - rewrite fallback_blocks_none; [reflexivity | exact Hm].
  - unfold Pricing.heading1_text in Hh.
    destruct (find _ (paragraphs d)) eqn:E; [discriminate | exact E].
Qed.

Lemma replace_title_without_target_witness :
  Generator._replace_title
    (mk_doc (str "Normal")
       [ BPara (mk_para (Some (str "Heading 2")) [plain_run (str "Overview")] None);
         BTable [[str "Add Title"]] ])
    (str "Cloud Backup")
  = mk_doc (str "Normal")
      [ BPara (mk_para (Some (str "Heading 2")) [plain_run (str "Overview")] None);
        BTable [[str "Add Title"]] ].
Proof.
  apply replace_title_without_target; [reflexivity|].
  intros p r ph Hp Hr Hph. cbn in Hp. destruct Hp as [<-|[]].
  cbn in Hr. destruct Hr as [<-|[]].
  unfold Generator.placeholders in Hph.
  repeat (destruct Hph as [<-|Hph]; [reflexivity|]). destruct Hph.
Defined.

(* ================================================================== *)
(** * Rendered lists *)
(* ================================================================== *)

(** X29.  A [ul] or [ol] at the top of the HTML becomes one paragraph per
    [li] child, in the order of the items, directly behind the paragraph
    [_insert_html] was given: [List Bullet] for [ul], [List Number] for
    [ol], each holding the flattened text of its item.  Children of the
    list that are not [li] elements leave nothing, and the last item is
    returned. *)
Theorem insert_html_list_in_order
        (load_image : pystr -> image_result) (d : document) (after_para : nat)
        (name : pystr) (attrs : list (pystr * pystr)) (children : list node) :
  after_para < List.length (body d) ->
  name_in (lower name) [str "ul"; str "ol"] = true ->
  _insert_html load_image d after_para [Tag name attrs children]
  = (set_body d (firstn (S after_para) (body d)
                 ++ map (li_paragraph (lower name)) (li_children children)
                 ++ skipn (S after_para) (body d)),
     after_para + List.length (li_children children)).
Proof.
  intros Hv Hname. unfold _insert_html. cbn [fold_left]. unfold html_step.
  destruct name as [|c name]; [discriminate Hname|].
  assert (H3 : PyStr.eqb (lower (c :: name)) (str "h3") = false).
  { destruct (PyStr.eqb (lower (c :: name)) (str "h3")) eqn:E; [|reflexivity].
    apply eqb_eq in E. rewrite E in Hname. discriminate Hname. }
  assert (Hp : PyStr.eqb (lower (c :: name)) (str "p") = false).
  { destruct (PyStr.eqb (lower (c :: name)) (str "p")) eqn:E; [|reflexivity].
    apply eqb_eq in E. rewrite E in Hname. discriminate Hname. }
  rewrite H3, Hp, Hname.
  apply (list_items_closed (lower (c :: name)) (li_children children) d
                           after_para Hv).
Qed.

Lemma insert_html_list_in_order_witness :
  map (fun p => (style_name sectioned_template p, para_text p))
      (paragraphs
         (fst (_insert_html (fun _ => FetchError) sectioned_template 5
                 [Tag (str "OL") []
                      [ Tag (str "li") [] [NavigableString (str "one")];
                        NavigableString (str "stray");
                        Tag (str "li") []
                            [Tag (str "b") [] [NavigableString (str "two")]] ]])))
  = [ (str "Title", str "Proposal"); (str "Heading 1", str "Overview");
      (str "Normal", str "Some words"); (str "Heading 2", str "About PA");
      (str "Normal", str "Who we are");
      (str "List Number", str "one"); (str "List Number", str "two") ].
Proof.
  rewrite (insert_html_list_in_order (fun _ => FetchError) sectioned_template 5
             (str "OL") [] _).
  - vm_compute. reflexivity.
  - vm_compute. lia.
  - reflexivity.
Defined.

(* ================================================================== *)
(** * The marker of the closing section *)
(* ================================================================== *)

Module MarkerFacts.

Lemma take_marker_unfold (marker t : pystr) (text : option pystr)
      (children : list element) :
  Marker.take_marker marker (Element t text children)
  = if Marker.is_text_element t && Marker.holds_marker marker text
    then Some (Element t (option_map (replace marker []) text) children,
               Marker.anchor t)
    else match take_first marker children with
         | Some (children', a) =>
             Some (Element t text children', a || Marker.anchor t)
         | None => None
         end.
Proof.
  cbn [Marker.take_marker].
  destruct (Marker.is_text_element t && Marker.holds_marker marker text);
    [reflexivity|].
  match goal with
  | |- match ?f children with _ => _ end = _ =>
      assert (E : f children = take_first marker children)
  end.
  { induction children as [|c cs IH]; [reflexivity|].
    cbn [take_first]. destruct (Marker.take_marker marker c) as [[c' a]|];
      [reflexivity|].
    rewrite IH. reflexivity. }
  rewrite E. reflexivity.
Qed.

Lemma take_first_spec (marker : pystr) (cs : list element) :
  Forall (fun c =>
            match Marker.take_marker marker c with
            | Some (c', _) => marked marker c = true /\ without_t c' = without_t c
            | None => marked marker c = false
            end) cs ->
  match take_first marker cs with
  | Some (cs', _) =>
      existsb (marked marker) cs = true /\ map without_t cs' = map without_t cs
  | None => existsb (marked marker) cs = false
  end.
Proof.
  induction 1 as [|c cs Hc Hcs IH]; [reflexivity|].
  cbn [take_first existsb].
  destruct (Marker.take_marker marker c) as [[c' a]|].
  - destruct Hc as [Hm Hw]. rewrite Hm. cbn [map]. rewrite Hw. split; reflexivity.
  - rewrite Hc. cbn [orb].
    destruct (take_first marker cs) as [[cs' a]|].
    + destruct IH as [Hm Hw]. cbn [map]. rewrite Hw. split; [exact Hm | reflexivity].
    + exact IH.
Qed.

Lemma take_marker_spec (marker : pystr) (e : element) :
  match Marker.take_marker marker e with
  | Some (e', _) => marked marker e = true /\ without_t e' = without_t e
  | None => marked marker e = false
  end.
Proof.
  induction e as [t text children IH] using element_ind'.
  rewrite take_marker_unfold. cbn [marked].
  destruct (Marker.is_text_element t && Marker.holds_marker marker text) eqn:E.
  - split; [reflexivity|]. apply andb_true_iff in E. destruct E as [E _].
    cbn [without_t]. rewrite E. reflexivity.
  - cbn [orb]. pose proof (take_first_spec marker children IH) as H.
    destruct (take_first marker children) as [[children' a]|]; [|exact H].
    destruct H as [Hm Hw]. split; [exact Hm|].
    cbn [without_t]. rewrite Hw. reflexivity.
Qed.

Lemma split_at_marker_spec (marker : pystr) (children : list element) :
  match Marker.split_at_marker marker children with
  | Some (pre, tail, _) =>
      exists c c' post,
        children = pre ++ c :: post /\ tail = c' :: post
        /\ forallb (fun x => negb (marked marker x)) pre = true
        /\ marked marker c = true
        /\ without_t c' = without_t c
  | None => forallb (fun x => negb (marked marker x)) children = true
  end.
Proof.
  induction children as [|c rest IH]; [reflexivity|].
  cbn [Marker.split_at_marker]. pose proof (take_marker_spec marker c) as Hc.
  destruct (Marker.take_marker marker c) as [[c' a]|].
  - destruct Hc as [Hm Hw]. exists c, c', rest. repeat split; assumption.
  - destruct (Marker.split_at_marker marker rest) as [[[pre tail] a]|].
    + destruct IH as (x & x' & post & -> & -> & Hpre & Hm & Hw).
      exists x, x', post. repeat split; try assumption.
      cbn [forallb]. rewrite Hc, Hpre. reflexivity.
    + cbn [forallb]. rewrite Hc, IH. reflexivity.
Qed.

Lemma split_at_marker_none (marker : pystr) (children : list element) :
  forallb (fun x => negb (marked marker x)) children = true ->
  Marker.split_at_marker marker children = None.
Proof.
  intros H. pose proof (split_at_marker_spec marker children) as Hs.
  destruct (Marker.split_at_marker marker children) as [[[pre tail] a]|];
    [|reflexivity].
  destruct Hs as (c & c' & post & -> & _ & _ & Hm & _).
  rewrite forallb_app in H. apply andb_true_iff in H. destruct H as [_ H].
  cbn [forallb] in H. rewrite Hm in H. discriminate.
Qed.

End MarkerFacts.

Import MarkerFacts.

(** X30.  [_extract_block_by_marker] leaves a body alone in which no text
    element holds the marker, and returns nothing.  When it returns
    elements, they are the first child of the body that holds the marker
    and every child behind it, to the end of the body, and the body keeps
    the children in front of it.  In every case the elements are the old
    ones in the old order, changed at most in the text of a text
    element. *)
Theorem extract_block_by_marker_spec (children : list element)
        (marker : pystr) :
  (forallb (fun c => negb (marked marker c)) children = true ->
   Marker._extract_block_by_marker children marker = ([], children))
  /\ (forall detached kept,
        Marker._extract_block_by_marker children marker = (detached, kept) ->
        detached <> [] ->
        exists pre c c' post,
          children = pre ++ c :: post
          /\ kept = pre
          /\ detached = c' :: post
          /\ forallb (fun x => negb (marked marker x)) pre = true
          /\ marked marker c = true
          /\ without_t c' = without_t c)
  /\ map without_t (snd (Marker._extract_block_by_marker children marker)
                    ++ fst (Marker._extract_block_by_marker children marker))
     = map without_t children.
Proof.
  unfold Marker._extract_block_by_marker.
  pose proof (split_at_marker_spec marker children) as Hs.
  split; [|split].
  - intros H. rewrite (split_at_marker_none marker children H). reflexivity.
  - intros detached kept E Hne.
    destruct (Marker.split_at_marker marker children) as [[[pre tail] [|]]|];
      inversion E as [[Hd Hk]]; try (symmetry in Hd; contradiction).
    destruct Hs as (c & c' & post & Hc & Ht & Hpre & Hm & Hw).
    subst detached kept. exists pre, c, c', post. repeat split; assumption.
  - destruct (Marker.split_at_marker marker children) as [[[pre tail] a]|].
    + destruct Hs as (c & c' & post & -> & -> & _ & _ & Hw).
      assert (E : map without_t (pre ++ c' :: post)
                  = map without_t (pre ++ c :: post)).
      { rewrite !map_app. cbn [map]. rewrite Hw. reflexivity. }
      destruct a; cbn [fst snd]; [exact E | rewrite app_nil_r; exact E].
    + cbn [fst snd]. rewrite app_nil_r. reflexivity.
Qed.

Lemma extract_block_by_marker_spec_witness :
  Marker._extract_block_by_marker marked_body (str "{{ABOUT_PA_START}}")
  = ([ Element (str "w:p") None
         [Element (str "w:r") None
            [Element (str "w:t") (Some (str "About PA")) []]];
       Element (str "w:tbl") None [];
       Element (str "w:sectPr") None [] ],
     [ Element (str "w:p") None
         [Element (str "w:r") None
            [Element (str "w:t") (Some (str "Overview")) []]] ])
  /\ Marker._extract_block_by_marker
       (snd (Marker._extract_block_by_marker marked_body
                                             (str "{{ABOUT_PA_START}}")))
       (str "{{ABOUT_PA_START}}")
     = ([], snd (Marker._extract_block_by_marker marked_body
                                                 (str "{{ABOUT_PA_START}}"))).
Proof.
  split; [vm_compute; reflexivity|].
  exact (proj1 (extract_block_by_marker_spec
                  (snd (Marker._extract_block_by_marker
                          marked_body (str "{{ABOUT_PA_START}}")))
                  (str "{{ABOUT_PA_START}}"))
               eq_refl).
Defined.
